(** * inx-api-core-v0: storage schema, v2-to-v3 migration and query facade

    A shallow embedding of [pkg/database] (binary codecs, the one-time
    tangle migration and the read-only query operations), of the hash
    conversions of [pkg/hornet] and of the request handlers of
    [pkg/server] that read through them, together with the properties of
    its specification that can be settled on it and further properties
    read off the code.

    Conventions of the embedding:
    - a Go byte slice is a [list byte]; a slice expression or an index that
      Go would reject at run time is a panic of the enclosing operation;
    - [uint32] values (milestone indices) are [Z] with the wrap-around of
      every conversion written out;
    - a Go pair [(value, error)] is a sum [A + error];
    - a panic is an outcome of its own, never an error value;
    - a callback handed to an iterator threads the variables it closes
      over as an explicit state and answers with a [flow];
    - error and panic messages are kept without their formatted
      arguments, and log output is left out. *)

From Stdlib Require Import String ZArith List Bool Lia.
From Stdlib Require Import Init.Byte Strings.Byte.
Import ListNotations.
Local Open Scope Z_scope.

(* ===================================================================== *)
(** ** Bytes and slices *)
(* ===================================================================== *)

Definition bytes := list byte.

Definition byte_to_Z (b : byte) : Z := Z.of_N (Byte.to_N b).

(** Go's conversion [byte(x)] of an integer: the low eight bits. *)
Definition byte_of_Z (z : Z) : byte :=
  match Byte.of_N (Z.to_N (z mod 256)) with
  | Some b => b
  | None => x00
  end.

(** [s[lo:hi]]; [None] is the slice-bounds panic.  Only the length of the
    slice is known to the model, so a slice is taken to have no spare
    capacity. *)
Definition slice (s : bytes) (lo hi : nat) : option bytes :=
  if ((lo <=? hi)%nat && (hi <=? length s)%nat)%bool
  then Some (firstn (hi - lo) (skipn lo s))
  else None.

(** [s[lo:]]. *)
Definition sliceFrom (s : bytes) (lo : nat) : option bytes :=
  slice s lo (length s).

(** [copy(dst[lo:hi], src)] on a buffer [dst] with [hi <= len(dst)]: the
    first [min (hi - lo) (len src)] bytes of the window are overwritten. *)
Definition copyInto (dst : bytes) (lo hi : nat) (src : bytes) : bytes :=
  let n := Nat.min (hi - lo) (length src) in
  firstn lo dst ++ firstn n src ++ skipn (lo + n) dst.

Fixpoint bytes_eqb (a b : bytes) : bool :=
  match a, b with
  | [], [] => true
  | x :: a', y :: b' => Byte.eqb x y && bytes_eqb a' b'
  | _, _ => false
  end.

Fixpoint hasPrefix (p s : bytes) : bool :=
  match p, s with
  | [], _ => true
  | x :: p', y :: s' => Byte.eqb x y && hasPrefix p' s'
  | _ :: _, [] => false
  end.

(** Lexicographic order on keys, the iteration order of the store. *)
Fixpoint bytes_compare (a b : bytes) : comparison :=
  match a, b with
  | [], [] => Eq
  | [], _ :: _ => Lt
  | _ :: _, [] => Gt
  | x :: a', y :: b' =>
      match N.compare (Byte.to_N x) (Byte.to_N y) with
      | Eq => bytes_compare a' b'
      | c => c
      end
  end.

(* ===================================================================== *)
(** ** encoding/binary, little endian *)
(* ===================================================================== *)

(** [binary.LittleEndian.Uint32(b)]; [None] is the bounds-check panic on a
    slice shorter than four bytes. *)
Definition Uint32 (b : bytes) : option Z :=
  match b with
  | b0 :: b1 :: b2 :: b3 :: _ =>
      Some (Z.lor (byte_to_Z b0)
             (Z.lor (Z.shiftl (byte_to_Z b1) 8)
               (Z.lor (Z.shiftl (byte_to_Z b2) 16)
                      (Z.shiftl (byte_to_Z b3) 24))))
  | _ => None
  end.

(** The four bytes [binary.LittleEndian.PutUint32] stores for [v]. *)
Definition PutUint32 (v : Z) : bytes :=
  [ byte_of_Z v; byte_of_Z (Z.shiftr v 8);
    byte_of_Z (Z.shiftr v 16); byte_of_Z (Z.shiftr v 24) ].

(** Conversion to [uint32]. *)
Definition uint32 (z : Z) : Z := z mod 2 ^ 32.

(* ===================================================================== *)
(** ** hive.go ds/bitmask *)
(* ===================================================================== *)

Definition BitMask := byte.

Definition SetBit (m : BitMask) (pos : Z) : BitMask :=
  byte_of_Z (Z.lor (byte_to_Z m) (Z.shiftl 1 pos)).

Definition ClearBit (m : BitMask) (pos : Z) : BitMask :=
  byte_of_Z (Z.land (byte_to_Z m) (Z.lnot (Z.shiftl 1 pos))).

Definition ModifyBit (m : BitMask) (pos : Z) (state : bool) : BitMask :=
  if state then SetBit m pos else ClearBit m pos.

Definition HasBit (m : BitMask) (pos : Z) : bool :=
  0 <? Z.land (byte_to_Z m) (Z.shiftl 1 pos).

(* ===================================================================== *)
(** ** Errors, panics and callbacks *)
(* ===================================================================== *)

Inductive error : Type :=
| ErrKeyNotFound                              (* kvstore.ErrKeyNotFound *)
| ErrOperationAborted                         (* database.ErrOperationAborted *)
| ErrEngine (msg : string)                    (* any other engine failure *)
| Errorf (msg : string)                       (* ierrors.Errorf, ierrors.New *)
| Wrapf (cause : error) (msg : string).       (* ierrors.Wrapf, [%w] *)

(** [ierrors.Is(err, kvstore.ErrKeyNotFound)]: looks through the wrapping. *)
Fixpoint IsKeyNotFound (e : error) : bool :=
  match e with
  | ErrKeyNotFound => true
  | Wrapf cause _ => IsKeyNotFound cause
  | _ => false
  end.

(** The result of an operation that may panic. *)
Inductive Exec (A : Type) : Type :=
| Ret (a : A)
| Panic (msg : string).
Arguments Ret {A} a.
Arguments Panic {A} msg.

Definition bindExec {A B} (c : Exec A) (k : A -> Exec B) : Exec B :=
  match c with
  | Ret a => k a
  | Panic m => Panic m
  end.

(** What a consumer callback tells the iterator: [return true],
    [return false], or a panic unwinding through the iterator. *)
Inductive flow : Type :=
| Continue
| Stop
| Unwind (msg : string).

(* ===================================================================== *)
(** ** The ordered key-value store (hive.go kvstore) *)
(* ===================================================================== *)

Definition Key := bytes.
Definition Value := bytes.

(** A realm of a store: its entries in iteration order, and the engine
    failures it answers with (a read, a write or an iteration that the
    engine refuses for a reason other than a missing key). *)
Record KVStore : Type := mkKVStore {
  entries : list (Key * Value);
  getFault : Key -> option error;
  setFault : Key -> option error;
  iterFault : Key -> option error
}.

Fixpoint lookup (k : Key) (l : list (Key * Value)) : option Value :=
  match l with
  | [] => None
  | (k', v) :: r => if bytes_eqb k k' then Some v else lookup k r
  end.

Definition Get (s : KVStore) (k : Key) : Value + error :=
  match getFault s k with
  | Some e => inr e
  | None =>
      match lookup k (entries s) with
      | Some v => inl v
      | None => inr ErrKeyNotFound
      end
  end.

(** Overwrites the value of a stored key where it stands; a new key goes
    to its place in key order. *)
Fixpoint put (k : Key) (v : Value) (l : list (Key * Value)) : list (Key * Value) :=
  match l with
  | [] => [(k, v)]
  | (k', v') :: r =>
      match bytes_compare k k' with
      | Eq => (k, v) :: r
      | Lt => (k, v) :: l
      | Gt => (k', v') :: put k v r
      end
  end.

Definition Set_ (s : KVStore) (k : Key) (v : Value) : KVStore + error :=
  match setFault s k with
  | Some e => inr e
  | None => inl (mkKVStore (put k v (entries s)) (getFault s) (setFault s) (iterFault s))
  end.

(** The iterator loop: the consumer is called on the entries in order
    until it stops or panics. *)
Fixpoint iterate {S : Type} (consumer : S -> Key -> Value -> S * flow)
    (kvs : list (Key * Value)) (s : S) : S * option string :=
  match kvs with
  | [] => (s, None)
  | (k, v) :: rest =>
      match consumer s k v with
      | (s', Continue) => iterate consumer rest s'
      | (s', Stop) => (s', None)
      | (s', Unwind m) => (s', Some m)
      end
  end.

Definition withPrefix (prefix : Key) (l : list (Key * Value)) : list (Key * Value) :=
  filter (fun kv => hasPrefix prefix (fst kv)) l.

(** [store.Iterate(prefix, consumer)]: the final state of the consumer's
    variables and the iterator's own result, an error of the engine or
    [nil]; a panic of the consumer unwinds. *)
Definition Iterate {S : Type} (store : KVStore) (prefix : Key)
    (consumer : S -> Key -> Value -> S * flow) (s : S) : S * Exec (option error) :=
  match iterFault store prefix with
  | Some e => (s, Ret (Some e))
  | None =>
      match iterate consumer (withPrefix prefix (entries store)) s with
      | (s', None) => (s', Ret None)
      | (s', Some m) => (s', Panic m)
      end
  end.

(** [store.IterateKeys(prefix, consumer)]. *)
Definition IterateKeys {S : Type} (store : KVStore) (prefix : Key)
    (consumer : S -> Key -> S * flow) (s : S) : S * Exec (option error) :=
  Iterate store prefix (fun st k _ => consumer st k) s.

(* ===================================================================== *)
(** ** golang-lru: the bounded cache of the migration *)
(* ===================================================================== *)

Definition Index := Z.   (* milestone.Index, a uint32 *)

(** The cache keeps its entries most recently used first and evicts from
    the other end once it holds more than [capacity] of them. *)
Record Cache : Type := mkCache {
  capacity : Z;
  items : list (Key * Index)
}.

Fixpoint cacheFind (k : Key) (l : list (Key * Index)) : option Index :=
  match l with
  | [] => None
  | (k', v) :: r => if bytes_eqb k k' then Some v else cacheFind k r
  end.

Fixpoint cacheRemove (k : Key) (l : list (Key * Index)) : list (Key * Index) :=
  match l with
  | [] => []
  | (k', v) :: r => if bytes_eqb k k' then cacheRemove k r else (k', v) :: cacheRemove k r
  end.

Definition lru_New (size : Z) : Cache := mkCache size [].

(** [cache.Get(key)]: the value (zero on a miss), the [ok] flag folded into
    the option, and the cache with the entry moved to the front. *)
Definition lru_Get (c : Cache) (k : Key) : option Index * Cache :=
  match cacheFind k (items c) with
  | Some v => (Some v, mkCache (capacity c) ((k, v) :: cacheRemove k (items c)))
  | None => (None, c)
  end.

Definition lru_Add (c : Cache) (k : Key) (v : Index) : Cache :=
  match cacheFind k (items c) with
  | Some _ => mkCache (capacity c) ((k, v) :: cacheRemove k (items c))
  | None =>
      let l := (k, v) :: items c in
      if capacity c <? Z.of_nat (length l)
      then mkCache (capacity c) (removelast l)
      else mkCache (capacity c) l
  end.

(* ===================================================================== *)
(** ** Hashes, payload types and the codecs owned by other files *)
(* ===================================================================== *)

Definition Hash := bytes.      (* hornet.Hash *)
Definition Hashes := list Hash.
Definition Trytes := string.   (* trinary.Trytes *)

Definition HashSize : nat := 49.          (* hornet.HashSize *)

(** Modelled from the spec: [milestone.IndexByteSize], declared in package
    [milestone], which is not part of the sources at hand; indices are
    4-byte values. *)
Definition IndexByteSize : nat := 4.

(** Modelled from the spec: the [Transaction] payload type of
    [transaction.go], which is not part of the sources at hand.  It
    provides the trunk, branch and bundle hashes, the head, tail and value
    predicates, and the fields [Tx.ObsoleteTag] and [Tx.Timestamp] of the
    embedded ledger transaction. *)
Record Transaction : Type := mkTransaction {
  txObsoleteTag : Trytes;
  txTimestamp : Z;
  txTrunkHash : Hash;
  txBranchHash : Hash;
  txBundleHash : Hash;
  txIsHead : bool;
  txIsTail : bool;
  txIsValue : bool
}.

(** Modelled from the spec: the [Bundle] record of [bundle.go], which is
    not part of the sources at hand, as far as this package reads it: the
    bundle hash, the hash of its tail transaction and [IsMilestone()]. *)
Record Bundle : Type := mkBundle {
  Bundle_hash : Hash;
  Bundle_tailTx : Hash;
  Bundle_IsMilestone : bool
}.

Definition TransactionMetadataSolid : Z := 0.
Definition TransactionMetadataConfirmed : Z := 1.
Definition TransactionMetadataConflicting : Z := 2.
Definition TransactionMetadataIsHead : Z := 3.
Definition TransactionMetadataIsTail : Z := 4.
Definition TransactionMetadataIsValue : Z := 5.
Definition TransactionMetadataIsMilestone : Z := 6.

(** metadata, confirmationIndex, trunkHash, branchHash, bundleHash,
    milestoneIndex. *)
Definition TransactionMetadataSize : nat :=
  1 + IndexByteSize + HashSize + HashSize + HashSize + IndexByteSize.

Record TransactionMetadata : Type := mkTransactionMetadata {
  txHash : Hash;
  metadata : BitMask;
  confirmationIndex : Index;
  trunkHash : Hash;
  branchHash : Hash;
  bundleHash : Hash;
  milestoneIndex : Index
}.

Definition NewTransactionMetadata (h : Hash) : TransactionMetadata :=
  mkTransactionMetadata h x00 0 [] [] [] 0.

Definition IsTail (m : TransactionMetadata) : bool := HasBit (metadata m) TransactionMetadataIsTail.
Definition IsSolid (m : TransactionMetadata) : bool := HasBit (metadata m) TransactionMetadataSolid.
Definition IsConfirmed (m : TransactionMetadata) : bool := HasBit (metadata m) TransactionMetadataConfirmed.
Definition ConfirmedWithIndex (m : TransactionMetadata) : bool * Index :=
  (HasBit (metadata m) TransactionMetadataConfirmed, confirmationIndex m).
Definition IsConflicting (m : TransactionMetadata) : bool := HasBit (metadata m) TransactionMetadataConflicting.
Definition IsMilestone (m : TransactionMetadata) : bool := HasBit (metadata m) TransactionMetadataIsMilestone.
Definition MilestoneIndex (m : TransactionMetadata) : Index := milestoneIndex m.

(** [TransactionMetadata.Marshal]: a zeroed buffer of the record size, the
    fields written at their offsets. *)
Definition Marshal (m : TransactionMetadata) : bytes :=
  let hashSize := HashSize in
  let msIndexSize := IndexByteSize in
  let value := repeat x00 TransactionMetadataSize in
  let value := copyInto value 0 1 [metadata m] in
  let value := copyInto value 1 (1 + msIndexSize) (PutUint32 (uint32 (confirmationIndex m))) in
  let value := copyInto value (1 + msIndexSize + 0 * hashSize) (1 + msIndexSize + 1 * hashSize) (trunkHash m) in
  let value := copyInto value (1 + msIndexSize + 1 * hashSize) (1 + msIndexSize + 2 * hashSize) (branchHash m) in
  let value := copyInto value (1 + msIndexSize + 2 * hashSize) (1 + msIndexSize + 3 * hashSize) (bundleHash m) in
  let value := copyInto value (1 + msIndexSize + 3 * hashSize) (length value) (PutUint32 (uint32 (milestoneIndex m))) in
  value.

Definition optExec {A} (msg : string) (o : option A) : Exec A :=
  match o with
  | Some a => Ret a
  | None => Panic msg
  end.

Notation "x <- c ;; k" := (bindExec c (fun x => k))
  (at level 61, c at next level, right associativity).

(** [TransactionMetadata.Unmarshal] on the receiver [m]; its error result
    is always [nil], a short record panics. *)
Definition Unmarshal (m : TransactionMetadata) (data : bytes) : Exec TransactionMetadata :=
  let hashSize := HashSize in
  let msIndexSize := IndexByteSize in
  b0 <- optExec "index out of range" (nth_error data 0) ;;
  ciBytes <- optExec "slice bounds out of range" (slice data 1 (1 + msIndexSize)) ;;
  ci <- optExec "index out of range" (Uint32 ciBytes) ;;
  trunk <- optExec "slice bounds out of range"
             (slice data (1 + msIndexSize + 0 * hashSize) (1 + msIndexSize + 1 * hashSize)) ;;
  branch <- optExec "slice bounds out of range"
             (slice data (1 + msIndexSize + 1 * hashSize) (1 + msIndexSize + 2 * hashSize)) ;;
  bundle <- optExec "slice bounds out of range"
             (slice data (1 + msIndexSize + 2 * hashSize) (1 + msIndexSize + 3 * hashSize)) ;;
  msBytes <- optExec "slice bounds out of range" (sliceFrom data (1 + msIndexSize + 3 * hashSize)) ;;
  ms <- optExec "index out of range" (Uint32 msBytes) ;;
  Ret (mkTransactionMetadata (txHash m) b0 ci trunk branch bundle ms).

(** The functions of this repository and of its libraries that the code
    below calls and that are not part of the sources at hand; they are
    kept abstract.  [transactionFactory], [bundleFactory] and
    [metadataFactory] parse a stored value, [databaseKeyForBundle] builds
    the key of the bundle realm, and [TrytesToInt] is [trinary.TrytesToInt]. *)
Class Collaborators : Type := mkCollaborators {
  transactionFactory : Key -> Value -> Transaction + error;
  bundleFactory : Key -> Value -> Bundle + error;
  metadataFactory : Key -> Value -> TransactionMetadata + error;
  databaseKeyForBundle : Hash -> Key;
  TrytesToInt : Trytes -> Z
}.

(** The realms of the [Database] object that the operations below use. *)
Record Database : Type := mkDatabase {
  txStore : KVStore;
  metadataStore : KVStore;
  bundleTransactionsStore : KVStore;
  bundleStore : KVStore;
  milestoneStore : KVStore
}.

(* ===================================================================== *)
(** ** Query facade *)
(* ===================================================================== *)

Section Facade.
Context {C : Collaborators}.
Variable db : Database.

(** Modelled from the spec: [TransactionOrNil] of [transaction.go], which
    is not part of the sources at hand: loads and parses the payload,
    returns nothing if it is absent, and treats an engine failure or a
    malformed payload as fatal. *)
Definition TransactionOrNil (h : Hash) : Exec (option Transaction) :=
  let key := h in
  match Get (txStore db) key with
  | inr err =>
      if negb (IsKeyNotFound err)
      then Panic "failed to get value from database"
      else Ret None
  | inl data =>
      match transactionFactory key data with
      | inr _ => Panic "failed to parse transaction"
      | inl tx => Ret (Some tx)
      end
  end.

Definition TxMetadataOrNil (h : Hash) : Exec (option TransactionMetadata) :=
  let key := h in
  match Get (metadataStore db) key with
  | inr err =>
      if negb (IsKeyNotFound err)
      then Panic "failed to get value from database"
      else Ret None
  | inl data =>
      match metadataFactory key data with
      | inr _ => Panic "metadataFactory failed"
      | inl txMeta => Ret (Some txMeta)
      end
  end.

Definition databaseKeyPrefixForBundleHash (bundleHash : Hash) : bytes := bundleHash.

Definition BundleTxIsTail : byte := x01.

(** The callback of [BundleTransactionHashes]; its state is the counter
    [i] and the hashes collected so far. *)
Definition collectBundleTransactionHash (maxFind : list Z)
    (st : Z * Hashes) (key : Key) : (Z * Hashes) * flow :=
  let i := fst st + 1 in
  if ((0 <? length maxFind)%nat && (hd 0 maxFind <? i))%bool
  then ((i, snd st), Stop)
  else
    match slice key 50 99 with
    | None => ((i, snd st), Unwind "slice bounds out of range")
    | Some h => ((i, snd st ++ [h]), Continue)
    end.

(** The scan of [BundleTransactionHashes] with the final values of [i]
    and of the collected hashes. *)
Definition scanBundleTransactionHashes (bundleHash : Hash) (maxFind : list Z)
    : (Z * Hashes) * Exec (option error) :=
  IterateKeys (bundleTransactionsStore db) (databaseKeyPrefixForBundleHash bundleHash)
    (collectBundleTransactionHash maxFind) (0, []).

(** The error of the iterator is dropped ([_ =]). *)
Definition BundleTransactionHashes (bundleHash : Hash) (maxFind : list Z) : Exec Hashes :=
  match scanBundleTransactionHashes bundleHash maxFind with
  | ((_, bundleTransactionHashes), Ret _) => Ret bundleTransactionHashes
  | (_, Panic m) => Panic m
  end.

Definition databaseKeyForMilestoneIndex (milestoneIndex : Index) : bytes :=
  copyInto (repeat x00 4) 0 4 (PutUint32 (uint32 milestoneIndex)).

Definition milestoneIndexFromDatabaseKey (key : bytes) : Exec Index :=
  optExec "index out of range" (Uint32 key).

Record Milestone : Type := mkMilestone {
  Milestone_Index : Index;
  Milestone_Hash : Hash
}.

Definition milestoneFactory (key data : bytes) : Exec Milestone :=
  idx <- milestoneIndexFromDatabaseKey key ;;
  h <- optExec "slice bounds out of range" (slice data 0 HashSize) ;;
  Ret (mkMilestone idx h).

Definition MilestoneOrNil (milestoneIndex : Index) : Exec (option Milestone) :=
  let key := databaseKeyForMilestoneIndex milestoneIndex in
  match Get (milestoneStore db) key with
  | inr err =>
      if negb (IsKeyNotFound err)
      then Panic "failed to get value from database"
      else Ret None
  | inl data =>
      milestone <- milestoneFactory key data ;;
      Ret (Some milestone)
  end.

(** [MilestoneTimestamp]: a timestamp or an error, unless a lookup panics. *)
Definition MilestoneTimestamp (milestoneIndex : Index) : Exec (Z + error) :=
  milestone <- MilestoneOrNil milestoneIndex ;;
  match milestone with
  | None => Ret (inr (Errorf "milestone not found"))
  | Some milestone =>
      tx <- TransactionOrNil (Milestone_Hash milestone) ;;
      match tx with
      | None => Ret (inr (Errorf "milestone tail transaction not found"))
      | Some tx => Ret (inl (txTimestamp tx))
      end
  end.
End Facade.

(* ===================================================================== *)
(** ** The v2-to-v3 migration of the tangle database *)
(* ===================================================================== *)

Definition DBVersion : Z := 3.

(** The error result: [None] is [nil]. *)
Definition supportedDatabaseVersionUpgradeFunc (oldVersion newVersion : Z) : option error :=
  if negb ((oldVersion =? 2) && (newVersion =? 3))
  then Some (Errorf "unsupported database version migration")
  else None.

(** What the migration sees of its context and of the clock: whether, at
    a given value of the record counter (and, inside a bundle scan, of the
    scan's counter), the status interval has elapsed and the context is
    found cancelled. *)
Record Ctx : Type := mkCtx {
  abortedAt : Z -> bool;
  abortedAtTail : Z -> Z -> bool
}.

(** A context that is never found cancelled. *)
Definition neverAborted : Ctx := mkCtx (fun _ => false) (fun _ _ => false).

(** The variables of the inner scan: [bundleTransactionsCounter], the
    enclosing [milestoneIndex] and the enclosing [innerErr]. *)
Record ScanState : Type := mkScanState {
  scan_counter : Z;
  scan_milestoneIndex : Index;
  scan_innerErr : option error
}.

(** The variables of the pass: the metadata realm being rewritten, the
    cache, [transactionsCounter] and [innerErr]. *)
Record MigState : Type := mkMigState {
  mig_store : KVStore;
  mig_cache : Cache;
  mig_counter : Z;
  mig_innerErr : option error
}.

Definition milestoneCacheSize : Z := 10000000.

Section Migration.
Context {C : Collaborators}.
Variable ctx : Ctx.
Variable tangleDatabase : Database.

Definition getBundleMilestoneIndex (bundle : Bundle) : Index + error :=
  if (length (Bundle_tailTx bundle) =? 0)%nat
  then inr (Errorf "tail hash can never be empty")
  else
    match Get (txStore tangleDatabase) (Bundle_tailTx bundle) with
    | inr err =>
        if negb (IsKeyNotFound err)
        then inr (Wrapf err "failed to get transaction from database")
        else inr (Errorf "bundle has a reference to a non persisted transaction")
    | inl tailTxData =>
        match transactionFactory (Bundle_tailTx bundle) tailTxData with
        | inr err => inr (Wrapf err "failed to parse data for transaction")
        | inl tailTx => inl (uint32 (TrytesToInt (txObsoleteTag tailTx)))
        end
    end.

(** The callback of the scan over the tail keys of one bundle hash. *)
Definition tailConsumer (transactionsCounter : Z) (s : ScanState) (key : Key)
    : ScanState * flow :=
  let s := mkScanState (scan_counter s + 1) (scan_milestoneIndex s) (scan_innerErr s) in
  if abortedAtTail ctx transactionsCounter (scan_counter s)
  then (mkScanState (scan_counter s) (scan_milestoneIndex s) (Some ErrOperationAborted), Stop)
  else
    match slice key 50 99 with
    | None => (s, Unwind "slice bounds out of range")
    | Some tailTxHash =>
        let bundleKey := databaseKeyForBundle tailTxHash in
        match Get (bundleStore tangleDatabase) bundleKey with
        | inr err =>
            if negb (IsKeyNotFound err)
            then (mkScanState (scan_counter s) (scan_milestoneIndex s)
                    (Some (Wrapf err "failed to get bundle from database")), Stop)
            else (s, Continue)
        | inl bundleData =>
            match bundleFactory bundleKey bundleData with
            | inr err =>
                (mkScanState (scan_counter s) (scan_milestoneIndex s)
                   (Some (Wrapf err "failed to get bundle from database")), Stop)
            | inl bundle =>
                if Bundle_IsMilestone bundle
                then
                  match getBundleMilestoneIndex bundle with
                  | inr err =>
                      (mkScanState (scan_counter s) (scan_milestoneIndex s)
                         (Some (Wrapf err "failed to get milestone index for bundle")), Stop)
                  | inl msIndex =>
                      (mkScanState (scan_counter s) msIndex (scan_innerErr s), Stop)
                  end
                else (s, Continue)
            end
        end
    end.

(** The scan started on a cache miss, from [milestoneIndex = 0]. *)
Definition scanBundleTails (transactionsCounter : Z) (innerErr : option error)
    (bundleHash : Hash) : ScanState * Exec (option error) :=
  IterateKeys (bundleTransactionsStore tangleDatabase)
    (databaseKeyPrefixForBundleHash bundleHash ++ [BundleTxIsTail])
    (tailConsumer transactionsCounter) (mkScanState 0 0 innerErr).

(** The cache lookup and, on a miss, the scan and the cache update: the
    resolved [milestoneIndex] with the state after it, or the way the
    callback leaves early. *)
Definition resolveMilestoneIndex (st : MigState) (tx : Transaction)
    (milestoneCacheKey : Key) : (MigState * Index) + (MigState * flow) :=
  match lru_Get (mig_cache st) milestoneCacheKey with
  | (Some milestoneIndex, cache) =>
      inl (mkMigState (mig_store st) cache (mig_counter st) (mig_innerErr st), milestoneIndex)
  | (None, cache) =>
      match scanBundleTails (mig_counter st) (mig_innerErr st) (txBundleHash tx) with
      | (_, Panic m) =>
          inr (mkMigState (mig_store st) cache (mig_counter st) (mig_innerErr st), Unwind m)
      | (_, Ret (Some err)) =>
          inr (mkMigState (mig_store st) cache (mig_counter st)
                 (Some (Wrapf err "failed to iterate over all bundle transactions")), Stop)
      | (sc, Ret None) =>
          inl (mkMigState (mig_store st)
                 (lru_Add cache milestoneCacheKey (scan_milestoneIndex sc))
                 (mig_counter st) (scan_innerErr sc),
               scan_milestoneIndex sc)
      end
  end.

(** The record composed for a transaction from the two legacy fields
    that are kept, the payload and the resolved index. *)
Definition migratedMetadata (h : Hash) (legacyMask : BitMask) (legacyConfirmationIndex : Index)
    (tx : Transaction) (milestoneIndex : Index) : TransactionMetadata :=
  let txMeta := NewTransactionMetadata h in
  mkTransactionMetadata (txHash txMeta)
    (ModifyBit
       (ModifyBit
          (ModifyBit
             (ModifyBit legacyMask TransactionMetadataIsHead (txIsHead tx))
             TransactionMetadataIsTail (txIsTail tx))
          TransactionMetadataIsValue (txIsValue tx))
       TransactionMetadataIsMilestone (negb (milestoneIndex =? 0)))
    legacyConfirmationIndex
    (txTrunkHash tx) (txBranchHash tx) (txBundleHash tx)
    milestoneIndex.

Definition setInnerErr (st : MigState) (e : error) : MigState :=
  mkMigState (mig_store st) (mig_cache st) (mig_counter st) (Some e).

(** The callback of the pass over the metadata realm. *)
Definition migrateConsumer (st : MigState) (key : Key) (data : Value) : MigState * flow :=
  let st := mkMigState (mig_store st) (mig_cache st) (mig_counter st + 1) (mig_innerErr st) in
  match slice key 0 HashSize with
  | None => (st, Unwind "slice bounds out of range")
  | Some h =>
  if abortedAt ctx (mig_counter st) then (setInnerErr st ErrOperationAborted, Stop) else
  match nth_error data 0 with
  | None => (st, Unwind "index out of range")
  | Some legacyMask =>
  match sliceFrom data (1 + IndexByteSize) with
  | None => (st, Unwind "slice bounds out of range")
  | Some ciBytes =>
  match Uint32 ciBytes with
  | None => (st, Unwind "index out of range")
  | Some legacyConfirmationIndex =>
  match Get (txStore tangleDatabase) h with
  | inr err =>
      if negb (IsKeyNotFound err)
      then (setInnerErr st (Wrapf err "failed to get transaction from database"), Stop)
      else (setInnerErr st (Errorf "transaction not found"), Stop)
  | inl txData =>
  match transactionFactory h txData with
  | inr err => (setInnerErr st (Wrapf err "failed to parse data for transaction"), Stop)
  | inl tx =>
  match slice (txBundleHash tx) 0 49 with
  | None => (st, Unwind "cannot convert slice to array")
  | Some milestoneCacheKey =>
  match resolveMilestoneIndex st tx milestoneCacheKey with
  | inr early => early
  | inl (st, milestoneIndex) =>
      let txMeta := migratedMetadata h legacyMask legacyConfirmationIndex tx milestoneIndex in
      match Set_ (mig_store st) key (Marshal txMeta) with
      | inr err =>
          (setInnerErr st (Wrapf err "failed to set updated transaction metadata"), Stop)
      | inl store =>
          (mkMigState store (mig_cache st) (mig_counter st) (mig_innerErr st), Continue)
      end
  end end end end end end end end.

(** [migrateTangleDatabaseFunc]: the metadata realm it leaves behind and
    its result.  The iterator runs over the entries the realm has when the
    pass starts; the callback writes to the realm it threads, always at
    the key it was called with. *)
Definition migrateTangleDatabaseFunc (oldVersion newVersion : Z)
    : KVStore * Exec (option error) :=
  match supportedDatabaseVersionUpgradeFunc oldVersion newVersion with
  | Some err => (metadataStore tangleDatabase, Ret (Some err))
  | None =>
      let milestoneCache := lru_New milestoneCacheSize in
      match Iterate (metadataStore tangleDatabase) [] migrateConsumer
              (mkMigState (metadataStore tangleDatabase) milestoneCache 0 None) with
      | (st, Panic m) => (mig_store st, Panic m)
      | (st, Ret (Some err)) =>
          (mig_store st, Ret (Some (Wrapf err "failed to iterate over all transaction metadata")))
      | (st, Ret None) => (mig_store st, Ret (mig_innerErr st))
      end
  end.
End Migration.

(* ===================================================================== *)
(** ** The metadata accessor before schema version 3 *)
(* ===================================================================== *)

Module Legacy.

Record TransactionMetadata : Type := mkTransactionMetadata {
  txHash : Hash;
  metadata : BitMask;
  confirmationIndex : Index;
  trunkHash : Hash;
  branchHash : Hash;
  bundleHash : Hash
}.

Definition NewTransactionMetadata (h : Hash) : TransactionMetadata :=
  mkTransactionMetadata h x00 0 [] [] [].

Definition TxHash (m : TransactionMetadata) : Hash := txHash m.
Definition TrunkHash (m : TransactionMetadata) : Hash := trunkHash m.
Definition BranchHash (m : TransactionMetadata) : Hash := branchHash m.
Definition BundleHash (m : TransactionMetadata) : Hash := bundleHash m.

Definition IsTail (m : TransactionMetadata) : bool := HasBit (metadata m) TransactionMetadataIsTail.
Definition IsConfirmed (m : TransactionMetadata) : bool := HasBit (metadata m) TransactionMetadataConfirmed.
Definition ConfirmedWithIndex (m : TransactionMetadata) : bool * Index :=
  (HasBit (metadata m) TransactionMetadataConfirmed, confirmationIndex m).
Definition IsConflicting (m : TransactionMetadata) : bool := HasBit (metadata m) TransactionMetadataConflicting.

Definition SetAdditionalTxInfo (m : TransactionMetadata)
    (trunk branch bundle : Hash) (isHead isTail isValue : bool) : TransactionMetadata :=
  mkTransactionMetadata (txHash m)
    (ModifyBit
       (ModifyBit
          (ModifyBit (metadata m) TransactionMetadataIsHead isHead)
          TransactionMetadataIsTail isTail)
       TransactionMetadataIsValue isValue)
    (confirmationIndex m) trunk branch bundle.

(** The legacy [Unmarshal]: the hashes are read only from a record of
    the full length [21+49+49+49]. *)
Definition Unmarshal (m : TransactionMetadata) (data : bytes) : Exec TransactionMetadata :=
  b0 <- optExec "index out of range" (nth_error data 0) ;;
  ciBytes <- optExec "slice bounds out of range" (slice data 5 9) ;;
  ci <- optExec "index out of range" (Uint32 ciBytes) ;;
  let m := mkTransactionMetadata (txHash m) b0 ci (trunkHash m) (branchHash m) (bundleHash m) in
  if (17 <? length data)%nat
  then
    if (length data =? 21 + 49 + 49 + 49)%nat
    then
      trunk <- optExec "slice bounds out of range" (slice data 21 (21 + 49)) ;;
      branch <- optExec "slice bounds out of range" (slice data (21 + 49) (21 + 49 + 49)) ;;
      bundle <- optExec "slice bounds out of range" (slice data (21 + 49 + 49) (21 + 49 + 49 + 49)) ;;
      Ret (mkTransactionMetadata (txHash m) (metadata m) (confirmationIndex m) trunk branch bundle)
    else Ret m
  else Ret m.

Section Accessor.
Context {C : Collaborators}.
(** [metadataFactory] for the legacy record type; like its successor it
    is not part of the sources at hand. *)
Variable metadataFactory : Key -> Value -> TransactionMetadata + error.
Variable db : Database.

(** The metadata is updated in place; the updated record is the result. *)
Definition addAdditionalTxInfoToMetadata (metadata : TransactionMetadata)
    : Exec TransactionMetadata :=
  let trunkHash := TrunkHash metadata in
  let branchHash := TrunkHash metadata in
  if ((length trunkHash =? 0)%nat || (length branchHash =? 0)%nat)%bool
  then
    tx <- TransactionOrNil db (TxHash metadata) ;;
    match tx with
    | None => Panic "transaction not found for metadata"
    | Some tx =>
        Ret (SetAdditionalTxInfo metadata (txTrunkHash tx) (txBranchHash tx)
               (txBundleHash tx) (txIsHead tx) (txIsTail tx) (txIsValue tx))
    end
  else Ret metadata.

Definition TxMetadataOrNil (h : Hash) : Exec (option TransactionMetadata) :=
  let key := h in
  match Get (metadataStore db) key with
  | inr err =>
      if negb (IsKeyNotFound err)
      then Panic "failed to get value from database"
      else Ret None
  | inl data =>
      match metadataFactory key data with
      | inr _ => Panic "metadataFactory failed"
      | inl txMeta =>
          txMeta <- addAdditionalTxInfoToMetadata txMeta ;;
          Ret (Some txMeta)
      end
  end.
End Accessor.

End Legacy.

(* ===================================================================== *)
(** ** Vocabulary of the properties *)
(* ===================================================================== *)

(** The bytes [copy] leaves in a zeroed window of [w] bytes. *)
Definition fitTo (w : nat) (src : bytes) : bytes :=
  firstn w src ++ repeat x00 (w - length src).

(** Everything of a record after the confirmation index. *)
Definition recordBody (m : TransactionMetadata) : bytes :=
  fitTo 49 (trunkHash m) ++ fitTo 49 (branchHash m) ++ fitTo 49 (bundleHash m)
    ++ PutUint32 (uint32 (milestoneIndex m)).

(** The little-endian bytes of a 32-bit value, least significant first. *)
Definition littleEndian4 (v : Z) : bytes :=
  [ byte_of_Z v; byte_of_Z (v / 2 ^ 8); byte_of_Z (v / 2 ^ 16); byte_of_Z (v / 2 ^ 24) ].

Definition isUint32 (v : Z) : Prop := 0 <= v < 2 ^ 32.

(** A metadata value as the data model has it: 32-bit indices, 49-byte
    hashes. *)
Definition validMetadata (m : TransactionMetadata) : Prop :=
  isUint32 (confirmationIndex m) /\ isUint32 (milestoneIndex m) /\
  length (trunkHash m) = HashSize /\ length (branchHash m) = HashSize /\
  length (bundleHash m) = HashSize.

(** The four bit updates of the migration, in the order of the code. *)
Definition migrationMask (legacyMask : BitMask) (h t v ms : bool) : BitMask :=
  ModifyBit (ModifyBit (ModifyBit (ModifyBit legacyMask TransactionMetadataIsHead h)
    TransactionMetadataIsTail t) TransactionMetadataIsValue v) TransactionMetadataIsMilestone ms.

(** The 256 bytes and the two booleans, for properties of the bit mask
    that are checked on every value. *)
Definition allBytes : list byte := map (fun n => byte_of_Z (Z.of_nat n)) (seq 0 256).

Definition bools : list bool := [true; false].

Definition isLt (c : comparison) : bool :=
  match c with Lt => true | _ => false end.

(** The keys of a realm are strictly ascending, as the engine keeps them. *)
Fixpoint keysSortedb (l : list (Key * Value)) : bool :=
  match l with
  | a :: r =>
      match r with
      | b :: _ => isLt (bytes_compare (fst a) (fst b)) && keysSortedb r
      | [] => true
      end
  | [] => true
  end.

(** The transaction hash inside a 99-byte key of the bundle-transactions
    realm. *)
Definition txHashOfKey (key : Key) : Hash := firstn 49 (skipn 50 key).

(** The cached indices are [uint32] values, as their Go type has it. *)
Definition cacheHoldsUint32 (c : Cache) : Prop :=
  Forall (fun kv => isUint32 (snd kv)) (items c).

(** What a pass reads back from a version 3 record: the mask at offset 0
    and, as confirmation index, the four bytes at the legacy offset 5. *)
Definition reread (r : bytes) : bytes :=
  firstn 1 r ++ firstn 4 (skipn 5 r) ++ skipn 5 r.

(** The database with another metadata realm. *)
Definition withMetadata (db : Database) (s : KVStore) : Database :=
  mkDatabase (txStore db) s (bundleTransactionsStore db) (bundleStore db) (milestoneStore db).

(** A pass that completes without error, as a function of the realm's
    entries: what each callback computes when nothing is cancelled. *)
Section Pure.
Context {C : Collaborators}.
Variable tangleDatabase : Database.

(** The index a scan of the tail keys of a bundle hash resolves when it
    runs to its end: neither cancelled, nor failed, nor panicking. *)
Definition resolvedIndex (bundleHash : Hash) : option Index :=
  match scanBundleTails neverAborted tangleDatabase 0 None bundleHash with
  | (sc, Ret None) =>
      match scan_innerErr sc with
      | None => Some (scan_milestoneIndex sc)
      | Some _ => None
      end
  | _ => None
  end.

Definition resolveQuietly (cache : Cache) (tx : Transaction) (milestoneCacheKey : Key)
    : option (Cache * Index) :=
  match lru_Get cache milestoneCacheKey with
  | (Some milestoneIndex, cache) => Some (cache, milestoneIndex)
  | (None, cache) =>
      match resolvedIndex (txBundleHash tx) with
      | Some milestoneIndex =>
          Some (lru_Add cache milestoneCacheKey milestoneIndex, milestoneIndex)
      | None => None
      end
  end.

Definition rewriteOne (cache : Cache) (key : Key) (data : Value) : option (Cache * Value) :=
  match slice key 0 HashSize with
  | None => None
  | Some h =>
  match nth_error data 0 with
  | None => None
  | Some legacyMask =>
  match sliceFrom data (1 + IndexByteSize) with
  | None => None
  | Some ciBytes =>
  match Uint32 ciBytes with
  | None => None
  | Some legacyConfirmationIndex =>
  match Get (txStore tangleDatabase) h with
  | inr _ => None
  | inl txData =>
  match transactionFactory h txData with
  | inr _ => None
  | inl tx =>
  match slice (txBundleHash tx) 0 49 with
  | None => None
  | Some milestoneCacheKey =>
  match resolveQuietly cache tx milestoneCacheKey with
  | None => None
  | Some (cache, milestoneIndex) =>
      Some (cache, Marshal (migratedMetadata h legacyMask legacyConfirmationIndex tx milestoneIndex))
  end end end end end end end end.

Fixpoint rewriteAll (cache : Cache) (l : list (Key * Value)) : option (list (Key * Value)) :=
  match l with
  | [] => Some []
  | (k, d) :: r =>
      match rewriteOne cache k d with
      | None => None
      | Some (cache, v) =>
          match rewriteAll cache r with
          | None => None
          | Some r' => Some ((k, v) :: r')
          end
      end
  end.

(** Every cached index is the one a scan of its bundle hash resolves. *)
Definition cacheSound (cache : Cache) : Prop :=
  forall bundleHash index,
    cacheFind bundleHash (items cache) = Some index ->
    resolvedIndex bundleHash = Some index.

(** The parser yields transactions with 49-byte bundle hashes. *)
Definition bundleHashesSized : Prop :=
  forall h data tx, transactionFactory h data = inl tx -> length (txBundleHash tx) = HashSize.

(** A stored record is the one composed for the payload of its key, with
    the index resolved for the bundle hash of that payload. *)
Definition composedFor (kv : Key * Value) : Prop :=
  exists h legacyMask legacyConfirmationIndex txData tx milestoneIndex,
    slice (fst kv) 0 HashSize = Some h /\
    Get (txStore tangleDatabase) h = inl txData /\
    transactionFactory h txData = inl tx /\
    resolvedIndex (txBundleHash tx) = Some milestoneIndex /\
    snd kv = Marshal (migratedMetadata h legacyMask legacyConfirmationIndex tx milestoneIndex).
End Pure.

Section Conditions.
Context {C : Collaborators}.
Variable db : Database.

(** The milestone realm has no entry for the index. *)
Definition milestoneAbsent (i : Index) : Prop :=
  exists e, Get (milestoneStore db) (databaseKeyForMilestoneIndex i) = inr e /\
            IsKeyNotFound e = true.

(** The milestone realm has the entry, the transaction realm has no
    payload for its tail hash. *)
Definition milestoneTailAbsent (i : Index) : Prop :=
  exists data h e,
    Get (milestoneStore db) (databaseKeyForMilestoneIndex i) = inl data /\
    slice data 0 HashSize = Some h /\
    Get (txStore db) h = inr e /\ IsKeyNotFound e = true.

(** A tail key the scan passes over: its bundle record is missing, or it
    is not a milestone. *)
Definition passedOver (key : Key) : Prop :=
  exists tailTxHash,
    slice key 50 99 = Some tailTxHash /\
    ((exists e, Get (bundleStore db) (databaseKeyForBundle tailTxHash) = inr e /\
                IsKeyNotFound e = true) \/
     (exists bundleData bundle,
         Get (bundleStore db) (databaseKeyForBundle tailTxHash) = inl bundleData /\
         bundleFactory (databaseKeyForBundle tailTxHash) bundleData = inl bundle /\
         Bundle_IsMilestone bundle = false)).

(** A tail key whose bundle is a milestone with the given tail transaction. *)
Definition milestoneTail (key : Key) (tailTx : Transaction) : Prop :=
  exists tailTxHash bundleData bundle tailTxData,
    slice key 50 99 = Some tailTxHash /\
    Get (bundleStore db) (databaseKeyForBundle tailTxHash) = inl bundleData /\
    bundleFactory (databaseKeyForBundle tailTxHash) bundleData = inl bundle /\
    Bundle_IsMilestone bundle = true /\
    Bundle_tailTx bundle <> [] /\
    Get (txStore db) (Bundle_tailTx bundle) = inl tailTxData /\
    transactionFactory (Bundle_tailTx bundle) tailTxData = inl tailTx.

End Conditions.

(* ===================================================================== *)
(** ** A small database to run the operations on *)
(* ===================================================================== *)

Module Sample.

(** Balanced-ternary value of a tryte string, little endian, as
    [trinary.TrytesToInt] computes it. *)
Definition tryteValue (c : Ascii.ascii) : Z :=
  let n := Z.of_N (Ascii.N_of_ascii c) in
  if n =? 57 then 0
  else if ((65 <=? n) && (n <=? 77))%bool then n - 64
  else if ((78 <=? n) && (n <=? 90))%bool then n - 91
  else 0.

Fixpoint trytesToInt (t : string) : Z :=
  match t with
  | EmptyString => 0
  | String c r => tryteValue c + 27 * trytesToInt r
  end.

(** A payload format for the sample: one tryte of obsolete tag, a
    four-byte timestamp, a byte of head/tail/value flags and the three
    hashes. *)
Definition parseTransaction (_ : Key) (data : Value) : Transaction + error :=
  match data with
  | tag :: t0 :: t1 :: t2 :: t3 :: flags :: rest =>
      match Uint32 [t0; t1; t2; t3] with
      | Some ts =>
          if (length rest =? 147)%nat
          then inl (mkTransaction (String (Ascii.ascii_of_byte tag) EmptyString) ts
                      (firstn 49 rest) (firstn 49 (skipn 49 rest)) (skipn 98 rest)
                      (HasBit flags 0) (HasBit flags 1) (HasBit flags 2))
          else inr (Errorf "malformed transaction")
      | None => inr (Errorf "malformed transaction")
      end
  | _ => inr (Errorf "malformed transaction")
  end.

Definition encodeTransaction (tag : byte) (ts : Z) (flags : byte)
    (trunk branch bundle : Hash) : Value :=
  tag :: PutUint32 ts ++ flags :: trunk ++ branch ++ bundle.

(** A bundle record of the sample: a milestone flag and the bundle hash;
    the key is the tail transaction hash. *)
Definition parseBundle (key : Key) (data : Value) : Bundle + error :=
  match data with
  | flag :: h => inl (mkBundle h key (negb (Byte.eqb flag x00)))
  | [] => inr (Errorf "malformed bundle")
  end.

Definition parseMetadata (key : Key) (data : Value) : TransactionMetadata + error :=
  match Unmarshal (NewTransactionMetadata (firstn 49 key)) data with
  | Ret m => inl m
  | Panic m => inr (Errorf m)
  end.

Definition parseLegacyMetadata (key : Key) (data : Value) : Legacy.TransactionMetadata + error :=
  match Legacy.Unmarshal (Legacy.NewTransactionMetadata (firstn 49 key)) data with
  | Ret m => inl m
  | Panic m => inr (Errorf m)
  end.

#[export] Instance collaborators : Collaborators :=
  mkCollaborators parseTransaction parseBundle parseMetadata (fun h => h) trytesToInt.

Definition noFault : Key -> option error := fun _ => None.

Definition store (l : list (Key * Value)) : KVStore := mkKVStore l noFault noFault noFault.

Definition hashT1 : Hash := repeat x11 49.
Definition hashT2 : Hash := repeat x22 49.
Definition hashT3 : Hash := repeat x33 49.
Definition hashB : Hash := repeat xbb 49.
Definition hashTrunk : Hash := repeat x0a 49.
Definition hashBranch : Hash := repeat x0b 49.

(** Bundle hash B with two tails: T1, not a milestone (obsolete tag 0),
    and T2, a milestone with obsolete tag "G" = 7, timestamp 1000; T3 is
    a further member of the bundle. *)
Definition transactions : KVStore :=
  store [ (hashT1, encodeTransaction "9" 900 x02 hashTrunk hashBranch hashB);
          (hashT2, encodeTransaction "G" 1000 x02 hashTrunk hashBranch hashB);
          (hashT3, encodeTransaction "9" 1000 x01 hashT2 hashBranch hashB) ].

Definition bundles : KVStore :=
  store [ (hashT1, x00 :: hashB); (hashT2, x01 :: hashB) ].

Definition bundleTransactions : KVStore :=
  store [ (hashB ++ [x00] ++ hashT3, []);
          (hashB ++ [x01] ++ hashT1, []);
          (hashB ++ [x01] ++ hashT2, []) ].

(** A legacy metadata record: bitmask, solidification timestamp,
    confirmation index and the three root snapshot indices; no hashes. *)
Definition legacyRecord (mask : byte) (confirmationIndex : Z) : Value :=
  mask :: repeat x00 4 ++ PutUint32 confirmationIndex ++ repeat x00 12.

Definition legacyMetadata : KVStore :=
  store [ (hashT1, legacyRecord x03 5);
          (hashT2, legacyRecord x03 7);
          (hashT3, legacyRecord x01 0) ].

Definition milestones : KVStore :=
  store [ (PutUint32 7, hashT2) ].

Definition database : Database :=
  mkDatabase transactions legacyMetadata bundleTransactions bundles milestones.

(** The metadata realm after one pass and after a second pass over the
    result of the first. *)
Definition firstPass : KVStore * Exec (option error) :=
  migrateTangleDatabaseFunc neverAborted database 2 3.

Definition migrated : Database := withMetadata database (fst firstPass).

Definition secondPass : KVStore * Exec (option error) :=
  migrateTangleDatabaseFunc neverAborted migrated 2 3.

(** A metadata realm whose engine refuses to read [hashT1]. *)
Definition brokenMetadata : KVStore :=
  mkKVStore (entries legacyMetadata)
    (fun k => if bytes_eqb k hashT1 then Some (ErrEngine "input/output error") else None)
    noFault noFault.

Definition brokenDatabase : Database :=
  mkDatabase transactions brokenMetadata bundleTransactions bundles milestones.

(** The tail transaction of the milestone bundle, parsed. *)
Definition tailT2 : Transaction :=
  mkTransaction "G"%string 1000 hashTrunk hashBranch hashB false true false.

Definition sampleMetadata : TransactionMetadata :=
  mkTransactionMetadata hashT2 x53 7 hashTrunk hashBranch hashB 7.

(** The state of the pass before its first record. *)
Definition freshState : MigState :=
  mkMigState legacyMetadata (lru_New milestoneCacheSize) 0 None.

(** A pass cancelled at its third record leaves the first two records
    rewritten and the schema version unchanged; the pass of the next
    start then reads their confirmation index at the legacy offset. *)
Definition cancelledAtThird : Ctx := mkCtx (fun n => n =? 3) (fun _ _ => false).

Definition cancelledPass : KVStore * Exec (option error) :=
  migrateTangleDatabaseFunc cancelledAtThird database 2 3.

Definition restartedPass : KVStore * Exec (option error) :=
  migrateTangleDatabaseFunc neverAborted (withMetadata database (fst cancelledPass)) 2 3.

End Sample.

(* ===================================================================== *)
(** ** Further operations of the package *)
(* ===================================================================== *)

(** [store.Has(key)]; a read the engine refuses is the same failure as
    for [Get]. *)
Definition Has (s : KVStore) (k : Key) : bool + error :=
  match getFault s k with
  | Some e => inr e
  | None =>
      match lookup k (entries s) with
      | Some _ => inl true
      | None => inl false
      end
  end.

(** [WasAddressSpentFrom], on the realm [spentAddressesStore] of the
    [Database] object; [lo.PanicOnErr] turns an error of [Has] into a
    panic. *)
Definition WasAddressSpentFrom (spentAddressesStore : KVStore) (address : Hash) : Exec bool :=
  key <- optExec "slice bounds out of range" (slice address 0 HashSize) ;;
  match Has spentAddressesStore key with
  | inr _ => Panic "failed to check the spent address"
  | inl spent => Ret spent
  end.

Section TailScan.
Variable db : Database.
Variable S : Type.
(** The caller's callback with the variables it closes over as a state. *)
Variable consumer : S -> Hash -> S * bool.

(** The callback of [ForEachBundleTailTransactionHash]; its state is the
    counter [i] and the state of the caller's callback. *)
Definition visitBundleTailTransactionHash (maxFind : list Z)
    (st : Z * S) (key : Key) : (Z * S) * flow :=
  let i := fst st + 1 in
  if ((0 <? length maxFind)%nat && (hd 0 maxFind <? i))%bool
  then ((i, snd st), Stop)
  else
    match slice key 50 99 with
    | None => ((i, snd st), Unwind "slice bounds out of range")
    | Some txTailHash =>
        let (s, more) := consumer (snd st) txTailHash in
        ((i, s), if more then Continue else Stop)
    end.

(** The error of the iterator is dropped ([_ =]); the result is the state
    the caller's callback is left in. *)
Definition ForEachBundleTailTransactionHash (bundleHash : Hash) (maxFind : list Z) (s : S)
    : Exec S :=
  match IterateKeys (bundleTransactionsStore db)
          (databaseKeyPrefixForBundleHash bundleHash ++ [BundleTxIsTail])
          (visitBundleTailTransactionHash maxFind) (0, s) with
  | ((_, s), Ret _) => Ret s
  | (_, Panic m) => Panic m
  end.

(** The caller's callback run over hashes until it answers [false]. *)
Fixpoint consumeWhile (hashes : Hashes) (s : S) : S :=
  match hashes with
  | [] => s
  | h :: rest =>
      let (s', more) := consumer s h in
      if more then consumeWhile rest s' else s'
  end.
End TailScan.

(** A callback that keeps every hash it is given. *)
Definition collectHash (acc : Hashes) (h : Hash) : Hashes * bool := (acc ++ [h], true).

(** What a cap leaves of a list of matches: everything without a cap,
    the first [maxFind[0]] otherwise. *)
Definition capped {A : Type} (maxFind : list Z) (l : list A) : list A :=
  match maxFind with
  | [] => l
  | k :: _ => firstn (Z.to_nat k) l
  end.

(** The marker byte of a key of the bundle-transactions realm whose
    bundle hash has 49 bytes. *)
Definition isTailKey (key : Key) : bool :=
  match nth_error key 49 with
  | Some b => Byte.eqb BundleTxIsTail b
  | None => false
  end.

(* ===================================================================== *)
(** ** The memoized ledger index *)
(* ===================================================================== *)

(** [ledgerMilestoneIndexOnce] and the variable it guards.  A [sync.Once]
    is done after the first call of [Do], also when the function it ran
    panicked. *)
Record LedgerMemo : Type := mkLedgerMemo {
  ledgerMilestoneIndexOnce : bool;
  ledgerMilestoneIndex : Index
}.

(** The two fields as [New] sets them. *)
Definition newLedgerMemo : LedgerMemo := mkLedgerMemo false 0.

Section Ledger.
(** [ledgerMilestoneIndexKey] and [milestoneIndexFromBytes] of [ledger.go],
    which is not part of the sources at hand. *)
Variable ledgerMilestoneIndexKey : Key.
Variable milestoneIndexFromBytes : bytes -> Exec Index.
Variable ledgerStore : KVStore.

Definition LedgerIndex (memo : LedgerMemo) : LedgerMemo * Exec Index :=
  if ledgerMilestoneIndexOnce memo
  then (memo, Ret (ledgerMilestoneIndex memo))
  else
    match Get ledgerStore ledgerMilestoneIndexKey with
    | inr _ =>
        (mkLedgerMemo true (ledgerMilestoneIndex memo),
         Panic "failed to load ledger milestone index")
    | inl value =>
        match milestoneIndexFromBytes value with
        | Panic m => (mkLedgerMemo true (ledgerMilestoneIndex memo), Panic m)
        | Ret index => (mkLedgerMemo true index, Ret index)
        end
    end.

Definition SolidMilestoneIndex (memo : LedgerMemo) : LedgerMemo * Exec Index :=
  LedgerIndex memo.
End Ledger.

(** A run of calls of [LedgerIndex], each on the ledger realm as it is at
    the time of the call: the answers, in order. *)
Fixpoint ledgerIndexCalls (ledgerMilestoneIndexKey : Key)
    (milestoneIndexFromBytes : bytes -> Exec Index)
    (stores : list KVStore) (memo : LedgerMemo) : list (Exec Index) :=
  match stores with
  | [] => []
  | s :: rest =>
      let (memo', r) := LedgerIndex ledgerMilestoneIndexKey milestoneIndexFromBytes s memo in
      r :: ledgerIndexCalls ledgerMilestoneIndexKey milestoneIndexFromBytes rest memo'
  end.

(* ===================================================================== *)
(** ** Hashes and trytes (pkg/hornet) *)
(* ===================================================================== *)

(** The constants of [iota.go/consts], the [t5b1] codec, the guard and the
    transaction encoder of [iota.go] that the code below calls; they are
    kept abstract. *)
Class Trinary : Type := mkTrinary {
  HashTrinarySize : nat;
  TagTrinarySize : nat;
  HashTrytesSize : nat;
  AddressChecksumTrytesSize : nat;
  TritsPerTryte : nat;
  EncodedLen : nat -> nat;
  EncodeTrytes : Trytes -> bytes;
  DecodeToTrytes : bytes -> Trytes + error;
  IsTransactionHash : Trytes -> bool;
  TransactionToTrytes : Transaction -> Trytes + error
}.

(** [s[:n]] on a string. *)
Definition trytesTo (s : Trytes) (n : nat) : option Trytes :=
  if (n <=? String.length s)%nat then Some (substring 0 n s) else None.

Section HornetHash.
Context {T : Trinary}.

Definition hashBytesSize : nat := EncodedLen HashTrinarySize.
Definition tagBytesSize : nat := EncodedLen TagTrinarySize.

Definition hashTrytesSize : nat := HashTrytesSize.
Definition addressTrytesSize : nat := hashTrytesSize + AddressChecksumTrytesSize / TritsPerTryte.
Definition tagTrytesSize : nat := TagTrinarySize / TritsPerTryte.

Definition HashFromAddressTrytes (trytes : Trytes) : Exec Hash :=
  if (negb (String.length trytes =? hashTrytesSize)%nat
      && negb (String.length trytes =? addressTrytesSize)%nat)%bool
  then Panic "invalid address length"
  else
    t <- optExec "slice bounds out of range" (trytesTo trytes hashTrytesSize) ;;
    Ret (EncodeTrytes t).

Definition HashFromHashTrytes (trytes : Trytes) : Exec Hash :=
  if negb (String.length trytes =? hashTrytesSize)%nat
  then Panic "invalid hash length"
  else Ret (EncodeTrytes trytes).

Definition HashFromTagTrytes (trytes : Trytes) : Exec Hash :=
  if negb (String.length trytes =? tagTrytesSize)%nat
  then Panic "invalid tag length"
  else Ret (EncodeTrytes trytes).

Definition mustDecodeToTrytes (src : bytes) : Exec Trytes :=
  match DecodeToTrytes src with
  | inr _ => Panic "invalid hash bytes"
  | inl dst => Ret dst
  end.

(** [Hash.Trytes]. *)
Definition Hash_Trytes (h : Hash) : Exec Trytes :=
  if (length h =? hashBytesSize)%nat
  then
    t <- mustDecodeToTrytes h ;;
    optExec "slice bounds out of range" (trytesTo t hashTrytesSize)
  else if (length h =? tagBytesSize)%nat
  then
    t <- mustDecodeToTrytes h ;;
    optExec "slice bounds out of range" (trytesTo t tagTrytesSize)
  else Panic "invalid hash length".
End HornetHash.

(* ===================================================================== *)
(** ** Request handlers (pkg/server) *)
(* ===================================================================== *)

Definition ErrInvalidParameter : error := Errorf "invalid parameter".
Definition ErrInternalServerError : error := Errorf "internal server error".

Record transactionMetadataResponse : Type := mkTransactionMetadataResponse {
  resp_TxHash : Trytes;
  resp_Solid : bool;
  resp_Included : bool;
  resp_Confirmed : bool;
  resp_Conflicting : bool;
  resp_ReferencedByMilestoneIndex : Index;
  resp_MilestoneTimestampReferenced : Z;
  resp_MilestoneIndex : Index;
  resp_LedgerIndex : Index
}.

Record GetTrytesResponse : Type := mkGetTrytesResponse {
  resp_Trytes : list Trytes;
  resp_Milestones : list Z
}.

(** [strings.Repeat(c, n)]. *)
Fixpoint Repeat (c : Ascii.ascii) (n : nat) : string :=
  match n with
  | O => EmptyString
  | Datatypes.S n' => String c (Repeat c n')
  end.

Section Server.
Context {C : Collaborators} {T : Trinary}.
Variable db : Database.
(** The configured limit [RestAPILimitsMaxResults]. *)
Variable RestAPILimitsMaxResults : Z.
(** The ledger realm and the two names of [ledger.go] read by
    [LedgerIndex]. *)
Variable ledgerMilestoneIndexKey : Key.
Variable milestoneIndexFromBytes : bytes -> Exec Index.
Variable ledgerStore : KVStore.

(** The second loop of [rpcGetInclusionStates]. *)
Fixpoint inclusionStates (transactions : list Trytes) (states : list bool)
    : Exec (list bool) :=
  match transactions with
  | [] => Ret states
  | tx :: rest =>
      h <- HashFromHashTrytes tx ;;
      txMeta <- TxMetadataOrNil db h ;;
      match txMeta with
      | None => inclusionStates rest (states ++ [false])
      | Some txMeta =>
          let confirmed := (IsConfirmed txMeta && negb (IsConflicting txMeta))%bool in
          inclusionStates rest (states ++ [confirmed])
      end
  end.

(** [rpcGetInclusionStates] on the request as [Bind] has decoded it: the
    states of the response, or the error. *)
Definition rpcGetInclusionStates (transactions : list Trytes) : Exec (list bool + error) :=
  if existsb (fun tx => negb (IsTransactionHash tx)) transactions
  then Ret (inr (Wrapf ErrInvalidParameter "invalid reference hash provided"))
  else
    states <- inclusionStates transactions [] ;;
    Ret (inl states).

(** [transactionMetadata] on the hash [parseTransactionHashParam] has
    produced, with the memo of the ledger index before and after. *)
Definition transactionMetadata (memo : LedgerMemo) (txHash : Hash)
    : LedgerMemo * Exec transactionMetadataResponse :=
  match TxMetadataOrNil db txHash with
  | Panic m => (memo, Panic m)
  | Ret None =>
      match Hash_Trytes txHash with
      | Panic m => (memo, Panic m)
      | Ret trytes =>
          match LedgerIndex ledgerMilestoneIndexKey milestoneIndexFromBytes ledgerStore memo with
          | (memo, Panic m) => (memo, Panic m)
          | (memo, Ret ledgerIndex) =>
              (memo, Ret (mkTransactionMetadataResponse trytes false false false false
                            0 0 0 ledgerIndex))
          end
      end
  | Ret (Some txMeta) =>
      let (confirmed, at_) := ConfirmedWithIndex txMeta in
      let referencedByMilestoneIndex := if confirmed then at_ else 0 in
      match (if confirmed
             then
               r <- MilestoneTimestamp db referencedByMilestoneIndex ;;
               match r with
               | inl timestamp => Ret timestamp
               | inr _ => Ret 0
               end
             else Ret 0) with
      | Panic m => (memo, Panic m)
      | Ret milestoneTimestampReferenced =>
          let milestoneIndex := if IsMilestone txMeta then MilestoneIndex txMeta else 0 in
          match Hash_Trytes txHash with
          | Panic m => (memo, Panic m)
          | Ret trytes =>
              match LedgerIndex ledgerMilestoneIndexKey milestoneIndexFromBytes ledgerStore memo with
              | (memo, Panic m) => (memo, Panic m)
              | (memo, Ret ledgerIndex) =>
                  (memo, Ret (mkTransactionMetadataResponse trytes
                                (IsSolid txMeta)
                                (confirmed && negb (IsConflicting txMeta))
                                confirmed
                                (IsConflicting txMeta)
                                referencedByMilestoneIndex
                                milestoneTimestampReferenced
                                milestoneIndex
                                ledgerIndex))
              end
          end
      end
  end.

(** The second loop of [rpcGetTrytes]: the two lists of the response, or
    the error it returns early with. *)
Fixpoint getTrytes (hashes : list Trytes) (trytes : list Trytes) (milestones : list Z)
    : Exec (GetTrytesResponse + error) :=
  match hashes with
  | [] => Ret (inl (mkGetTrytesResponse trytes milestones))
  | hash :: rest =>
      h <- HashFromHashTrytes hash ;;
      tx <- TransactionOrNil db h ;;
      match tx with
      | None =>
          getTrytes rest (trytes ++ [Repeat (Ascii.ascii_of_byte "9"%byte) 2673]) (milestones ++ [uint32 0])
      | Some tx =>
          match TransactionToTrytes tx with
          | inr _ => Ret (inr (Wrapf ErrInternalServerError "transaction to trytes"))
          | inl txTrytes =>
              let trytes := trytes ++ [txTrytes] in
              h <- HashFromHashTrytes hash ;;
              txMetadata <- TxMetadataOrNil db h ;;
              match txMetadata with
              | None => Ret (inr (Wrapf ErrInternalServerError "metadata not found for hash"))
              | Some txMetadata =>
                  let milestone := snd (ConfirmedWithIndex txMetadata) in
                  getTrytes rest trytes (milestones ++ [uint32 milestone])
              end
          end
      end
  end.

(** [rpcGetTrytes] on the request as [Bind] has decoded it. *)
Definition rpcGetTrytes (hashes : list Trytes) : Exec (GetTrytesResponse + error) :=
  let maxResults := RestAPILimitsMaxResults in
  if maxResults <? Z.of_nat (length hashes)
  then Ret (inr (Wrapf ErrInvalidParameter "too many hashes"))
  else if existsb (fun hash => negb (IsTransactionHash hash)) hashes
  then Ret (inr (Wrapf ErrInvalidParameter "invalid hash provided"))
  else getTrytes hashes [] [].
End Server.

(* ===================================================================== *)
(** ** Vocabulary of the further properties *)
(* ===================================================================== *)

(** An entry of the metadata realm after a pass, against the entry that
    was there before: the same key, and the same record or a record of
    the version 3 size. *)
Definition keptOrRewritten (old new : Key * Value) : Prop :=
  fst new = fst old /\
  (snd new = snd old \/ length (snd new) = TransactionMetadataSize).

Section ServerVocabulary.
Context {C : Collaborators} {T : Trinary}.
Variable db : Database.

(** The inclusion state of one requested hash. *)
Definition inclusionState (tx : Trytes) (state : bool) : Prop :=
  exists h, HashFromHashTrytes tx = Ret h /\
    ((TxMetadataOrNil db h = Ret None /\ state = false) \/
     (exists m, TxMetadataOrNil db h = Ret (Some m) /\
                state = (IsConfirmed m && negb (IsConflicting m))%bool)).

(** The trytes and the milestone reported for one hash. *)
Definition trytesEntryOf (h : Hash) (entry : Trytes * Z) : Prop :=
  (TransactionOrNil db h = Ret None /\
   fst entry = Repeat (Ascii.ascii_of_byte "9"%byte) 2673 /\ snd entry = 0) \/
  (exists tx m,
      TransactionOrNil db h = Ret (Some tx) /\
      TransactionToTrytes tx = inl (fst entry) /\
      TxMetadataOrNil db h = Ret (Some m) /\
      snd entry = uint32 (confirmationIndex m)).

Definition trytesEntry (hash : Trytes) (entry : Trytes * Z) : Prop :=
  exists h, HashFromHashTrytes hash = Ret h /\ trytesEntryOf h entry.
End ServerVocabulary.

(* ===================================================================== *)
(** ** Further data to run the operations on *)
(* ===================================================================== *)

Module Scenarios.

(** A context found cancelled at the first tail key of every bundle scan,
    and never between two records of the pass. *)
Definition cancelledInScan : Ctx := mkCtx (fun _ => false) (fun _ c => c =? 1).

(** A spent-addresses realm with one address. *)
Definition spentAddresses : KVStore := Sample.store [ (Sample.hashT1, []) ].

(** A stand-in for the trinary codec: 243 trits and 81 trytes for a hash,
    81 trits for a tag, 9 for [AddressChecksumTrytesSize] and 3 trits per
    tryte; trytes stored as their ASCII bytes (81 bytes for a hash), the
    guard as a check of the length, and the obsolete tag as the trytes of
    a transaction. *)
#[export] Instance trinary : Trinary :=
  mkTrinary 243 81 81 9 3 (fun n => (n / 3)%nat)
    list_byte_of_string (fun b => inl (string_of_list_byte b))
    (fun t => (String.length t =? 81)%nat)
    (fun tx => inl (txObsoleteTag tx)).

Definition trytesA : Trytes := Repeat (Ascii.ascii_of_byte "A"%byte) 81.
Definition trytesB : Trytes := Repeat (Ascii.ascii_of_byte "B"%byte) 81.
Definition trytesC : Trytes := Repeat (Ascii.ascii_of_byte "C"%byte) 81.
Definition trytesD : Trytes := Repeat (Ascii.ascii_of_byte "D"%byte) 81.

(** Trytes of the length [addressTrytesSize] has here, and the same hash
    followed by nine further trytes. *)
Definition addressA : Trytes := (trytesA ++ "XYZ")%string.

Definition addressA90 : Trytes := (trytesA ++ "ABCDEFGHI")%string.

Definition keyA : Hash := list_byte_of_string trytesA.
Definition keyB : Hash := list_byte_of_string trytesB.
Definition keyC : Hash := list_byte_of_string trytesC.

(** A is solid and confirmed by milestone 7; B is confirmed and
    conflicting; C has a payload and no metadata; D is unknown. *)
Definition metadataA : TransactionMetadata :=
  mkTransactionMetadata keyA x03 7 Sample.hashTrunk Sample.hashBranch Sample.hashB 0.

Definition metadataB : TransactionMetadata :=
  mkTransactionMetadata keyB x07 7 Sample.hashTrunk Sample.hashBranch Sample.hashB 0.

Definition requestMetadata : KVStore :=
  Sample.store [ (keyA, Marshal metadataA); (keyB, Marshal metadataB) ].

Definition requestTransactions : KVStore :=
  Sample.store
    [ (Sample.hashT2,
       Sample.encodeTransaction "G" 1000 x02 Sample.hashTrunk Sample.hashBranch Sample.hashB);
      (keyA,
       Sample.encodeTransaction "A" 900 x00 Sample.hashTrunk Sample.hashBranch Sample.hashB);
      (keyB,
       Sample.encodeTransaction "B" 900 x00 Sample.hashTrunk Sample.hashBranch Sample.hashB);
      (keyC,
       Sample.encodeTransaction "C" 900 x00 Sample.hashTrunk Sample.hashBranch Sample.hashB) ].

Definition requestDatabase : Database :=
  mkDatabase requestTransactions requestMetadata (Sample.store []) (Sample.store [])
    Sample.milestones.

(** The ledger realm with ledger index 9 under the key ["l"]. *)
Definition ledgerKey : Key := [ "l"%byte ].

Definition indexFromBytes (b : bytes) : Exec Index :=
  optExec "index out of range" (Uint32 b).

Definition ledger : KVStore := Sample.store [ (ledgerKey, PutUint32 9) ].

End Scenarios.

(* ===================================================================== *)
(** * Properties *)
(* ===================================================================== *)

Ltac destruct_match_in H :=
  match type of H with
  | context [match ?c with _ => _ end] =>
      lazymatch c with
      | context [match _ with _ => _ end] => fail
      | _ => destruct c eqn:?
      end
  end.

Ltac rw_iterate E :=
  let T := type of E in
  lazymatch T with
  | _ = ?rhs =>
      match goal with
      | |- context [iterate ?f ?l ?s] =>
          replace (iterate f l s) with rhs by (symmetry; exact E)
      end
  end.

Ltac rw_iterate_in E H :=
  let T := type of E in
  lazymatch T with
  | _ = ?rhs =>
      match type of H with
      | context [iterate ?f ?l ?s] =>
          replace (iterate f l s) with rhs in H by (symmetry; exact E)
      end
  end.

(* ===================================================================== *)
(** ** Bytes and the little-endian codec *)
(* ===================================================================== *)

Lemma byte_to_Z_range (b : byte) : 0 <= byte_to_Z b < 256.
Proof.
  unfold byte_to_Z. pose proof (Byte.to_N_bounded b). lia.
Qed.

Lemma byte_of_to_Z (b : byte) : byte_of_Z (byte_to_Z b) = b.
Proof.
  unfold byte_of_Z, byte_to_Z.
  pose proof (Byte.to_N_bounded b).
  rewrite Z.mod_small by lia.
  rewrite N2Z.id, Byte.of_to_N. reflexivity.
Qed.

Lemma byte_to_of_Z (z : Z) : byte_to_Z (byte_of_Z z) = z mod 256.
Proof.
  unfold byte_of_Z, byte_to_Z.
  pose proof (Z.mod_pos_bound z 256 ltac:(lia)) as Hr.
  destruct (Byte.of_N (Z.to_N (z mod 256))) eqn:E.
  - apply Byte.to_of_N in E. rewrite E. lia.
  - apply Byte.of_N_None_iff in E. lia.
Qed.

Lemma byte_of_Z_mod (z : Z) : byte_of_Z (z mod 256) = byte_of_Z z.
Proof. unfold byte_of_Z. rewrite Z.mod_mod by lia. reflexivity. Qed.

Lemma land_low_shiftl (x r k : Z) :
  0 <= k -> 0 <= x < 2 ^ k -> Z.land x (Z.shiftl r k) = 0.
Proof.
  intros Hk Hx. apply Z.bits_inj'. intros n Hn.
  rewrite Z.land_spec, Z.bits_0.
  destruct (Z.ltb_spec n k) as [Hlt|Hge].
  - rewrite Z.shiftl_spec_low by assumption. apply andb_false_r.
  - replace (Z.testbit x n) with false; [reflexivity|].
    symmetry. destruct (Z.eq_dec x 0) as [->|Hnz]; [apply Z.bits_0|].
    apply Z.bits_above_log2; [lia|].
    assert (0 < x) as Hpos by lia.
    pose proof (proj1 (Z.log2_lt_pow2 x k Hpos) (proj2 Hx)). lia.
Qed.

Lemma lor_shiftl_add (x r k : Z) :
  0 <= k -> 0 <= x < 2 ^ k -> Z.lor x (Z.shiftl r k) = x + r * 2 ^ k.
Proof.
  intros Hk Hx.
  pose proof (Z.add_lor_land x (Z.shiftl r k)) as H.
  rewrite land_low_shiftl in H by assumption.
  rewrite Z.shiftl_mul_pow2 in H |- * by assumption. lia.
Qed.

Lemma Uint32_value (b0 b1 b2 b3 : byte) (r : bytes) :
  Uint32 (b0 :: b1 :: b2 :: b3 :: r) =
  Some (byte_to_Z b0 + 256 * byte_to_Z b1 + 65536 * byte_to_Z b2 + 16777216 * byte_to_Z b3).
Proof.
  unfold Uint32. f_equal.
  pose proof (byte_to_Z_range b0). pose proof (byte_to_Z_range b1).
  pose proof (byte_to_Z_range b2). pose proof (byte_to_Z_range b3).
  replace (Z.shiftl (byte_to_Z b2) 16) with (Z.shiftl (Z.shiftl (byte_to_Z b2) 8) 8)
    by (rewrite Z.shiftl_shiftl by lia; reflexivity).
  replace (Z.shiftl (byte_to_Z b3) 24) with (Z.shiftl (Z.shiftl (Z.shiftl (byte_to_Z b3) 8) 8) 8)
    by (rewrite !Z.shiftl_shiftl by lia; reflexivity).
  rewrite <- !Z.shiftl_lor.
  rewrite (lor_shiftl_add (byte_to_Z b2)). 2: lia. 2: (change (2 ^ 8) with 256; lia).
  rewrite (lor_shiftl_add (byte_to_Z b1)). 2: lia. 2: (change (2 ^ 8) with 256; lia).
  rewrite (lor_shiftl_add (byte_to_Z b0)). 2: lia. 2: (change (2 ^ 8) with 256; lia).
  change (2 ^ 8) with 256. lia.
Qed.

Lemma Uint32_range (b : bytes) (v : Z) : Uint32 b = Some v -> 0 <= v < 2 ^ 32.
Proof.
  destruct b as [|b0 [|b1 [|b2 [|b3 r]]]]; try discriminate.
  rewrite Uint32_value. intros E.
  assert (v = byte_to_Z b0 + 256 * byte_to_Z b1 + 65536 * byte_to_Z b2 + 16777216 * byte_to_Z b3)
    as -> by congruence. clear E.
  pose proof (byte_to_Z_range b0). pose proof (byte_to_Z_range b1).
  pose proof (byte_to_Z_range b2). pose proof (byte_to_Z_range b3).
  change (2 ^ 32) with 4294967296. lia.
Qed.

Lemma byte_of_Z_eq (z : Z) (b : byte) : z mod 256 = byte_to_Z b -> byte_of_Z z = b.
Proof. intros H. rewrite <- byte_of_Z_mod, H. apply byte_of_to_Z. Qed.

Lemma PutUint32_Uint32 (b0 b1 b2 b3 : byte) (r : bytes) (v : Z) :
  Uint32 (b0 :: b1 :: b2 :: b3 :: r) = Some v -> PutUint32 (uint32 v) = [b0; b1; b2; b3].
Proof.
  rewrite Uint32_value. intros E.
  assert (v = byte_to_Z b0 + 256 * byte_to_Z b1 + 65536 * byte_to_Z b2 + 16777216 * byte_to_Z b3)
    as -> by congruence. clear E.
  pose proof (byte_to_Z_range b0). pose proof (byte_to_Z_range b1).
  pose proof (byte_to_Z_range b2). pose proof (byte_to_Z_range b3).
  unfold uint32. rewrite Z.mod_small by (change (2 ^ 32) with 4294967296; lia).
  unfold PutUint32. rewrite !Z.shiftr_div_pow2 by lia.
  change (2 ^ 8) with 256. change (2 ^ 16) with 65536. change (2 ^ 24) with 16777216.
  repeat f_equal; apply byte_of_Z_eq; Z.div_mod_to_equations; lia.
Qed.

Lemma Uint32_PutUint32 (v : Z) : Uint32 (PutUint32 v) = Some (uint32 v).
Proof.
  unfold PutUint32. rewrite Uint32_value, !byte_to_of_Z.
  rewrite !Z.shiftr_div_pow2 by lia. unfold uint32.
  change (2 ^ 8) with 256. change (2 ^ 16) with 65536. change (2 ^ 24) with 16777216.
  change (2 ^ 32) with 4294967296.
  f_equal. Z.div_mod_to_equations. lia.
Qed.

(* ===================================================================== *)
(** ** Keys, their order and the store *)
(* ===================================================================== *)

Lemma bytes_eqb_eq (a b : bytes) : bytes_eqb a b = true <-> a = b.
Proof.
  revert b. induction a as [|x a IH]; intros [|y b]; simpl; split; intro H;
    try reflexivity; try discriminate.
  - apply andb_true_iff in H. destruct H as [H1 H2].
    apply Byte.byte_dec_bl in H1. apply IH in H2. subst. reflexivity.
  - inversion H; subst. apply andb_true_iff. split.
    + apply Byte.byte_dec_lb. reflexivity.
    + apply IH. reflexivity.
Qed.

Lemma bytes_eqb_refl (a : bytes) : bytes_eqb a a = true.
Proof. apply bytes_eqb_eq. reflexivity. Qed.

Lemma to_N_inj (x y : byte) : Byte.to_N x = Byte.to_N y -> x = y.
Proof.
  intros H. pose proof (Byte.of_to_N x) as Hx. rewrite H, Byte.of_to_N in Hx. congruence.
Qed.

Lemma bytes_compare_eq (a b : bytes) : bytes_compare a b = Eq <-> a = b.
Proof.
  revert b. induction a as [|x a IH]; intros [|y b]; simpl; split; intro H;
    try reflexivity; try discriminate.
  - destruct (N.compare_spec (Byte.to_N x) (Byte.to_N y)) as [E|E|E]; try discriminate.
    apply to_N_inj in E. apply IH in H. congruence.
  - inversion H; subst. rewrite N.compare_refl. apply IH. reflexivity.
Qed.

Lemma bytes_compare_refl (a : bytes) : bytes_compare a a = Eq.
Proof. apply bytes_compare_eq. reflexivity. Qed.

Lemma bytes_compare_antisym (a b : bytes) : bytes_compare b a = CompOpp (bytes_compare a b).
Proof.
  revert b. induction a as [|x a IH]; intros [|y b]; simpl; try reflexivity.
  rewrite (N.compare_antisym (Byte.to_N x) (Byte.to_N y)).
  destruct (N.compare (Byte.to_N x) (Byte.to_N y)); simpl; auto.
Qed.

Lemma bytes_compare_trans (a b c : bytes) :
  bytes_compare a b = Lt -> bytes_compare b c = Lt -> bytes_compare a c = Lt.
Proof.
  revert b c. induction a as [|x a IH]; intros [|y b] [|z c]; simpl; try discriminate;
    try reflexivity.
  destruct (N.compare_spec (Byte.to_N x) (Byte.to_N y)) as [E1|E1|E1];
    destruct (N.compare_spec (Byte.to_N y) (Byte.to_N z)) as [E2|E2|E2];
    try discriminate; intros H1 H2.
  - rewrite E1, E2, N.compare_refl. eapply IH; eassumption.
  - rewrite E1. apply N.compare_lt_iff in E2. rewrite E2. reflexivity.
  - rewrite <- E2. apply N.compare_lt_iff in E1. rewrite E1. reflexivity.
  - assert (E : (Byte.to_N x < Byte.to_N z)%N) by lia.
    apply N.compare_lt_iff in E. rewrite E. reflexivity.
Qed.

Lemma keysSortedb_tail (a : Key * Value) (l : list (Key * Value)) :
  keysSortedb (a :: l) = true -> keysSortedb l = true.
Proof.
  destruct l as [|b l]; [reflexivity|]. simpl. intros H.
  apply andb_true_iff in H. apply H.
Qed.

Lemma keysSortedb_head_lt (a : Key * Value) (l : list (Key * Value)) (b : Key * Value) :
  keysSortedb (a :: l) = true -> In b l -> bytes_compare (fst a) (fst b) = Lt.
Proof.
  revert a. induction l as [|c l IH]; intros a Hs Hin; [destruct Hin|].
  cbn [keysSortedb] in Hs. apply andb_true_iff in Hs. destruct Hs as [Hac Hs].
  assert (Hlt : bytes_compare (fst a) (fst c) = Lt)
    by (destruct (bytes_compare (fst a) (fst c)); try discriminate; reflexivity).
  destruct Hin as [->|Hin]; [assumption|].
  eapply bytes_compare_trans; [exact Hlt|]. apply IH; assumption.
Qed.

Lemma put_replace (k : Key) (v v0 : Value) (l1 l2 : list (Key * Value)) :
  keysSortedb (l1 ++ (k, v0) :: l2) = true ->
  put k v (l1 ++ (k, v0) :: l2) = l1 ++ (k, v) :: l2.
Proof.
  induction l1 as [|[k' v'] l1 IH]; intros Hs.
  - simpl. rewrite bytes_compare_refl. reflexivity.
  - cbn [app put].
    assert (Hlt : bytes_compare k' k = Lt).
    { apply (keysSortedb_head_lt (k', v') (l1 ++ (k, v0) :: l2) (k, v0) Hs).
      apply in_or_app. right. left. reflexivity. }
    rewrite (bytes_compare_antisym k' k), Hlt. cbn [CompOpp].
    f_equal. apply IH. eapply keysSortedb_tail. exact Hs.
Qed.

Lemma keysSortedb_keys (l l' : list (Key * Value)) :
  map fst l = map fst l' -> keysSortedb l = keysSortedb l'.
Proof.
  revert l'. induction l as [|a l IH]; intros [|a' l'] H; try discriminate; [reflexivity|].
  simpl in H. injection H as Ha Hl.
  specialize (IH l' Hl). cbn [keysSortedb].
  destruct l as [|b l], l' as [|b' l']; try discriminate; [reflexivity|].
  simpl in Hl. injection Hl as Hb _. rewrite Ha, Hb, IH. reflexivity.
Qed.

Lemma keysSortedb_replace (k : Key) (v v0 : Value) (l1 l2 : list (Key * Value)) :
  keysSortedb (l1 ++ (k, v0) :: l2) = keysSortedb (l1 ++ (k, v) :: l2).
Proof.
  apply keysSortedb_keys. rewrite !map_app. reflexivity.
Qed.

Lemma lookup_put_same (k : Key) (v : Value) (l : list (Key * Value)) :
  lookup k (put k v l) = Some v.
Proof.
  induction l as [|[k' v'] l IH]; simpl.
  - rewrite bytes_eqb_refl. reflexivity.
  - destruct (bytes_compare k k') eqn:E; simpl.
    + rewrite bytes_eqb_refl. reflexivity.
    + rewrite bytes_eqb_refl. reflexivity.
    + destruct (bytes_eqb k k') eqn:E'; [|exact IH].
      apply bytes_eqb_eq in E'. subst. rewrite bytes_compare_refl in E. discriminate.
Qed.

(* ===================================================================== *)
(** ** The bit mask *)
(* ===================================================================== *)

Lemma allBytes_complete (b : byte) : In b allBytes.
Proof.
  unfold allBytes. apply in_map_iff.
  exists (Z.to_nat (byte_to_Z b)). pose proof (byte_to_Z_range b). split.
  - rewrite Z2Nat.id by lia. apply byte_of_to_Z.
  - apply in_seq. lia.
Qed.

Lemma byte_forall (P : byte -> bool) : forallb P allBytes = true -> forall b, P b = true.
Proof.
  intros H b. rewrite forallb_forall in H. apply H, allBytes_complete.
Qed.

Lemma bool_forall (P : bool -> bool) : forallb P bools = true -> forall b, P b = true.
Proof. simpl. intros H [|]; destruct (P true), (P false); try discriminate; reflexivity. Qed.

Lemma migrationMask_bits (b : BitMask) (h t v ms : bool) :
  let m := migrationMask b h t v ms in
  HasBit m TransactionMetadataIsHead = h /\
  HasBit m TransactionMetadataIsTail = t /\
  HasBit m TransactionMetadataIsValue = v /\
  HasBit m TransactionMetadataIsMilestone = ms /\
  HasBit m TransactionMetadataSolid = HasBit b TransactionMetadataSolid /\
  HasBit m TransactionMetadataConfirmed = HasBit b TransactionMetadataConfirmed /\
  HasBit m TransactionMetadataConflicting = HasBit b TransactionMetadataConflicting.
Proof.
  set (P := fun b => forallb (fun h => forallb (fun t => forallb (fun v => forallb (fun ms =>
    let m := migrationMask b h t v ms in
    Bool.eqb (HasBit m TransactionMetadataIsHead) h &&
    Bool.eqb (HasBit m TransactionMetadataIsTail) t &&
    Bool.eqb (HasBit m TransactionMetadataIsValue) v &&
    Bool.eqb (HasBit m TransactionMetadataIsMilestone) ms &&
    Bool.eqb (HasBit m TransactionMetadataSolid) (HasBit b TransactionMetadataSolid) &&
    Bool.eqb (HasBit m TransactionMetadataConfirmed) (HasBit b TransactionMetadataConfirmed) &&
    Bool.eqb (HasBit m TransactionMetadataConflicting) (HasBit b TransactionMetadataConflicting))
    bools) bools) bools) bools).
  assert (HP : forall b, P b = true) by (apply byte_forall; vm_compute; reflexivity).
  specialize (HP b). unfold P in HP.
  pose proof (bool_forall _ HP h) as H1. cbv beta in H1.
  pose proof (bool_forall _ H1 t) as H2. cbv beta in H2.
  pose proof (bool_forall _ H2 v) as H3. cbv beta in H3.
  pose proof (bool_forall _ H3 ms) as H4. cbv beta zeta in H4.
  repeat (apply andb_true_iff in H4; destruct H4 as [H4 ?]).
  cbv zeta. repeat split; apply Bool.eqb_prop; assumption.
Qed.

Lemma migrationMask_idem (b : BitMask) (h t v ms : bool) :
  migrationMask (migrationMask b h t v ms) h t v ms = migrationMask b h t v ms.
Proof.
  set (P := fun b => forallb (fun h => forallb (fun t => forallb (fun v => forallb (fun ms =>
    Byte.eqb (migrationMask (migrationMask b h t v ms) h t v ms) (migrationMask b h t v ms))
    bools) bools) bools) bools).
  assert (HP : forall b, P b = true) by (apply byte_forall; vm_compute; reflexivity).
  specialize (HP b). unfold P in HP.
  pose proof (bool_forall _ HP h) as H1. cbv beta in H1.
  pose proof (bool_forall _ H1 t) as H2. cbv beta in H2.
  pose proof (bool_forall _ H2 v) as H3. cbv beta in H3.
  pose proof (bool_forall _ H3 ms) as H4. cbv beta in H4.
  apply Byte.byte_dec_bl. assumption.
Qed.

(* ===================================================================== *)
(** ** The record layout *)
(* ===================================================================== *)

Lemma fitTo_length (w : nat) (src : bytes) : length (fitTo w src) = w.
Proof.
  unfold fitTo. rewrite length_app, length_firstn, repeat_length. lia.
Qed.

Lemma fitTo_exact (w : nat) (src : bytes) : length src = w -> fitTo w src = src.
Proof.
  intros H. unfold fitTo. rewrite firstn_all2 by lia.
  replace (w - length src)%nat with 0%nat by lia. apply app_nil_r.
Qed.

Lemma skipn_repeat (A : Type) (x : A) (n w : nat) : skipn n (repeat x w) = repeat x (w - n).
Proof.
  revert w. induction n as [|n IH]; intros [|w]; simpl; try reflexivity. apply IH.
Qed.

Lemma copyInto_zero_window (pre post src : bytes) (w lo hi : nat) :
  lo = length pre -> hi = (lo + w)%nat ->
  copyInto (pre ++ repeat x00 w ++ post) lo hi src = pre ++ fitTo w src ++ post.
Proof.
  intros -> ->. unfold copyInto, fitTo.
  replace (length pre + w - length pre)%nat with w by lia.
  rewrite firstn_app, firstn_all, Nat.sub_diag, firstn_O, app_nil_r.
  f_equal. rewrite <- app_assoc.
  rewrite skipn_app, skipn_all2 by lia. simpl.
  replace (length pre + Nat.min w (length src) - length pre)%nat with (Nat.min w (length src)) by lia.
  rewrite skipn_app, skipn_repeat, repeat_length.
  destruct (Nat.le_ge_cases w (length src)) as [Hle|Hge].
  - rewrite Nat.min_l by assumption.
    replace (w - length src)%nat with 0%nat by lia.
    rewrite Nat.sub_diag. simpl. reflexivity.
  - rewrite Nat.min_r by assumption.
    replace (length src - w)%nat with 0%nat by lia. simpl.
    rewrite !firstn_all2 by lia. reflexivity.
Qed.

Lemma slice_window (pre win post : bytes) (lo hi : nat) :
  lo = length pre -> hi = (lo + length win)%nat ->
  slice (pre ++ win ++ post) lo hi = Some win.
Proof.
  intros -> ->. unfold slice.
  replace ((length pre <=? length pre + length win)%nat) with true
    by (symmetry; apply Nat.leb_le; lia).
  replace ((length pre + length win <=? length (pre ++ win ++ post))%nat) with true
    by (symmetry; apply Nat.leb_le; rewrite !length_app; lia).
  simpl. f_equal.
  rewrite skipn_app, skipn_all, Nat.sub_diag. simpl.
  replace (length pre + length win - length pre)%nat with (length win) by lia.
  rewrite firstn_app, firstn_all, Nat.sub_diag. simpl. apply app_nil_r.
Qed.

Lemma PutUint32_length (v : Z) : length (PutUint32 v) = 4%nat.
Proof. reflexivity. Qed.

Lemma Marshal_layout (m : TransactionMetadata) :
  Marshal m =
  [metadata m] ++ PutUint32 (uint32 (confirmationIndex m)) ++ fitTo 49 (trunkHash m)
    ++ fitTo 49 (branchHash m) ++ fitTo 49 (bundleHash m)
    ++ PutUint32 (uint32 (milestoneIndex m)).
Proof.
  unfold Marshal. cbv zeta.
  change (repeat x00 TransactionMetadataSize)
    with ([] ++ repeat x00 1 ++ (repeat x00 4 ++ repeat x00 49 ++ repeat x00 49
             ++ repeat x00 49 ++ repeat x00 4 ++ [])).
  rewrite (copyInto_zero_window [] _ [metadata m] 1 0 1) by reflexivity.
  change (fitTo 1 [metadata m]) with [metadata m].
  set (md := [metadata m]).
  set (ci := PutUint32 (uint32 (confirmationIndex m))).
  set (ms := PutUint32 (uint32 (milestoneIndex m))).
  change ([] ++ md ++ ?x) with (md ++ x).
  rewrite (copyInto_zero_window md _ ci 4) by reflexivity.
  replace (fitTo 4 ci) with ci by (symmetry; apply fitTo_exact; reflexivity).
  rewrite (app_assoc md ci).
  rewrite (copyInto_zero_window (md ++ ci) _ (trunkHash m) 49) by reflexivity.
  set (t := fitTo 49 (trunkHash m)).
  rewrite (app_assoc (md ++ ci) t).
  rewrite (copyInto_zero_window ((md ++ ci) ++ t) _ (branchHash m) 49)
    by (try reflexivity; rewrite !length_app; unfold t; rewrite fitTo_length; reflexivity).
  set (b := fitTo 49 (branchHash m)).
  rewrite (app_assoc ((md ++ ci) ++ t) b).
  rewrite (copyInto_zero_window (((md ++ ci) ++ t) ++ b) _ (bundleHash m) 49)
    by (try reflexivity; rewrite !length_app; unfold t, b; rewrite !fitTo_length; reflexivity).
  set (u := fitTo 49 (bundleHash m)).
  rewrite (app_assoc (((md ++ ci) ++ t) ++ b) u).
  rewrite (copyInto_zero_window ((((md ++ ci) ++ t) ++ b) ++ u) [] ms 4).
  - replace (fitTo 4 ms) with ms by (symmetry; apply fitTo_exact; reflexivity).
    rewrite app_nil_r, <- !app_assoc. reflexivity.
  - rewrite !length_app; unfold t, b, u; rewrite !fitTo_length; reflexivity.
  - rewrite !length_app; unfold t, b, u; rewrite !fitTo_length, !repeat_length. reflexivity.
Qed.

Lemma Marshal_length (m : TransactionMetadata) : length (Marshal m) = 156%nat.
Proof.
  rewrite Marshal_layout, !length_app, !fitTo_length, !PutUint32_length. reflexivity.
Qed.

Lemma Unmarshal_fields (m0 : TransactionMetadata) (md : byte) (ci4 t b u ms4 : bytes) (ci ms : Z) :
  length ci4 = 4%nat -> length t = 49%nat -> length b = 49%nat -> length u = 49%nat ->
  Uint32 ci4 = Some ci -> Uint32 ms4 = Some ms ->
  Unmarshal m0 ([md] ++ ci4 ++ t ++ b ++ u ++ ms4) =
  Ret (mkTransactionMetadata (txHash m0) md ci t b u ms).
Proof.
  intros Hci Ht Hb Hu Eci Ems. unfold Unmarshal. cbv zeta.
  change (nth_error ([md] ++ ci4 ++ t ++ b ++ u ++ ms4) 0) with (Some md).
  cbn [optExec bindExec].
  rewrite (slice_window [md] ci4 _ 1 (1 + IndexByteSize))
    by (try reflexivity; rewrite Hci; reflexivity).
  cbn [optExec bindExec]. rewrite Eci. cbn [optExec bindExec].
  rewrite (app_assoc [md] ci4).
  rewrite (slice_window ([md] ++ ci4) t _)
    by (rewrite ?length_app, ?Hci, ?Ht; reflexivity).
  cbn [optExec bindExec].
  rewrite (app_assoc ([md] ++ ci4) t).
  rewrite (slice_window (([md] ++ ci4) ++ t) b _)
    by (rewrite ?length_app, ?Hci, ?Ht, ?Hb; reflexivity).
  cbn [optExec bindExec].
  rewrite (app_assoc (([md] ++ ci4) ++ t) b).
  rewrite (slice_window ((([md] ++ ci4) ++ t) ++ b) u _)
    by (rewrite ?length_app, ?Hci, ?Ht, ?Hb, ?Hu; reflexivity).
  cbn [optExec bindExec].
  unfold sliceFrom.
  rewrite (app_assoc ((([md] ++ ci4) ++ t) ++ b) u).
  rewrite <- (app_nil_r ms4) at 1 2.
  rewrite (slice_window (((([md] ++ ci4) ++ t) ++ b) ++ u) ms4 [])
    by (rewrite ?length_app, ?Hci, ?Ht, ?Hb, ?Hu; simpl; try reflexivity; lia).
  cbn [optExec bindExec]. rewrite Ems. reflexivity.
Qed.

Lemma Unmarshal_Marshal (m0 m : TransactionMetadata) :
  Unmarshal m0 (Marshal m) =
  Ret (mkTransactionMetadata (txHash m0) (metadata m) (uint32 (confirmationIndex m))
         (fitTo 49 (trunkHash m)) (fitTo 49 (branchHash m)) (fitTo 49 (bundleHash m))
         (uint32 (milestoneIndex m))).
Proof.
  rewrite Marshal_layout.
  apply Unmarshal_fields; try apply fitTo_length; try reflexivity.
  - rewrite Uint32_PutUint32. unfold uint32. rewrite Z.mod_mod by lia. reflexivity.
  - rewrite Uint32_PutUint32. unfold uint32. rewrite Z.mod_mod by lia. reflexivity.
Qed.

Lemma PutUint32_littleEndian4 (v : Z) : isUint32 v -> PutUint32 (uint32 v) = littleEndian4 v.
Proof.
  intros H. unfold uint32. rewrite Z.mod_small by exact H.
  unfold PutUint32, littleEndian4. rewrite !Z.shiftr_div_pow2 by lia. reflexivity.
Qed.

(** C5.  [Marshal] produces exactly 156 bytes for every metadata value,
    and for a value of the data model (32-bit indices, 49-byte hashes) the
    bytes are: the bit mask at offset 0, the confirmation index in four
    little-endian bytes at offset 1, the trunk, branch and bundle hashes
    at offsets 5, 54 and 103, and the milestone index in four
    little-endian bytes at offset 152. *)
Theorem Marshal_fixed_layout (m : TransactionMetadata) :
  length (Marshal m) = TransactionMetadataSize /\
  TransactionMetadataSize = 156%nat /\
  (validMetadata m ->
     slice (Marshal m) 0 1 = Some [metadata m] /\
     slice (Marshal m) 1 5 = Some (littleEndian4 (confirmationIndex m)) /\
     slice (Marshal m) 5 54 = Some (trunkHash m) /\
     slice (Marshal m) 54 103 = Some (branchHash m) /\
     slice (Marshal m) 103 152 = Some (bundleHash m) /\
     slice (Marshal m) 152 156 = Some (littleEndian4 (milestoneIndex m))).
Proof.
  split; [apply Marshal_length|]. split; [reflexivity|].
  intros (Hci & Hms & Ht & Hb & Hu).
  rewrite Marshal_layout.
  rewrite !fitTo_exact by assumption.
  rewrite !PutUint32_littleEndian4 by assumption.
  set (c := littleEndian4 (confirmationIndex m)).
  set (s := littleEndian4 (milestoneIndex m)).
  assert (Hc : length c = 4%nat) by reflexivity.
  assert (Hs : length s = 4%nat) by reflexivity.
  unfold HashSize in *.
  refine (conj _ (conj _ (conj _ (conj _ (conj _ _))))).
  - apply (slice_window [] [metadata m]); reflexivity.
  - apply (slice_window [metadata m] c); reflexivity.
  - rewrite (app_assoc [metadata m] c).
    apply slice_window; rewrite ?length_app, ?Hc, ?Ht; reflexivity.
  - rewrite (app_assoc [metadata m] c), (app_assoc _ (trunkHash m)).
    apply slice_window; rewrite ?length_app, ?Hc, ?Ht, ?Hb; reflexivity.
  - rewrite (app_assoc [metadata m] c), (app_assoc _ (trunkHash m)), (app_assoc _ (branchHash m)).
    apply slice_window; rewrite ?length_app, ?Hc, ?Ht, ?Hb, ?Hu; reflexivity.
  - rewrite (app_assoc [metadata m] c), (app_assoc _ (trunkHash m)), (app_assoc _ (branchHash m)),
      (app_assoc _ (bundleHash m)).
    rewrite <- (app_nil_r s) at 1.
    apply slice_window; rewrite ?length_app, ?Hc, ?Ht, ?Hb, ?Hu, ?Hs; reflexivity.
Qed.

(* ===================================================================== *)
(** ** Point lookups *)
(* ===================================================================== *)

Section FacadeProperties.
Context {C : Collaborators}.
Variable db : Database.

(** C6.  For [TxMetadataOrNil] and [MilestoneOrNil]: when the store's
    [Get] fails with key-not-found the operation returns [nil] normally;
    when it fails with any other error the operation panics. *)
Theorem point_lookups_absent_or_fatal :
  (forall (h : Hash) (e : error),
      Get (metadataStore db) h = inr e ->
      (IsKeyNotFound e = true -> TxMetadataOrNil db h = Ret None) /\
      (IsKeyNotFound e = false -> exists msg, TxMetadataOrNil db h = Panic msg)) /\
  (forall (i : Index) (e : error),
      Get (milestoneStore db) (databaseKeyForMilestoneIndex i) = inr e ->
      (IsKeyNotFound e = true -> MilestoneOrNil db i = Ret None) /\
      (IsKeyNotFound e = false -> exists msg, MilestoneOrNil db i = Panic msg)).
Proof.
  split; intros k e HGet.
  - unfold TxMetadataOrNil. rewrite HGet.
    split; intros ->; simpl; eauto.
  - unfold MilestoneOrNil. rewrite HGet.
    split; intros ->; simpl; eauto.
Qed.

Lemma databaseKeyForMilestoneIndex_eq (i : Index) :
  databaseKeyForMilestoneIndex i = PutUint32 (uint32 i).
Proof.
  unfold databaseKeyForMilestoneIndex.
  change (repeat x00 4) with ([] ++ repeat x00 4 ++ []).
  rewrite (copyInto_zero_window [] [] _ 4 0 4) by reflexivity.
  rewrite fitTo_exact by reflexivity. reflexivity.
Qed.

Lemma milestoneIndexFromDatabaseKey_key (i : Index) :
  milestoneIndexFromDatabaseKey (databaseKeyForMilestoneIndex i) = Ret (uint32 i).
Proof.
  unfold milestoneIndexFromDatabaseKey.
  rewrite databaseKeyForMilestoneIndex_eq, Uint32_PutUint32.
  unfold uint32. rewrite Z.mod_mod by lia. reflexivity.
Qed.

(** C8.  [MilestoneTimestamp] returns an error exactly when the milestone
    realm has no entry for the index or the transaction realm has no
    payload for the entry's tail hash; when both are found (and the
    payload parses) it returns the timestamp of that transaction. *)
Theorem MilestoneTimestamp_error_iff_absent (i : Index) :
  ((exists e, MilestoneTimestamp db i = Ret (inr e)) <->
   (milestoneAbsent db i \/ milestoneTailAbsent db i)) /\
  (forall data h txData tx,
      Get (milestoneStore db) (databaseKeyForMilestoneIndex i) = inl data ->
      slice data 0 HashSize = Some h ->
      Get (txStore db) h = inl txData ->
      transactionFactory h txData = inl tx ->
      MilestoneTimestamp db i = Ret (inl (txTimestamp tx))).
Proof.
  unfold MilestoneTimestamp, MilestoneOrNil, milestoneFactory, TransactionOrNil.
  rewrite milestoneIndexFromDatabaseKey_key.
  split; [split|].
  - intros [e He]. unfold milestoneAbsent, milestoneTailAbsent.
    destruct (Get (milestoneStore db) (databaseKeyForMilestoneIndex i)) as [data|e0] eqn:EG.
    + right. cbn [bindExec] in He.
      destruct (slice data 0 HashSize) as [h|] eqn:ES; cbn [optExec bindExec] in He;
        [|discriminate].
      cbn [Milestone_Hash] in He.
      destruct (Get (txStore db) h) as [txData|e1] eqn:ET.
      * destruct (transactionFactory h txData); cbn [bindExec] in He; discriminate.
      * destruct (IsKeyNotFound e1) eqn:EK; cbn [negb bindExec] in He; [|discriminate].
        exists data, h, e1. auto.
    + left. destruct (IsKeyNotFound e0) eqn:EK; cbn [negb bindExec] in He; [|discriminate].
      exists e0. auto.
  - intros [(e & HG & HK)|(data & h & e & HG & HS & HT & HK)].
    + rewrite HG, HK. cbn. eauto.
    + rewrite HG. cbn [bindExec]. rewrite HS. cbn [optExec bindExec Milestone_Hash].
      rewrite HT, HK. cbn. eauto.
  - intros data h txData tx HG HS HT HF.
    rewrite HG. cbn [bindExec]. rewrite HS. cbn [optExec bindExec Milestone_Hash].
    rewrite HT, HF. reflexivity.
Qed.
End FacadeProperties.

(* ===================================================================== *)
(** ** The version check *)
(* ===================================================================== *)

(** C7.  [supportedDatabaseVersionUpgradeFunc] returns [nil] exactly for
    the upgrade from version 2 to version 3; for every other pair it
    returns the unsupported-migration error, and the tangle migration
    then returns that error with the metadata realm untouched. *)
Theorem supported_upgrade_iff (oldVersion newVersion : Z) :
  (supportedDatabaseVersionUpgradeFunc oldVersion newVersion = None <->
   oldVersion = 2 /\ newVersion = 3) /\
  (~ (oldVersion = 2 /\ newVersion = 3) ->
   supportedDatabaseVersionUpgradeFunc oldVersion newVersion =
     Some (Errorf "unsupported database version migration") /\
   forall (C : Collaborators) (ctx : Ctx) (db : Database),
     migrateTangleDatabaseFunc ctx db oldVersion newVersion =
       (metadataStore db, Ret (Some (Errorf "unsupported database version migration")))).
Proof.
  unfold migrateTangleDatabaseFunc, supportedDatabaseVersionUpgradeFunc.
  destruct (Z.eqb_spec oldVersion 2) as [Ho|Ho], (Z.eqb_spec newVersion 3) as [Hn|Hn];
    cbn [andb negb]; repeat split; intros; try discriminate; try tauto; try reflexivity.
Qed.

(* ===================================================================== *)
(** ** The scan and the callback of the pass *)
(* ===================================================================== *)

Section ScanLemmas.
Context {C : Collaborators}.
Variable ctx : Ctx.
Variable db : Database.

Lemma tailConsumer_quiet (n : Z) (s : ScanState) (k : Key) :
  abortedAtTail ctx n (scan_counter s + 1) = false ->
  tailConsumer ctx db n s k = tailConsumer neverAborted db 0 s k.
Proof.
  intros H. unfold tailConsumer. cbn [scan_counter scan_milestoneIndex scan_innerErr].
  rewrite H. reflexivity.
Qed.

Lemma tailConsumer_innerErr_sticky (n : Z) (s s' : ScanState) (k : Key) (f : flow) :
  tailConsumer ctx db n s k = (s', f) -> scan_innerErr s <> None -> scan_innerErr s' <> None.
Proof.
  unfold tailConsumer. cbn [scan_counter scan_milestoneIndex scan_innerErr].
  intros H Hs.
  repeat match type of H with
  | (if ?c then _ else _) = _ => destruct c
  | match ?c with _ => _ end = _ => destruct c
  end;
  injection H as <- <-; cbn [scan_innerErr]; congruence.
Qed.

Lemma scan_iterate_sticky (n : Z) (l : list (Key * Value)) (s s' : ScanState) (o : option string) :
  iterate (fun st k _ => tailConsumer ctx db n st k) l s = (s', o) ->
  scan_innerErr s <> None -> scan_innerErr s' <> None.
Proof.
  revert s. induction l as [|[k v] l IH]; intros s H Hs; simpl in H.
  - injection H as <- <-. assumption.
  - destruct (tailConsumer ctx db n s k) as [s1 f] eqn:E.
    pose proof (tailConsumer_innerErr_sticky _ _ _ _ _ E Hs) as Hs1.
    destruct f.
    + eapply IH; eassumption.
    + injection H as <- <-. assumption.
    + injection H as <- <-. assumption.
Qed.

Lemma scan_iterate_quiet (n : Z) (l : list (Key * Value)) (s s' : ScanState) :
  iterate (fun st k _ => tailConsumer ctx db n st k) l s = (s', None) ->
  scan_innerErr s' = None ->
  iterate (fun st k _ => tailConsumer neverAborted db 0 st k) l s = (s', None).
Proof.
  revert s. induction l as [|[k v] l IH]; intros s H Hs'; simpl in H |- *.
  - assumption.
  - destruct (abortedAtTail ctx n (scan_counter s + 1)) eqn:EA.
    + exfalso. unfold tailConsumer in H.
      cbn [scan_counter scan_milestoneIndex scan_innerErr] in H. rewrite EA in H.
      injection H as <-. discriminate.
    + rewrite <- (tailConsumer_quiet n s k EA).
      destruct (tailConsumer ctx db n s k) as [s1 f] eqn:E.
      destruct f; [apply IH; assumption| assumption | discriminate].
Qed.

Lemma scanBundleTails_sticky (n : Z) (e : option error) (bh : Hash) (sc : ScanState)
    (r : Exec (option error)) :
  scanBundleTails ctx db n e bh = (sc, r) -> e <> None -> scan_innerErr sc <> None.
Proof.
  unfold scanBundleTails, IterateKeys, Iterate. intros H He.
  destruct (iterFault _ _).
  - injection H as <- <-. assumption.
  - destruct (iterate _ _ _) as [s' o] eqn:E.
    apply scan_iterate_sticky in E; [|assumption].
    destruct o; injection H as <- <-; assumption.
Qed.

Lemma scanBundleTails_quiet (n : Z) (bh : Hash) (sc : ScanState) :
  scanBundleTails ctx db n None bh = (sc, Ret None) ->
  scan_innerErr sc = None ->
  scanBundleTails neverAborted db 0 None bh = (sc, Ret None).
Proof.
  unfold scanBundleTails, IterateKeys, Iterate. intros H Hs.
  destruct (iterFault _ _); [discriminate|].
  destruct (iterate _ _ _) as [s' o] eqn:E.
  destruct o; [discriminate|]. injection H as <-.
  rewrite (scan_iterate_quiet _ _ _ _ E Hs). reflexivity.
Qed.
End ScanLemmas.

Section ConsumerLemmas.
Context {C : Collaborators}.
Variable ctx : Ctx.
Variable db : Database.

Lemma resolve_store (st st1 : MigState) (tx : Transaction) (mck : Key) (ms : Index) :
  resolveMilestoneIndex ctx db st tx mck = inl (st1, ms) ->
  mig_store st1 = mig_store st /\ mig_counter st1 = mig_counter st.
Proof.
  unfold resolveMilestoneIndex. intros H.
  repeat destruct_match_in H; try discriminate; injection H as <- <-; auto.
Qed.

Lemma resolve_sticky (st st1 : MigState) (tx : Transaction) (mck : Key) (ms : Index) :
  resolveMilestoneIndex ctx db st tx mck = inl (st1, ms) ->
  mig_innerErr st <> None -> mig_innerErr st1 <> None.
Proof.
  unfold resolveMilestoneIndex. intros H Hs.
  destruct (lru_Get (mig_cache st) mck) as [[i|] c].
  - injection H as <- <-. assumption.
  - destruct (scanBundleTails ctx db (mig_counter st) (mig_innerErr st) (txBundleHash tx))
      as [sc r] eqn:E.
    apply scanBundleTails_sticky in E; [|assumption].
    destruct r as [[e|]|m]; try discriminate. injection H as <- <-. assumption.
Qed.

Lemma resolve_early (st st1 : MigState) (tx : Transaction) (mck : Key) (f : flow) :
  resolveMilestoneIndex ctx db st tx mck = inr (st1, f) ->
  mig_store st1 = mig_store st /\ f <> Continue /\ (f = Stop -> mig_innerErr st1 <> None).
Proof.
  unfold resolveMilestoneIndex. intros H.
  repeat destruct_match_in H; try discriminate; injection H as <- <-;
    cbn [mig_store mig_innerErr]; repeat split; congruence.
Qed.

Lemma resolve_quiet (st st1 : MigState) (tx : Transaction) (mck : Key) (ms : Index) :
  resolveMilestoneIndex ctx db st tx mck = inl (st1, ms) ->
  mig_innerErr st1 = None ->
  mig_innerErr st = None /\ resolveQuietly db (mig_cache st) tx mck = Some (mig_cache st1, ms).
Proof.
  intros H Hs.
  assert (H0 : mig_innerErr st = None).
  { destruct (mig_innerErr st) eqn:E; [|reflexivity].
    exfalso. apply (resolve_sticky _ _ _ _ _ H); congruence. }
  split; [assumption|].
  unfold resolveMilestoneIndex in H. unfold resolveQuietly, resolvedIndex.
  destruct (lru_Get (mig_cache st) mck) as [[i|] c].
  - injection H as <- <-. reflexivity.
  - rewrite H0 in H.
    destruct (scanBundleTails ctx db (mig_counter st) None (txBundleHash tx)) as [sc r] eqn:E.
    destruct r as [[e|]|m]; try discriminate. injection H as <- <-.
    cbn [mig_innerErr mig_cache] in *.
    rewrite (scanBundleTails_quiet _ _ _ _ _ E Hs), Hs. reflexivity.
Qed.

Lemma migrateConsumer_continue (st st' : MigState) (key : Key) (data : Value) :
  migrateConsumer ctx db st key data = (st', Continue) ->
  exists h legacyMask ciBytes ci txData tx mck st1 ms,
    slice key 0 HashSize = Some h /\
    nth_error data 0 = Some legacyMask /\
    sliceFrom data (1 + IndexByteSize) = Some ciBytes /\
    Uint32 ciBytes = Some ci /\
    Get (txStore db) h = inl txData /\
    transactionFactory h txData = inl tx /\
    slice (txBundleHash tx) 0 49 = Some mck /\
    resolveMilestoneIndex ctx db
      (mkMigState (mig_store st) (mig_cache st) (mig_counter st + 1) (mig_innerErr st))
      tx mck = inl (st1, ms) /\
    Set_ (mig_store st) key (Marshal (migratedMetadata h legacyMask ci tx ms))
      = inl (mig_store st') /\
    mig_cache st' = mig_cache st1 /\ mig_innerErr st' = mig_innerErr st1 /\
    mig_counter st' = mig_counter st + 1.
Proof.
  unfold migrateConsumer. intros H. cbn [mig_store mig_cache mig_counter mig_innerErr] in H.
  destruct (slice key 0 HashSize) as [h|] eqn:E1; [|discriminate].
  destruct (abortedAt ctx (mig_counter st + 1)); [discriminate|].
  destruct (nth_error data 0) as [legacyMask|] eqn:E2; [|discriminate].
  destruct (sliceFrom data (1 + IndexByteSize)) as [ciBytes|] eqn:E3; [|discriminate].
  destruct (Uint32 ciBytes) as [ci|] eqn:E4; [|discriminate].
  destruct (Get (txStore db) h) as [txData|e] eqn:E5;
    [|destruct (negb (IsKeyNotFound e)); discriminate].
  destruct (transactionFactory h txData) as [tx|e] eqn:E6; [|discriminate].
  destruct (slice (txBundleHash tx) 0 49) as [mck|] eqn:E7; [|discriminate].
  destruct (resolveMilestoneIndex ctx db _ tx mck) as [[st1 ms]|[st1 f]] eqn:ER.
  - pose proof (resolve_store _ _ _ _ _ ER) as [Hst Hcn]. cbn [mig_store mig_counter] in Hst, Hcn.
    destruct (Set_ (mig_store st1) key _) as [store|e] eqn:ES; [|discriminate].
    injection H as <-. cbn [mig_store mig_cache mig_innerErr mig_counter].
    exists h, legacyMask, ciBytes, ci, txData, tx, mck, st1, ms.
    rewrite Hst in ES. repeat split; auto.
  - apply resolve_early in ER. destruct ER as (_ & Hf & _).
    injection H as _ ->. congruence.
Qed.

Lemma migrateConsumer_stop (st st' : MigState) (key : Key) (data : Value) :
  migrateConsumer ctx db st key data = (st', Stop) -> mig_innerErr st' <> None.
Proof.
  unfold migrateConsumer. intros H. cbn [mig_store mig_cache mig_counter mig_innerErr] in H.
  destruct (slice key 0 HashSize) as [h|]; [|discriminate].
  destruct (abortedAt ctx (mig_counter st + 1)); [injection H as <-; discriminate|].
  destruct (nth_error data 0) as [legacyMask|]; [|discriminate].
  destruct (sliceFrom data (1 + IndexByteSize)) as [ciBytes|]; [|discriminate].
  destruct (Uint32 ciBytes) as [ci|]; [|discriminate].
  destruct (Get (txStore db) h) as [txData|e];
    [|destruct (negb (IsKeyNotFound e)); injection H as <-; discriminate].
  destruct (transactionFactory h txData) as [tx|e]; [|injection H as <-; discriminate].
  destruct (slice (txBundleHash tx) 0 49) as [mck|]; [|discriminate].
  destruct (resolveMilestoneIndex ctx db _ tx mck) as [[st1 ms]|[st1 f]] eqn:ER.
  - destruct (Set_ (mig_store st1) key _) as [store|e] eqn:ES; [discriminate|].
    injection H as <-. discriminate.
  - apply resolve_early in ER. destruct ER as (_ & _ & Hf).
    injection H as <- ->. auto.
Qed.

Lemma migrateConsumer_sticky (st st' : MigState) (key : Key) (data : Value) (f : flow) :
  migrateConsumer ctx db st key data = (st', f) ->
  mig_innerErr st <> None -> mig_innerErr st' <> None.
Proof.
  intros H Hs. destruct f.
  - apply migrateConsumer_continue in H.
    destruct H as (h & lm & cb & ci & td & tx & mck & st1 & ms & _ & _ & _ & _ & _ & _ & _
                   & ER & _ & _ & HE & _).
    rewrite HE. apply (resolve_sticky _ _ _ _ _ ER). assumption.
  - eapply migrateConsumer_stop; eassumption.
  - revert H. unfold migrateConsumer. cbn [mig_store mig_cache mig_counter mig_innerErr].
    intros H.
    destruct (slice key 0 HashSize) as [h|]; [|injection H as <-; assumption].
    destruct (abortedAt ctx (mig_counter st + 1)); [discriminate|].
    destruct (nth_error data 0) as [legacyMask|]; [|injection H as <-; assumption].
    destruct (sliceFrom data (1 + IndexByteSize)) as [ciBytes|]; [|injection H as <-; assumption].
    destruct (Uint32 ciBytes) as [ci|]; [|injection H as <-; assumption].
    destruct (Get (txStore db) h) as [txData|e];
      [|destruct (negb (IsKeyNotFound e)); discriminate].
    destruct (transactionFactory h txData) as [tx|e]; [|discriminate].
    destruct (slice (txBundleHash tx) 0 49) as [mck|]; [|injection H as <-; assumption].
    destruct (resolveMilestoneIndex ctx db _ tx mck) as [[st1 ms]|[st1 f]] eqn:ER.
    + destruct (Set_ (mig_store st1) key _) as [store|e] eqn:ES; discriminate.
    + injection H as <- ->.
      unfold resolveMilestoneIndex in ER. cbn [mig_store mig_cache mig_counter mig_innerErr] in ER.
      repeat destruct_match_in ER; try discriminate; injection ER as <-;
        cbn [mig_innerErr]; congruence.
Qed.

Lemma migrateConsumer_quiet (st st' : MigState) (key : Key) (data : Value) :
  migrateConsumer ctx db st key data = (st', Continue) ->
  mig_innerErr st' = None ->
  mig_innerErr st = None /\
  exists r, rewriteOne db (mig_cache st) key data = Some (mig_cache st', r) /\
            Set_ (mig_store st) key r = inl (mig_store st').
Proof.
  intros H Hs. apply migrateConsumer_continue in H.
  destruct H as (h & lm & cb & ci & td & tx & mck & st1 & ms & H1 & H2 & H3 & H4 & H5 & H6
                 & H7 & ER & HS & HC & HE & _).
  rewrite HE in Hs. apply resolve_quiet in ER; [|assumption].
  cbn [mig_innerErr mig_cache] in ER. destruct ER as [H0 HR].
  split; [assumption|].
  exists (Marshal (migratedMetadata h lm ci tx ms)). split; [|assumption].
  unfold rewriteOne. rewrite H1, H2, H3, H4, H5, H6, H7, HR, HC. reflexivity.
Qed.
End ConsumerLemmas.

(* ===================================================================== *)
(** ** A completed pass as a function of the entries *)
(* ===================================================================== *)

Lemma filter_all {A} (l : list A) : filter (fun _ => true) l = l.
Proof. induction l; simpl; congruence. Qed.

Lemma withPrefix_nil (l : list (Key * Value)) : withPrefix [] l = l.
Proof. apply filter_all. Qed.

Lemma Marshal_split (m : TransactionMetadata) :
  Marshal m = metadata m :: PutUint32 (uint32 (confirmationIndex m)) ++ recordBody m.
Proof. rewrite Marshal_layout. reflexivity. Qed.

Lemma recordBody_length (m : TransactionMetadata) : length (recordBody m) = 151%nat.
Proof.
  unfold recordBody. rewrite !length_app, !fitTo_length, PutUint32_length. reflexivity.
Qed.

Lemma sliceFrom_app (pre rest : bytes) (n : nat) :
  n = length pre -> sliceFrom (pre ++ rest) n = Some rest.
Proof.
  intros ->. unfold sliceFrom, slice.
  replace ((length pre <=? length (pre ++ rest))%nat) with true
    by (symmetry; apply Nat.leb_le; rewrite length_app; lia).
  rewrite Nat.leb_refl. cbn [andb]. f_equal.
  rewrite skipn_app, skipn_all, Nat.sub_diag. cbn [skipn app].
  apply firstn_all2. rewrite length_app. lia.
Qed.

Section PassLemmas.
Context {C : Collaborators}.
Variable db : Database.

Lemma rewriteOne_again (c c1 : Cache) (k : Key) (d r1 : Value) :
  rewriteOne db c k d = Some (c1, r1) -> rewriteOne db c k r1 = Some (c1, reread r1).
Proof.
  unfold rewriteOne. intros H.
  destruct (slice k 0 HashSize) as [h|]; [|discriminate].
  destruct (nth_error d 0) as [b0|]; [|discriminate].
  destruct (sliceFrom d (1 + IndexByteSize)) as [cb|]; [|discriminate].
  destruct (Uint32 cb) as [ci|]; [|discriminate].
  destruct (Get (txStore db) h) as [td|]; [|discriminate].
  destruct (transactionFactory h td) as [tx|]; [|discriminate].
  destruct (slice (txBundleHash tx) 0 49) as [mck|]; [|discriminate].
  destruct (resolveQuietly db c tx mck) as [[c' ms]|]; [|discriminate].
  injection H as <- <-.
  set (m1 := migratedMetadata h b0 ci tx ms).
  pose proof (recordBody_length m1) as Hlen.
  destruct (recordBody m1) as [|x0 [|x1 [|x2 [|x3 rest]]]] eqn:EB; try discriminate.
  assert (Er1 : Marshal m1 = metadata m1 :: PutUint32 (uint32 ci) ++ x0 :: x1 :: x2 :: x3 :: rest).
  { rewrite Marshal_split, EB. reflexivity. }
  rewrite Er1.
  change (nth_error (metadata m1 :: _) 0) with (Some (metadata m1)).
  cbv iota.
  assert (Esl : sliceFrom (metadata m1 :: PutUint32 (uint32 ci) ++ x0 :: x1 :: x2 :: x3 :: rest)
                  (1 + IndexByteSize) = Some (x0 :: x1 :: x2 :: x3 :: rest)).
  { apply (sliceFrom_app (metadata m1 :: PutUint32 (uint32 ci))). reflexivity. }
  rewrite Esl.
  destruct (Uint32 (x0 :: x1 :: x2 :: x3 :: rest)) as [ci'|] eqn:EU; [|discriminate].
  f_equal. f_equal.
  set (m2 := migratedMetadata h (metadata m1) ci' tx ms).
  rewrite (Marshal_split m2).
  assert (Emask : metadata m2 = metadata m1) by (apply migrationMask_idem).
  assert (Ebody : recordBody m2 = recordBody m1) by reflexivity.
  rewrite Emask, Ebody, EB.
  change (confirmationIndex m2) with ci'.
  rewrite (PutUint32_Uint32 _ _ _ _ _ _ EU).
  reflexivity.
Qed.

Lemma rewriteAll_again (c : Cache) (l l1 : list (Key * Value)) :
  rewriteAll db c l = Some l1 ->
  rewriteAll db c l1 = Some (map (fun kv => (fst kv, reread (snd kv))) l1).
Proof.
  revert c l1. induction l as [|[k d] l IH]; intros c l1 H; simpl in H.
  - injection H as <-. reflexivity.
  - destruct (rewriteOne db c k d) as [[c1 r1]|] eqn:E1; [|discriminate].
    destruct (rewriteAll db c1 l) as [l'|] eqn:E2; [|discriminate].
    injection H as <-. simpl.
    rewrite (rewriteOne_again _ _ _ _ _ E1), (IH _ _ E2). reflexivity.
Qed.

Variable ctx : Ctx.

Lemma migrate_iterate_sticky (l : list (Key * Value)) (st st' : MigState) (o : option string) :
  iterate (migrateConsumer ctx db) l st = (st', o) ->
  mig_innerErr st <> None -> mig_innerErr st' <> None.
Proof.
  revert st. induction l as [|[k v] l IH]; intros st H Hs; simpl in H.
  - injection H as <- <-. assumption.
  - destruct (migrateConsumer ctx db st k v) as [s1 f] eqn:E.
    pose proof (migrateConsumer_sticky _ _ _ _ _ _ _ E Hs) as Hs1.
    destruct f; [eapply IH; eassumption | |]; injection H as <- <-; assumption.
Qed.

Lemma migrate_iterate_rewrite (R D : list (Key * Value)) (st st' : MigState) :
  iterate (migrateConsumer ctx db) R st = (st', None) ->
  mig_innerErr st' = None ->
  entries (mig_store st) = D ++ R ->
  keysSortedb (D ++ R) = true ->
  exists R', rewriteAll db (mig_cache st) R = Some R' /\
             entries (mig_store st') = D ++ R'.
Proof.
  revert D st. induction R as [|[k d] R IH]; intros D st H Hs He Hsorted; simpl in H |- *.
  - injection H as <-. exists []. auto.
  - destruct (migrateConsumer ctx db st k d) as [s1 f] eqn:E.
    destruct f.
    + assert (Hs1 : mig_innerErr s1 = None).
      { destruct (mig_innerErr s1) eqn:E1; [|reflexivity]. exfalso.
        apply (migrate_iterate_sticky _ _ _ _ H); congruence. }
      destruct (migrateConsumer_quiet _ _ _ _ _ _ E Hs1) as (_ & r & HR & HSet).
      unfold Set_ in HSet. destruct (setFault (mig_store st) k); [discriminate|].
      injection HSet as HSet.
      assert (He1 : entries (mig_store s1) = (D ++ [(k, r)]) ++ R).
      { rewrite <- HSet. cbn [entries]. rewrite He, <- app_assoc. cbn [app].
        apply put_replace. assumption. }
      assert (Hsorted1 : keysSortedb ((D ++ [(k, r)]) ++ R) = true).
      { rewrite <- app_assoc. cbn [app]. rewrite <- (keysSortedb_replace k r d). assumption. }
      destruct (IH _ _ H Hs He1 Hsorted1) as (R' & HR' & He').
      rewrite HR, HR'. exists ((k, r) :: R'). split; [reflexivity|].
      rewrite He', <- app_assoc. reflexivity.
    + injection H as <-. exfalso. apply (migrateConsumer_stop _ _ _ _ _ _ E). assumption.
    + discriminate.
Qed.

Lemma migrate_success_rewrite (S1 : KVStore) :
  keysSortedb (entries (metadataStore db)) = true ->
  migrateTangleDatabaseFunc ctx db 2 3 = (S1, Ret None) ->
  rewriteAll db (lru_New milestoneCacheSize) (entries (metadataStore db)) = Some (entries S1).
Proof.
  intros Hsorted H. unfold migrateTangleDatabaseFunc in H.
  change (supportedDatabaseVersionUpgradeFunc 2 3) with (@None error) in H.
  unfold Iterate in H. rewrite withPrefix_nil in H.
  destruct (iterFault (metadataStore db) []); [discriminate|].
  destruct (iterate _ _ _) as [st' o] eqn:E.
  destruct o; [discriminate|].
  injection H as <- Herr.
  destruct (migrate_iterate_rewrite _ [] _ _ E Herr eq_refl Hsorted) as (R' & HR & He).
  cbn [mig_cache app] in HR, He. rewrite He. exact HR.
Qed.
End PassLemmas.

(* ===================================================================== *)
(** ** A second pass *)
(* ===================================================================== *)

Lemma reread_fixed (r : bytes) :
  length r = 156%nat ->
  (reread r = r <-> firstn 4 (skipn 1 r) = firstn 4 (skipn 5 r)).
Proof.
  intros Hlen. unfold reread.
  assert (Hr : r = firstn 1 r ++ firstn 4 (skipn 1 r) ++ skipn 5 r).
  { rewrite <- (firstn_skipn 1 r) at 1. f_equal.
    rewrite <- (firstn_skipn 4 (skipn 1 r)) at 1. f_equal.
    rewrite skipn_skipn. reflexivity. }
  split; intros H.
  - rewrite Hr in H at 4. apply app_inv_head in H.
    apply app_inv_tail in H. symmetry. exact H.
  - rewrite <- H. symmetry. exact Hr.
Qed.

Section SecondPass.
Context {C : Collaborators}.
Variable db : Database.

Lemma rewriteOne_length (c c1 : Cache) (k : Key) (d r : Value) :
  rewriteOne db c k d = Some (c1, r) -> length r = 156%nat.
Proof.
  unfold rewriteOne. intros H.
  repeat destruct_match_in H; try discriminate.
  injection H as _ <-. apply Marshal_length.
Qed.

Lemma rewriteAll_keys (c : Cache) (l l1 : list (Key * Value)) :
  rewriteAll db c l = Some l1 ->
  map fst l1 = map fst l /\ Forall (fun kv => length (snd kv) = 156%nat) l1.
Proof.
  revert c l1. induction l as [|[k d] l IH]; intros c l1 H; simpl in H.
  - injection H as <-. split; constructor.
  - destruct (rewriteOne db c k d) as [[c1 r1]|] eqn:E1; [|discriminate].
    destruct (rewriteAll db c1 l) as [l'|] eqn:E2; [|discriminate].
    injection H as <-. destruct (IH _ _ E2) as [Hk Hl]. split.
    + simpl. rewrite Hk. reflexivity.
    + constructor; [|assumption]. simpl. eapply rewriteOne_length; eassumption.
Qed.

Lemma rewriteAll_withMetadata (s : KVStore) (c : Cache) (l : list (Key * Value)) :
  rewriteAll (withMetadata db s) c l = rewriteAll db c l.
Proof. reflexivity. Qed.

(** C2 (defect of the code).  A second pass over the records a first
    pass has written is not the identity the specification asks for: it
    reproduces each record in every byte outside the confirmation index
    (offsets 1 to 4), but reads that field again at the legacy offset 5,
    so it comes back as bytes 5 to 8 of the record, and the record is
    reproduced byte for byte exactly when its bytes 1 to 4 equal its
    bytes 5 to 8. *)
Theorem second_pass_rereads_confirmationIndex (ctx1 ctx2 : Ctx) (S1 S2 : KVStore) :
  keysSortedb (entries (metadataStore db)) = true ->
  migrateTangleDatabaseFunc ctx1 db 2 3 = (S1, Ret None) ->
  migrateTangleDatabaseFunc ctx2 (withMetadata db S1) 2 3 = (S2, Ret None) ->
  entries S2 = map (fun kv => (fst kv, reread (snd kv))) (entries S1) /\
  forall k r, In (k, r) (entries S1) ->
    length r = TransactionMetadataSize /\
    (reread r = r <-> slice r 1 5 = slice r 5 9).
Proof.
  intros Hsorted H1 H2.
  pose proof (migrate_success_rewrite db ctx1 S1 Hsorted H1) as HR1.
  destruct (rewriteAll_keys _ _ _ HR1) as [Hkeys Hlen].
  assert (Hsorted1 : keysSortedb (entries (metadataStore (withMetadata db S1))) = true).
  { cbn [withMetadata metadataStore]. rewrite <- Hsorted. apply keysSortedb_keys. exact Hkeys. }
  pose proof (migrate_success_rewrite _ ctx2 S2 Hsorted1 H2) as HR2.
  cbn [withMetadata metadataStore] in HR2.
  change (rewriteAll (mkDatabase (txStore db) S1 (bundleTransactionsStore db) (bundleStore db)
                        (milestoneStore db)))
    with (rewriteAll (withMetadata db S1)) in HR2.
  rewrite rewriteAll_withMetadata in HR2.
  rewrite (rewriteAll_again db _ _ _ HR1) in HR2. injection HR2 as HR2.
  split; [symmetry; exact HR2|].
  intros k r Hin. rewrite Forall_forall in Hlen. specialize (Hlen _ Hin). cbn [snd] in Hlen.
  split; [exact Hlen|].
  rewrite (reread_fixed r Hlen). unfold slice. rewrite Hlen. cbn [Nat.leb andb Nat.sub].
  split; [intros ->; reflexivity | intros [= H]; exact H].
Qed.
End SecondPass.

(* ===================================================================== *)
(** ** The written record *)
(* ===================================================================== *)

Lemma uint32_isUint32 (z : Z) : isUint32 (uint32 z).
Proof. unfold isUint32, uint32. apply Z.mod_pos_bound. lia. Qed.

Lemma uint32_small (z : Z) : isUint32 z -> uint32 z = z.
Proof. intros H. apply Z.mod_small. exact H. Qed.

Lemma cacheFind_In (k : Key) (l : list (Key * Index)) (v : Index) :
  cacheFind k l = Some v -> exists k', In (k', v) l.
Proof.
  induction l as [|[k' v'] l IH]; simpl; [discriminate|].
  destruct (bytes_eqb k k').
  - intros [= ->]. eauto.
  - intros H. destruct (IH H) as [k'' Hin]. eauto.
Qed.

Lemma fitTo_firstn (w : nat) (src : bytes) : (w <= length src)%nat -> fitTo w src = firstn w src.
Proof.
  intros H. unfold fitTo. replace (w - length src)%nat with 0%nat by lia. apply app_nil_r.
Qed.

Lemma slice_prefix (s r : bytes) (n : nat) :
  slice s 0 n = Some r -> (n <= length s)%nat /\ r = firstn n s.
Proof.
  unfold slice. cbn [Nat.leb andb]. destruct (Nat.leb_spec n (length s)); [|discriminate].
  intros [= <-]. rewrite Nat.sub_0_r. auto.
Qed.

Section RecordLemmas.
Context {C : Collaborators}.
Variable ctx : Ctx.
Variable db : Database.

Lemma getBundleMilestoneIndex_uint32 (b : Bundle) (i : Index) :
  getBundleMilestoneIndex db b = inl i -> isUint32 i.
Proof.
  unfold getBundleMilestoneIndex. intros H.
  repeat destruct_match_in H; try discriminate.
  injection H as <-. apply uint32_isUint32.
Qed.

Lemma tailConsumer_uint32 (n : Z) (s s' : ScanState) (k : Key) (f : flow) :
  tailConsumer ctx db n s k = (s', f) ->
  isUint32 (scan_milestoneIndex s) -> isUint32 (scan_milestoneIndex s').
Proof.
  unfold tailConsumer. cbn [scan_counter scan_milestoneIndex scan_innerErr].
  intros H Hs.
  repeat destruct_match_in H; try discriminate; injection H as <- <-;
    cbn [scan_milestoneIndex]; try assumption.
  eapply getBundleMilestoneIndex_uint32. eassumption.
Qed.

Lemma scan_iterate_uint32 (n : Z) (l : list (Key * Value)) (s s' : ScanState) (o : option string) :
  iterate (fun st k _ => tailConsumer ctx db n st k) l s = (s', o) ->
  isUint32 (scan_milestoneIndex s) -> isUint32 (scan_milestoneIndex s').
Proof.
  revert s. induction l as [|[k v] l IH]; intros s H Hs; simpl in H.
  - injection H as <- <-. assumption.
  - destruct (tailConsumer ctx db n s k) as [s1 f] eqn:E.
    pose proof (tailConsumer_uint32 _ _ _ _ _ E Hs) as Hs1.
    destruct f; [eapply IH; eassumption | |]; injection H as <- <-; assumption.
Qed.

Lemma resolve_uint32 (st st1 : MigState) (tx : Transaction) (mck : Key) (ms : Index) :
  resolveMilestoneIndex ctx db st tx mck = inl (st1, ms) ->
  cacheHoldsUint32 (mig_cache st) -> isUint32 ms.
Proof.
  unfold resolveMilestoneIndex, lru_Get. intros H Hc.
  destruct (cacheFind mck (items (mig_cache st))) as [i|] eqn:EF.
  - injection H as _ <-. apply cacheFind_In in EF. destruct EF as [k' Hin].
    unfold cacheHoldsUint32 in Hc. rewrite Forall_forall in Hc. apply (Hc _ Hin).
  - unfold scanBundleTails, IterateKeys, Iterate in H.
    destruct (iterFault _ _); [discriminate|].
    destruct (iterate _ _ _) as [sc o] eqn:E.
    apply scan_iterate_uint32 in E; [|cbn; unfold isUint32; lia].
    destruct o; [discriminate|]. injection H as _ <-. exact E.
Qed.

(** C3.  Whenever the callback of the pass has written a record, the
    record stored at the key decodes to: head, tail and value bits equal
    to the predicates of the payload, the milestone bit set exactly when
    the resolved index is not zero, the confirmed bit and the
    confirmation index of the legacy record, the hashes of the payload,
    and the resolved index as milestone index; so the milestone index is
    not zero exactly when the milestone bit is set. *)
Theorem migrated_record_fields (st st' : MigState) (key : Key) (data : Value) :
  migrateConsumer ctx db st key data = (st', Continue) ->
  cacheHoldsUint32 (mig_cache st) ->
  exists h legacyMask ciBytes ci txData tx mck st1 ms v m,
    (* the legacy record, the payload and the resolved index *)
    slice key 0 HashSize = Some h /\
    nth_error data 0 = Some legacyMask /\
    sliceFrom data 5 = Some ciBytes /\ Uint32 ciBytes = Some ci /\
    Get (txStore db) h = inl txData /\ transactionFactory h txData = inl tx /\
    slice (txBundleHash tx) 0 49 = Some mck /\
    resolveMilestoneIndex ctx db
      (mkMigState (mig_store st) (mig_cache st) (mig_counter st + 1) (mig_innerErr st))
      tx mck = inl (st1, ms) /\
    (* the record now stored at the key *)
    lookup key (entries (mig_store st')) = Some v /\
    length v = TransactionMetadataSize /\
    Unmarshal (NewTransactionMetadata h) v = Ret m /\
    HasBit (metadata m) TransactionMetadataIsHead = txIsHead tx /\
    HasBit (metadata m) TransactionMetadataIsTail = txIsTail tx /\
    HasBit (metadata m) TransactionMetadataIsValue = txIsValue tx /\
    (IsMilestone m = true <-> ms <> 0) /\
    IsConfirmed m = HasBit legacyMask TransactionMetadataConfirmed /\
    confirmationIndex m = ci /\
    (length (txTrunkHash tx) = HashSize -> trunkHash m = txTrunkHash tx) /\
    (length (txBranchHash tx) = HashSize -> branchHash m = txBranchHash tx) /\
    (length (txBundleHash tx) = HashSize -> bundleHash m = txBundleHash tx) /\
    milestoneIndex m = ms /\
    (milestoneIndex m <> 0 <-> IsMilestone m = true).
Proof.
  intros H Hc.
  destruct (migrateConsumer_continue _ _ _ _ _ _ H)
    as (h & lm & cb & ci & td & tx & mck & st1 & ms & H1 & H2 & H3 & H4 & H5 & H6
        & H7 & ER & HS & _).
  assert (Hms : isUint32 ms) by (eapply resolve_uint32; eassumption).
  assert (Hci : isUint32 ci) by (eapply Uint32_range; eassumption).
  set (mm := migratedMetadata h lm ci tx ms) in *.
  exists h, lm, cb, ci, td, tx, mck, st1, ms, (Marshal mm).
  eexists.
  refine (conj H1 (conj H2 (conj H3 (conj H4 (conj H5 (conj H6 (conj H7 (conj ER _)))))))).
  split.
  { unfold Set_ in HS. destruct (setFault (mig_store st) key); [discriminate|].
    injection HS as <-. cbn [entries]. apply lookup_put_same. }
  split; [apply Marshal_length|].
  split; [apply Unmarshal_Marshal|].
  cbn [metadata confirmationIndex trunkHash branchHash bundleHash milestoneIndex].
  unfold IsMilestone, IsConfirmed.
  cbn [metadata confirmationIndex trunkHash branchHash bundleHash milestoneIndex].
  change (metadata mm) with
    (migrationMask lm (txIsHead tx) (txIsTail tx) (txIsValue tx) (negb (ms =? 0))).
  destruct (migrationMask_bits lm (txIsHead tx) (txIsTail tx) (txIsValue tx) (negb (ms =? 0)))
    as (B1 & B2 & B3 & B4 & _ & B6 & _).
  rewrite B1, B2, B3, B4, B6.
  change (confirmationIndex mm) with ci. change (milestoneIndex mm) with ms.
  change (trunkHash mm) with (txTrunkHash tx). change (branchHash mm) with (txBranchHash tx).
  change (bundleHash mm) with (txBundleHash tx).
  rewrite (uint32_small ci Hci), (uint32_small ms Hms).
  repeat split; try reflexivity; try (intros; apply fitTo_exact; assumption).
  - destruct (Z.eqb_spec ms 0); cbn; intros; congruence.
  - destruct (Z.eqb_spec ms 0); cbn; intros; congruence.
  - destruct (Z.eqb_spec ms 0); cbn; intros; congruence.
  - destruct (Z.eqb_spec ms 0); cbn; intros; congruence.
Qed.
End RecordLemmas.

(* ===================================================================== *)
(** ** The cache and the records of a completed pass *)
(* ===================================================================== *)

Lemma cacheFind_remove (k k' : Key) (l : list (Key * Index)) :
  cacheFind k' (cacheRemove k l) = if bytes_eqb k' k then None else cacheFind k' l.
Proof.
  induction l as [|[k0 v0] l IH]; simpl.
  - destruct (bytes_eqb k' k); reflexivity.
  - destruct (bytes_eqb k k0) eqn:E0.
    + apply bytes_eqb_eq in E0. subst k0. rewrite IH.
      destruct (bytes_eqb k' k); reflexivity.
    + simpl. destruct (bytes_eqb k' k0) eqn:E1; [|exact IH].
      destruct (bytes_eqb k' k) eqn:E2; [|reflexivity].
      apply bytes_eqb_eq in E1, E2. subst. rewrite bytes_eqb_refl in E0. discriminate.
Qed.

Lemma cacheFind_front (k k' : Key) (v : Index) (l : list (Key * Index)) :
  cacheFind k' ((k, v) :: cacheRemove k l) = if bytes_eqb k' k then Some v else cacheFind k' l.
Proof.
  simpl. rewrite cacheFind_remove. destruct (bytes_eqb k' k); reflexivity.
Qed.

Lemma cacheFind_removelast (k : Key) (l : list (Key * Index)) (v : Index) :
  cacheFind k (removelast l) = Some v -> cacheFind k l = Some v.
Proof.
  induction l as [|[k0 v0] l IH]; simpl; [discriminate|].
  destruct l as [|a l]; [discriminate|].
  cbn [cacheFind]. destruct (bytes_eqb k k0); [auto|]. exact IH.
Qed.

Section PassIndex.
Context {C : Collaborators}.
Variable db : Database.

Lemma cacheSound_Get (c c' : Cache) (k : Key) (o : option Index) :
  cacheSound db c -> lru_Get c k = (o, c') ->
  cacheSound db c' /\ (forall i, o = Some i -> resolvedIndex db k = Some i).
Proof.
  unfold lru_Get. intros Hc H.
  destruct (cacheFind k (items c)) as [v|] eqn:EF; injection H as <- <-.
  - split.
    + intros bh i. cbn [items]. rewrite cacheFind_front.
      destruct (bytes_eqb bh k) eqn:E.
      * apply bytes_eqb_eq in E. subst bh. intros [= <-]. apply Hc. exact EF.
      * apply Hc.
    + intros i [= <-]. apply Hc. exact EF.
  - split; [exact Hc|discriminate].
Qed.

Lemma cacheSound_Add (c : Cache) (k : Key) (v : Index) :
  cacheSound db c -> resolvedIndex db k = Some v -> cacheSound db (lru_Add c k v).
Proof.
  unfold lru_Add. intros Hc Hv bh i.
  assert (Hfront : cacheFind bh ((k, v) :: items c) = Some i -> resolvedIndex db bh = Some i).
  { simpl. destruct (bytes_eqb bh k) eqn:E.
    - apply bytes_eqb_eq in E. subst bh. intros [= <-]. exact Hv.
    - apply Hc. }
  destruct (cacheFind k (items c)) as [v0|] eqn:EF.
  - cbn [items]. rewrite cacheFind_front.
    destruct (bytes_eqb bh k) eqn:E.
    + apply bytes_eqb_eq in E. subst bh. intros [= <-]. exact Hv.
    + apply Hc.
  - destruct (capacity c <? Z.of_nat (length ((k, v) :: items c))); cbn [items].
    + intros H. apply Hfront. apply cacheFind_removelast. exact H.
    + exact Hfront.
Qed.

Hypothesis Hsized : bundleHashesSized.

Lemma rewriteOne_composed (c c1 : Cache) (k : Key) (d r : Value) :
  cacheSound db c -> rewriteOne db c k d = Some (c1, r) ->
  cacheSound db c1 /\ composedFor db (k, r).
Proof.
  unfold rewriteOne. intros Hc H.
  destruct (slice k 0 HashSize) as [h|] eqn:E1; [|discriminate].
  destruct (nth_error d 0) as [b0|]; [|discriminate].
  destruct (sliceFrom d (1 + IndexByteSize)) as [cb|]; [|discriminate].
  destruct (Uint32 cb) as [ci|]; [|discriminate].
  destruct (Get (txStore db) h) as [td|] eqn:E5; [|discriminate].
  destruct (transactionFactory h td) as [tx|] eqn:E6; [|discriminate].
  destruct (slice (txBundleHash tx) 0 49) as [mck|] eqn:E7; [|discriminate].
  assert (Emck : mck = txBundleHash tx).
  { apply slice_prefix in E7. destruct E7 as [_ ->].
    apply firstn_all2. rewrite (Hsized _ _ _ E6). apply Nat.le_refl. }
  subst mck.
  unfold resolveQuietly in H.
  destruct (lru_Get c (txBundleHash tx)) as [o c'] eqn:EG.
  destruct (cacheSound_Get _ _ _ _ Hc EG) as [Hc' Ho].
  assert (Hdone : forall ms, resolvedIndex db (txBundleHash tx) = Some ms ->
            composedFor db (k, Marshal (migratedMetadata h b0 ci tx ms))).
  { intros ms Hms. exists h, b0, ci, td, tx, ms. cbn [fst snd]. auto. }
  destruct o as [i|].
  - injection H as <- <-. split; [exact Hc'|]. apply Hdone. apply Ho. reflexivity.
  - destruct (resolvedIndex db (txBundleHash tx)) as [ms|] eqn:ER; [|discriminate].
    injection H as <- <-. split; [|apply Hdone; reflexivity].
    apply cacheSound_Add; assumption.
Qed.

Lemma rewriteAll_composed (c : Cache) (l l1 : list (Key * Value)) :
  cacheSound db c -> rewriteAll db c l = Some l1 -> Forall (composedFor db) l1.
Proof.
  revert c l1. induction l as [|[k d] l IH]; intros c l1 Hc H; simpl in H.
  - injection H as <-. constructor.
  - destruct (rewriteOne db c k d) as [[c1 r1]|] eqn:E1; [|discriminate].
    destruct (rewriteAll db c1 l) as [l'|] eqn:E2; [|discriminate].
    injection H as <-.
    destruct (rewriteOne_composed _ _ _ _ _ Hc E1) as [Hc1 Hr].
    constructor; [exact Hr|]. eapply IH; eassumption.
Qed.
End PassIndex.

Section ScanResult.
Context {C : Collaborators}.
Variable ctx : Ctx.
Variable db : Database.

Lemma tailConsumer_passedOver (n : Z) (s : ScanState) (key : Key) :
  abortedAtTail ctx n (scan_counter s + 1) = false ->
  passedOver db key ->
  tailConsumer ctx db n s key =
    (mkScanState (scan_counter s + 1) (scan_milestoneIndex s) (scan_innerErr s), Continue).
Proof.
  intros Ha (t & Hs & [(e & HG & HK)|(bd & b & HG & HF & HM)]);
    unfold tailConsumer; cbn [scan_counter scan_milestoneIndex scan_innerErr];
    rewrite Ha, Hs, HG.
  - rewrite HK. reflexivity.
  - rewrite HF, HM. reflexivity.
Qed.

Lemma tailConsumer_milestoneTail (n : Z) (s : ScanState) (key : Key) (tailTx : Transaction) :
  abortedAtTail ctx n (scan_counter s + 1) = false ->
  milestoneTail db key tailTx ->
  tailConsumer ctx db n s key =
    (mkScanState (scan_counter s + 1) (uint32 (TrytesToInt (txObsoleteTag tailTx)))
       (scan_innerErr s), Stop).
Proof.
  intros Ha (t & bd & b & td & Hs & HG & HF & HM & HT & HGT & HFT).
  unfold tailConsumer; cbn [scan_counter scan_milestoneIndex scan_innerErr].
  rewrite Ha, Hs, HG, HF, HM.
  unfold getBundleMilestoneIndex.
  destruct (Bundle_tailTx b) as [|x r] eqn:EB; [congruence|].
  cbn [length Nat.eqb]. rewrite HGT, HFT. reflexivity.
Qed.

Lemma scan_iterate_first_milestone (n : Z) (pre post : list (Key * Value))
    (key : Key) (v : Value) (tailTx : Transaction) (s : ScanState) :
  (forall c, scan_counter s < c <= scan_counter s + Z.of_nat (length pre) + 1 ->
             abortedAtTail ctx n c = false) ->
  Forall (fun kv => passedOver db (fst kv)) pre ->
  milestoneTail db key tailTx ->
  iterate (fun st k _ => tailConsumer ctx db n st k) (pre ++ (key, v) :: post) s =
    (mkScanState (scan_counter s + Z.of_nat (length pre) + 1)
       (uint32 (TrytesToInt (txObsoleteTag tailTx))) (scan_innerErr s), None).
Proof.
  revert s. induction pre as [|[k0 v0] pre IH]; intros s Ha Hpre Hk.
  - cbn [app iterate length Z.of_nat].
    rewrite (tailConsumer_milestoneTail n s key tailTx); [|apply Ha; cbn; lia|assumption].
    rewrite Z.add_0_r. reflexivity.
  - cbn [app iterate]. inversion Hpre as [|? ? Hk0 Hpre']; subst.
    rewrite (tailConsumer_passedOver n s k0); [|apply Ha; rewrite length_cons; lia|exact Hk0].
    rewrite IH; [|intros c Hc; apply Ha; cbn [scan_counter] in Hc; rewrite length_cons; lia
                 |assumption|assumption].
    cbn [scan_counter scan_milestoneIndex scan_innerErr].
    rewrite length_cons. f_equal. f_equal. lia.
Qed.

Lemma scanBundleTails_first_milestone (n : Z) (innerErr : option error) (bundleHash : Hash)
    (pre post : list (Key * Value)) (key : Key) (v : Value) (tailTx : Transaction) :
  iterFault (bundleTransactionsStore db) (bundleHash ++ [BundleTxIsTail]) = None ->
  withPrefix (bundleHash ++ [BundleTxIsTail]) (entries (bundleTransactionsStore db))
    = pre ++ (key, v) :: post ->
  (forall c, 0 < c <= Z.of_nat (length pre) + 1 -> abortedAtTail ctx n c = false) ->
  Forall (fun kv => passedOver db (fst kv)) pre ->
  milestoneTail db key tailTx ->
  scanBundleTails ctx db n innerErr bundleHash =
    (mkScanState (Z.of_nat (length pre) + 1) (uint32 (TrytesToInt (txObsoleteTag tailTx)))
       innerErr, Ret None).
Proof.
  intros Hf Hkeys Ha Hpre Hk.
  unfold scanBundleTails, IterateKeys, Iterate, databaseKeyPrefixForBundleHash.
  rewrite Hf, Hkeys.
  rewrite (scan_iterate_first_milestone n pre post key v tailTx); try assumption.
  reflexivity.
Qed.
End ScanResult.

(** C1 (amended).  When the scan started on a cache miss finds, after tail
    keys it passes over, a first tail key whose bundle is a milestone, the
    index it resolves is the integer decoded from the obsolete tag of that
    bundle's tail transaction (not from its timestamp), converted to
    [uint32]; the scan has then called its callback on that key last, the
    index goes into the cache under the bundle hash, and in a pass that
    completes every stored record whose payload has this bundle hash
    carries it as [milestoneIndex]. *)
Theorem scan_resolves_first_milestone_tail {C : Collaborators} (ctx : Ctx) (db : Database)
    (n : Z) (innerErr : option error) (bundleHash : Hash)
    (pre post : list (Key * Value)) (key : Key) (v : Value) (tailTx : Transaction) :
  iterFault (bundleTransactionsStore db) (bundleHash ++ [BundleTxIsTail]) = None ->
  withPrefix (bundleHash ++ [BundleTxIsTail]) (entries (bundleTransactionsStore db))
    = pre ++ (key, v) :: post ->
  (forall c, 0 < c <= Z.of_nat (length pre) + 1 -> abortedAtTail ctx n c = false) ->
  Forall (fun kv => passedOver db (fst kv)) pre ->
  milestoneTail db key tailTx ->
  let index := uint32 (TrytesToInt (txObsoleteTag tailTx)) in
  scanBundleTails ctx db n innerErr bundleHash =
    (mkScanState (Z.of_nat (length pre) + 1) index innerErr, Ret None) /\
  (forall (st : MigState) (tx : Transaction) (milestoneCacheKey : Key),
      txBundleHash tx = bundleHash -> mig_counter st = n -> mig_innerErr st = innerErr ->
      cacheFind milestoneCacheKey (items (mig_cache st)) = None ->
      resolveMilestoneIndex ctx db st tx milestoneCacheKey =
        inl (mkMigState (mig_store st) (lru_Add (mig_cache st) milestoneCacheKey index) n innerErr,
             index)) /\
  (forall (pass : Ctx) (migratedStore : KVStore),
      bundleHashesSized ->
      keysSortedb (entries (metadataStore db)) = true ->
      migrateTangleDatabaseFunc pass db 2 3 = (migratedStore, Ret None) ->
      forall k r h txData tx,
        In (k, r) (entries migratedStore) ->
        slice k 0 HashSize = Some h ->
        Get (txStore db) h = inl txData ->
        transactionFactory h txData = inl tx ->
        txBundleHash tx = bundleHash ->
        exists m, Unmarshal (NewTransactionMetadata h) r = Ret m /\
                  milestoneIndex m = index /\
                  IsMilestone m = negb (index =? 0)).
Proof.
  intros Hf Hkeys Ha Hpre Hk index.
  pose proof (scanBundleTails_first_milestone ctx db n innerErr bundleHash pre post key v tailTx
                Hf Hkeys Ha Hpre Hk) as Hscan.
  fold index in Hscan.
  refine (conj Hscan (conj _ _)).
  - intros st tx mck Hb Hn He Hmiss.
    unfold resolveMilestoneIndex, lru_Get. rewrite Hmiss, Hb, Hn, He, Hscan. reflexivity.
  - intros pass S1 Hsized Hsorted Hpass k r h txData tx Hin Hh HG HF Hb.
    assert (Hres : resolvedIndex db bundleHash = Some index).
    { unfold resolvedIndex.
      rewrite (scanBundleTails_first_milestone neverAborted db 0 None bundleHash pre post key v
                 tailTx Hf Hkeys (fun _ _ => eq_refl) Hpre Hk).
      reflexivity. }
    pose proof (migrate_success_rewrite db pass S1 Hsorted Hpass) as HR.
    assert (Hsound : cacheSound db (lru_New milestoneCacheSize)) by (intros bh i; discriminate).
    pose proof (rewriteAll_composed db Hsized _ _ _ Hsound HR) as Hall.
    rewrite Forall_forall in Hall. specialize (Hall _ Hin).
    destruct Hall as (h' & lm & ci & td' & tx' & ms & Hh' & HG' & HF' & Hms & Hr).
    cbn [fst snd] in Hh', Hr.
    assert (h' = h) by congruence. subst h'.
    assert (td' = txData) by congruence. subst td'.
    assert (tx' = tx) by congruence. subst tx'.
    rewrite Hb, Hres in Hms. injection Hms as <-.
    rewrite Hr. eexists. split; [apply Unmarshal_Marshal|].
    cbn [milestoneIndex]. unfold IsMilestone. cbn [metadata].
    split.
    + change (milestoneIndex (migratedMetadata h lm ci tx index)) with index.
      apply uint32_small. apply uint32_isUint32.
    + change (metadata (migratedMetadata h lm ci tx index)) with
        (migrationMask lm (txIsHead tx) (txIsTail tx) (txIsValue tx) (negb (index =? 0))).
      apply (migrationMask_bits lm (txIsHead tx) (txIsTail tx) (txIsValue tx)
               (negb (index =? 0))).
Qed.

(* ===================================================================== *)
(** ** The cap of the bundle scan *)
(* ===================================================================== *)

Lemma slice_txHashOfKey (key : Key) :
  (99 <= length key)%nat -> slice key 50 99 = Some (txHashOfKey key).
Proof.
  intros H. unfold slice.
  rewrite (proj2 (Nat.leb_le 99 (length key)) H). reflexivity.
Qed.

Section Cap.
Context {C : Collaborators}.
Variable db : Database.

Lemma collect_iterate (k : Z) (rest : list Z) (l : list (Key * Value)) (i : Z) (acc : Hashes) :
  Forall (fun kv => (99 <= length (fst kv))%nat) l ->
  iterate (fun st key _ => collectBundleTransactionHash (k :: rest) st key) l (i, acc) =
    ((i + Z.of_nat (Nat.min (length l) (Z.to_nat (k - i) + 1)),
      acc ++ firstn (Z.to_nat (k - i)) (map (fun kv => txHashOfKey (fst kv)) l)), None).
Proof.
  revert i acc. induction l as [|[key v] l IH]; intros i acc Hl.
  - cbn. rewrite Z.add_0_r, firstn_nil, app_nil_r. reflexivity.
  - inversion Hl as [|? ? Hkey Hl']; subst. cbn [fst] in Hkey.
    cbn [iterate]. unfold collectBundleTransactionHash at 1.
    cbn [fst snd length Nat.ltb Nat.leb hd andb].
    destruct (Z.ltb_spec k (i + 1)) as [Hlt|Hge].
    + replace (Z.to_nat (k - i)) with 0%nat by lia.
      cbn [firstn Nat.add]. rewrite app_nil_r.
      replace (Nat.min (S (length l)) 1) with 1%nat by lia.
      reflexivity.
    + rewrite slice_txHashOfKey by assumption.
      rewrite IH by assumption.
      replace (Z.to_nat (k - i)) with (S (Z.to_nat (k - (i + 1)))) by lia.
      cbn [map firstn fst length]. rewrite <- app_assoc. cbn [app].
      f_equal. f_equal.
      lia.
Qed.

(** C4 (amended).  With a cap [k], [BundleTransactionHashes] returns at
    most [k] hashes and they are a prefix of the hashes of the keys under
    the bundle hash in iteration order; the callback, which is what stops
    the scan, is called on at most [k + 1] of those keys: the key after
    the [k]-th is visited, counted and dropped. *)
Theorem BundleTransactionHashes_cap (bundleHash : Hash) (k : Z) :
  let matches := withPrefix bundleHash (entries (bundleTransactionsStore db)) in
  Forall (fun kv => (99 <= length (fst kv))%nat) matches ->
  exists (i : Z) (hashes : Hashes) (err : option error),
    scanBundleTransactionHashes db bundleHash [k] = ((i, hashes), Ret err) /\
    BundleTransactionHashes db bundleHash [k] = Ret hashes /\
    Z.of_nat (length hashes) <= Z.max 0 k /\
    hashes = firstn (length hashes) (map (fun kv => txHashOfKey (fst kv)) matches) /\
    i <= Z.max 0 k + 1 /\
    (iterFault (bundleTransactionsStore db) bundleHash = None ->
     hashes = firstn (Z.to_nat k) (map (fun kv => txHashOfKey (fst kv)) matches) /\
     i = Z.of_nat (Nat.min (length matches) (Z.to_nat k + 1))).
Proof.
  intros matches Hkeys. subst matches.
  set (matches := withPrefix bundleHash (entries (bundleTransactionsStore db))) in *.
  unfold BundleTransactionHashes, scanBundleTransactionHashes, IterateKeys, Iterate,
    databaseKeyPrefixForBundleHash.
  destruct (iterFault (bundleTransactionsStore db) bundleHash) as [e|] eqn:EF.
  - exists 0, [], (Some e).
    refine (conj eq_refl (conj eq_refl (conj _ (conj eq_refl (conj _ _))))).
    + cbn [length Z.of_nat]. lia.
    + lia.
    + discriminate.
  - pose proof (collect_iterate k [] matches 0 [] Hkeys) as HI.
    rewrite Z.sub_0_r, Z.add_0_l, app_nil_l in HI.
    match goal with
    | |- context [iterate ?f ?l ?s] =>
        replace (iterate f l s) with
          ((Z.of_nat (Nat.min (length matches) (Z.to_nat k + 1)),
            firstn (Z.to_nat k) (map (fun kv => txHashOfKey (fst kv)) matches)),
           @None string)
          by (symmetry; exact HI)
    end.
    set (all := map (fun kv => txHashOfKey (fst kv)) matches).
    exists (Z.of_nat (Nat.min (length matches) (Z.to_nat k + 1))), (firstn (Z.to_nat k) all), None.
    assert (Hlen : length (firstn (Z.to_nat k) all) = Nat.min (Z.to_nat k) (length all))
      by apply length_firstn.
    refine (conj eq_refl (conj eq_refl (conj _ (conj _ (conj _ _))))).
    + rewrite Hlen. lia.
    + rewrite Hlen.
      destruct (Nat.le_ge_cases (Z.to_nat k) (length all)) as [Hle|Hge].
      * rewrite Nat.min_l by assumption. reflexivity.
      * rewrite Nat.min_r by assumption. rewrite !firstn_all2 by lia. reflexivity.
    + lia.
    + intros _. split; reflexivity.
Qed.
End Cap.

(* ===================================================================== *)
(** ** The legacy accessor *)
(* ===================================================================== *)

Section LegacyAccessor.
Context {C : Collaborators}.
Variable metadataFactory : Key -> Value -> Legacy.TransactionMetadata + error.
Variable db : Database.

(** C10.  The legacy [TxMetadataOrNil] fills the hashes and the head,
    tail and value bits from the payload exactly when the trunk hash of
    the parsed metadata is empty; the branch hash plays no part, whatever
    it is; and when the payload is missing the backfill panics. *)
Theorem legacy_backfill_iff_trunk_empty (h : Hash) (data : Value) (m : Legacy.TransactionMetadata) :
  Get (metadataStore db) h = inl data ->
  metadataFactory h data = inl m ->
  (Legacy.trunkHash m <> [] ->
     Legacy.TxMetadataOrNil metadataFactory db h = Ret (Some m) /\
     forall branch,
       let m' := Legacy.mkTransactionMetadata (Legacy.txHash m) (Legacy.metadata m)
                   (Legacy.confirmationIndex m) (Legacy.trunkHash m) branch
                   (Legacy.bundleHash m) in
       Legacy.addAdditionalTxInfoToMetadata db m' = Ret m') /\
  (Legacy.trunkHash m = [] ->
     (forall tx, TransactionOrNil db (Legacy.txHash m) = Ret (Some tx) ->
        Legacy.TxMetadataOrNil metadataFactory db h =
          Ret (Some (Legacy.SetAdditionalTxInfo m (txTrunkHash tx) (txBranchHash tx)
                       (txBundleHash tx) (txIsHead tx) (txIsTail tx) (txIsValue tx)))) /\
     (TransactionOrNil db (Legacy.txHash m) = Ret None ->
        exists msg, Legacy.TxMetadataOrNil metadataFactory db h = Panic msg)).
Proof.
  intros HG HF.
  unfold Legacy.TxMetadataOrNil, Legacy.addAdditionalTxInfoToMetadata, Legacy.TrunkHash,
    Legacy.TxHash.
  rewrite HG, HF. split.
  - intros Hne. destruct (Legacy.trunkHash m) as [|x r]; [congruence|].
    cbn. split; [reflexivity|]. intros branch. reflexivity.
  - intros ->. cbn [length Nat.eqb orb]. split.
    + intros tx ->. reflexivity.
    + intros ->. cbn. eauto.
Qed.
End LegacyAccessor.

(* ===================================================================== *)
(** * Runs on the sample database *)
(* ===================================================================== *)

Import Sample.

Lemma second_pass_witness :
  keysSortedb (entries (metadataStore database)) = true /\
  migrateTangleDatabaseFunc neverAborted database 2 3 = (fst firstPass, Ret None) /\
  migrateTangleDatabaseFunc neverAborted (withMetadata database (fst firstPass)) 2 3
    = (fst secondPass, Ret None) /\
  entries (fst secondPass) = map (fun kv => (fst kv, reread (snd kv))) (entries (fst firstPass)).
Proof.
  assert (H0 : keysSortedb (entries (metadataStore database)) = true) by (vm_compute; reflexivity).
  assert (H1 : migrateTangleDatabaseFunc neverAborted database 2 3 = (fst firstPass, Ret None))
    by (vm_compute; reflexivity).
  assert (H2 : migrateTangleDatabaseFunc neverAborted (withMetadata database (fst firstPass)) 2 3
               = (fst secondPass, Ret None)) by (vm_compute; reflexivity).
  refine (conj H0 (conj H1 (conj H2 _))).
  exact (proj1 (second_pass_rereads_confirmationIndex database neverAborted neverAborted
                  (fst firstPass) (fst secondPass) H0 H1 H2)).
Defined.

Lemma second_pass_not_identical :
  snd firstPass = Ret None /\ snd secondPass = Ret None /\
  Get (fst secondPass) hashT1 <> Get (fst firstPass) hashT1.
Proof.
  split; [vm_compute; reflexivity|]. split; [vm_compute; reflexivity|].
  vm_compute. intros H. discriminate H.
Qed.

(** The same re-reading is reached without bypassing the version check:
    a cancelled pass leaves rewritten records behind an unchanged version. *)
Lemma restart_after_cancellation :
  snd cancelledPass = Ret (Some ErrOperationAborted) /\
  lookup hashT1 (entries (fst cancelledPass)) = lookup hashT1 (entries (fst firstPass)) /\
  lookup hashT3 (entries (fst cancelledPass)) = Some (legacyRecord x01 0) /\
  snd restartedPass = Ret None /\
  lookup hashT1 (entries (fst restartedPass)) <> lookup hashT1 (entries (fst firstPass)) /\
  lookup hashT3 (entries (fst restartedPass)) = lookup hashT3 (entries (fst firstPass)).
Proof.
  repeat split; try (vm_compute; reflexivity).
  vm_compute. discriminate.
Qed.

Lemma sample_bundleHashesSized : bundleHashesSized.
Proof.
  intros h data tx H. cbn in H. unfold parseTransaction in H.
  destruct data as [|tag [|t0 [|t1 [|t2 [|t3 [|flags rest]]]]]]; try discriminate.
  destruct (Uint32 [t0; t1; t2; t3]); [|discriminate].
  destruct (Nat.eqb_spec (length rest) 147) as [Hlen|]; [|discriminate].
  apply (f_equal (fun r => match r with
                           | inl t => length (txBundleHash t)
                           | inr _ => HashSize
                           end)) in H.
  cbn [txBundleHash] in H. rewrite <- H, length_skipn, Hlen. reflexivity.
Qed.

Lemma scan_resolves_witness :
  scanBundleTails neverAborted database 1 None hashB = (mkScanState 2 7 None, Ret None) /\
  exists m, Unmarshal (NewTransactionMetadata hashT3)
              (nth 2 (map snd (entries (fst firstPass))) []) = Ret m /\
            milestoneIndex m = 7 /\ IsMilestone m = true.
Proof.
  assert (Hmt : milestoneTail database (hashB ++ [x01] ++ hashT2) tailT2).
  { exists hashT2, (x01 :: hashB), (mkBundle hashB hashT2 true),
      (encodeTransaction "G" 1000 x02 hashTrunk hashBranch hashB).
    repeat split; try (vm_compute; reflexivity). discriminate. }
  assert (Hpo : Forall (fun kv : Key * Value => passedOver database (fst kv))
                  [(hashB ++ [x01] ++ hashT1, [])]).
  { constructor; [|constructor].
    exists hashT1. split; [vm_compute; reflexivity|].
    right. exists (x00 :: hashB), (mkBundle hashB hashT1 false).
    repeat split; vm_compute; reflexivity. }
  destruct (scan_resolves_first_milestone_tail neverAborted database 1 None hashB
              [(hashB ++ [x01] ++ hashT1, [])] [] (hashB ++ [x01] ++ hashT2) [] tailT2
              eq_refl eq_refl (fun _ _ => eq_refl) Hpo Hmt) as (Hscan & _ & Hpass).
  split; [exact Hscan|].
  apply (Hpass neverAborted (fst firstPass) sample_bundleHashesSized eq_refl eq_refl
           hashT3 _ hashT3 (encodeTransaction "9" 1000 x01 hashT2 hashBranch hashB)
           (mkTransaction "9"%string 1000 hashT2 hashBranch hashB true false false)).
  - vm_compute. right. right. left. reflexivity.
  - reflexivity.
  - reflexivity.
  - reflexivity.
  - reflexivity.
Defined.

Lemma index_is_not_the_timestamp :
  milestoneTail database (hashB ++ [x01] ++ hashT2) tailT2 /\
  scan_milestoneIndex (fst (scanBundleTails neverAborted database 1 None hashB)) = 7 /\
  txTimestamp tailT2 = 1000 /\
  scan_milestoneIndex (fst (scanBundleTails neverAborted database 1 None hashB))
    <> uint32 (txTimestamp tailT2).
Proof.
  split.
  - exists hashT2, (x01 :: hashB), (mkBundle hashB hashT2 true),
      (encodeTransaction "G" 1000 x02 hashTrunk hashBranch hashB).
    repeat split; try (vm_compute; reflexivity). discriminate.
  - split; [vm_compute; reflexivity|]. split; [reflexivity|].
    vm_compute. discriminate.
Qed.

Lemma BundleTransactionHashes_cap_witness :
  exists i hashes err,
    scanBundleTransactionHashes database hashB [2] = ((i, hashes), Ret err) /\
    BundleTransactionHashes database hashB [2] = Ret hashes /\
    Z.of_nat (length hashes) <= 2 /\ i <= 3.
Proof.
  destruct (BundleTransactionHashes_cap database hashB 2) as (i & hashes & err & H1 & H2 & H3 & _ & H5 & _).
  - vm_compute. repeat constructor.
  - exists i, hashes, err. auto.
Defined.

(** With cap 1 and three member keys the callback runs twice: the second
    key is visited, counted and dropped. *)
Lemma scan_visits_key_after_cap :
  scanBundleTransactionHashes database hashB [1] = ((2, [hashT3]), Ret None) /\
  BundleTransactionHashes database hashB [1] = Ret [hashT3] /\
  ~ (fst (fst (scanBundleTransactionHashes database hashB [1])) <= 1).
Proof.
  split; [vm_compute; reflexivity|]. split; [vm_compute; reflexivity|].
  vm_compute. intros H. apply H. reflexivity.
Qed.

Lemma legacy_backfill_witness :
  Get (metadataStore database) hashT1 = inl (legacyRecord x03 5) /\
  Legacy.TxMetadataOrNil parseLegacyMetadata database hashT1 =
    Ret (Some (Legacy.mkTransactionMetadata hashT1 x13 5 hashTrunk hashBranch hashB)).
Proof.
  assert (HG : Get (metadataStore database) hashT1 = inl (legacyRecord x03 5))
    by (vm_compute; reflexivity).
  split; [exact HG|].
  assert (HF : parseLegacyMetadata hashT1 (legacyRecord x03 5)
               = inl (Legacy.mkTransactionMetadata hashT1 x03 5 [] [] []))
    by (vm_compute; reflexivity).
  destruct (legacy_backfill_iff_trunk_empty parseLegacyMetadata database hashT1 _ _ HG HF)
    as [_ Hempty].
  destruct (Hempty eq_refl) as [Hfill _].
  rewrite (Hfill (mkTransaction "9"%string 900 hashTrunk hashBranch hashB false true false));
    vm_compute; reflexivity.
Defined.

Lemma Marshal_fixed_layout_witness :
  validMetadata sampleMetadata /\
  slice (Marshal sampleMetadata) 1 5 = Some [x07; x00; x00; x00] /\
  slice (Marshal sampleMetadata) 5 54 = Some hashTrunk.
Proof.
  assert (Hv : validMetadata sampleMetadata).
  { unfold validMetadata, isUint32. cbn. repeat split; try lia; reflexivity. }
  split; [exact Hv|].
  destruct (Marshal_fixed_layout sampleMetadata) as (_ & _ & H).
  destruct (H Hv) as (_ & H1 & H2 & _).
  split; [exact H1 | exact H2].
Defined.

Lemma point_lookups_witness :
  Get (metadataStore brokenDatabase) hashT1 = inr (ErrEngine "input/output error") /\
  (exists msg, TxMetadataOrNil brokenDatabase hashT1 = Panic msg) /\
  Get (milestoneStore brokenDatabase) (databaseKeyForMilestoneIndex 8) = inr ErrKeyNotFound /\
  MilestoneOrNil brokenDatabase 8 = Ret None.
Proof.
  assert (H1 : Get (metadataStore brokenDatabase) hashT1 = inr (ErrEngine "input/output error"))
    by (vm_compute; reflexivity).
  assert (H2 : Get (milestoneStore brokenDatabase) (databaseKeyForMilestoneIndex 8)
               = inr ErrKeyNotFound) by (vm_compute; reflexivity).
  destruct (point_lookups_absent_or_fatal brokenDatabase) as [HT HM].
  refine (conj H1 (conj _ (conj H2 _))).
  - exact (proj2 (HT _ _ H1) eq_refl).
  - exact (proj1 (HM _ _ H2) eq_refl).
Defined.

Lemma supported_upgrade_witness :
  ~ (3 = 2 /\ 2 = 3) /\
  supportedDatabaseVersionUpgradeFunc 3 2 = Some (Errorf "unsupported database version migration").
Proof.
  assert (H : ~ (3 = 2 /\ 2 = 3)) by (intros [H _]; discriminate H).
  split; [exact H|].
  exact (proj1 (proj2 (supported_upgrade_iff 3 2) H)).
Defined.

Lemma MilestoneTimestamp_witness :
  MilestoneTimestamp database 7 = Ret (inl 1000).
Proof.
  refine (proj2 (MilestoneTimestamp_error_iff_absent database 7) hashT2 hashT2
            (encodeTransaction "G" 1000 x02 hashTrunk hashBranch hashB) tailT2 _ _ _ _);
    vm_compute; reflexivity.
Defined.

Lemma migrated_record_witness :
  migrateConsumer neverAborted database freshState hashT1 (legacyRecord x03 5)
    = (fst (migrateConsumer neverAborted database freshState hashT1 (legacyRecord x03 5)), Continue) /\
  exists v m,
    lookup hashT1 (entries (mig_store (fst (migrateConsumer neverAborted database freshState
                                               hashT1 (legacyRecord x03 5))))) = Some v /\
    Unmarshal (NewTransactionMetadata hashT1) v = Ret m /\
    (milestoneIndex m <> 0 <-> IsMilestone m = true).
Proof.
  assert (H : migrateConsumer neverAborted database freshState hashT1 (legacyRecord x03 5)
    = (fst (migrateConsumer neverAborted database freshState hashT1 (legacyRecord x03 5)), Continue))
    by (vm_compute; reflexivity).
  split; [exact H|].
  destruct (migrated_record_fields neverAborted database freshState _ hashT1 _ H (Forall_nil _))
    as (h & lm & cb & ci & td & tx & mck & st1 & ms & v & m & Hh & _ & _ & _ & _ & _ & _ & _
        & Hv & _ & Hm & _ & _ & _ & _ & _ & _ & _ & _ & _ & _ & Hiff).
  assert (Eh : Some h = Some hashT1) by (rewrite <- Hh; vm_compute; reflexivity).
  injection Eh as ->. exists v, m. auto.
Defined.

(* ===================================================================== *)
(** * Further properties *)
(* ===================================================================== *)

(* ===================================================================== *)
(** ** The record codec in both directions *)
(* ===================================================================== *)

Lemma list_take {A : Type} (n : nat) (l : list A) :
  (n <= length l)%nat ->
  exists a b, l = a ++ b /\ length a = n /\ length b = (length l - n)%nat.
Proof.
  intros H. exists (firstn n l), (skipn n l).
  rewrite firstn_skipn, length_firstn, length_skipn. repeat split; lia.
Qed.

Lemma firstn_prefix {A : Type} (a rest : list A) (n : nat) :
  length a = n -> firstn n (a ++ rest) = a.
Proof.
  intros <-. rewrite firstn_app, firstn_all, Nat.sub_diag, firstn_O. apply app_nil_r.
Qed.

Lemma Uint32_some_length (b : bytes) (v : Z) : Uint32 b = Some v -> (4 <= length b)%nat.
Proof.
  destruct b as [|b0 [|b1 [|b2 [|b3 r]]]]; cbn [Uint32]; try discriminate.
  intros _. cbn [length]. lia.
Qed.

Lemma Uint32_length_some (b : bytes) : (4 <= length b)%nat -> exists v, Uint32 b = Some v.
Proof.
  destruct b as [|b0 [|b1 [|b2 [|b3 r]]]]; cbn [length]; try lia.
  intros _. eexists. reflexivity.
Qed.

Lemma Uint32_app (b rest : bytes) : length b = 4%nat -> Uint32 (b ++ rest) = Uint32 b.
Proof.
  destruct b as [|b0 [|b1 [|b2 [|b3 [|b4 r]]]]]; cbn [length]; try lia.
  intros _. reflexivity.
Qed.

Lemma PutUint32_Uint32_4 (b : bytes) (v : Z) :
  length b = 4%nat -> Uint32 b = Some v -> PutUint32 (uint32 v) = b.
Proof.
  destruct b as [|b0 [|b1 [|b2 [|b3 [|b4 r]]]]]; cbn [length]; try lia.
  intros _ H. apply (PutUint32_Uint32 _ _ _ _ _ _ H).
Qed.

Lemma slice_some (s : bytes) (lo hi : nat) :
  (lo <= hi)%nat -> (hi <= length s)%nat ->
  slice s lo hi = Some (firstn (hi - lo) (skipn lo s)).
Proof.
  intros H1 H2. unfold slice.
  rewrite (proj2 (Nat.leb_le _ _) H1), (proj2 (Nat.leb_le _ _) H2). reflexivity.
Qed.

Lemma slice_none (s : bytes) (lo hi : nat) :
  (length s < hi)%nat -> slice s lo hi = None.
Proof.
  intros H. unfold slice.
  rewrite (proj2 (Nat.leb_gt _ _) H), andb_false_r. reflexivity.
Qed.

Lemma slice_inv (s r : bytes) (lo hi : nat) :
  slice s lo hi = Some r ->
  (lo <= hi)%nat /\ (hi <= length s)%nat /\ r = firstn (hi - lo) (skipn lo s).
Proof.
  unfold slice. intros H.
  destruct (Nat.leb_spec lo hi); [|discriminate].
  destruct (Nat.leb_spec hi (length s)); [|discriminate].
  cbn [andb] in H. repeat split; try assumption. congruence.
Qed.

(** Every record of at least 156 bytes splits into the six fields and
    what follows them. *)
Lemma record_fields (data : bytes) :
  (156 <= length data)%nat ->
  exists md ci4 t b u ms4 rest,
    data = [md] ++ ci4 ++ t ++ b ++ u ++ ms4 ++ rest /\
    length ci4 = 4%nat /\ length t = 49%nat /\ length b = 49%nat /\
    length u = 49%nat /\ length ms4 = 4%nat.
Proof.
  intros H.
  destruct data as [|md d1]; [cbn [length] in H; lia|]. cbn [length] in H.
  destruct (list_take 4 d1) as (ci4 & d2 & -> & Lci & L2); [lia|].
  rewrite length_app in H.
  destruct (list_take 49 d2) as (t & d3 & -> & Lt & L3); [lia|].
  rewrite length_app in H.
  destruct (list_take 49 d3) as (b & d4 & -> & Lb & L4); [lia|].
  rewrite length_app in H.
  destruct (list_take 49 d4) as (u & d5 & -> & Lu & L5); [lia|].
  rewrite length_app in H.
  destruct (list_take 4 d5) as (ms4 & rest & -> & Lms & _); [lia|].
  exists md, ci4, t, b, u, ms4, rest. repeat split; assumption.
Qed.

Lemma Unmarshal_record (m0 : TransactionMetadata) (md : byte) (ci4 t b u ms4 rest : bytes) :
  length ci4 = 4%nat -> length t = 49%nat -> length b = 49%nat ->
  length u = 49%nat -> length ms4 = 4%nat ->
  exists ci ms,
    Uint32 ci4 = Some ci /\ Uint32 ms4 = Some ms /\
    Unmarshal m0 ([md] ++ ci4 ++ t ++ b ++ u ++ ms4 ++ rest) =
      Ret (mkTransactionMetadata (txHash m0) md ci t b u ms).
Proof.
  intros Lci Lt Lb Lu Lms.
  destruct (Uint32_length_some ci4) as [ci Eci]; [lia|].
  destruct (Uint32_length_some ms4) as [ms Ems]; [lia|].
  exists ci, ms. repeat split; try assumption.
  apply Unmarshal_fields; try assumption.
  rewrite Uint32_app; assumption.
Qed.

Lemma Unmarshal_ret_length (m0 m : TransactionMetadata) (data : bytes) :
  Unmarshal m0 data = Ret m -> (156 <= length data)%nat.
Proof.
  unfold Unmarshal. cbv zeta. intros H.
  repeat match type of H with
         | context [optExec _ ?o] =>
             lazymatch o with
             | context [optExec] => fail
             | _ => destruct o eqn:?; cbn [optExec bindExec] in H; [|discriminate]
             end
         end.
  match goal with
  | [ E : sliceFrom data _ = Some ?r, U : Uint32 ?r = Some _ |- _ ] =>
      apply Uint32_some_length in U; unfold sliceFrom in E;
      apply slice_inv in E; destruct E as (E1 & _ & ->)
  end.
  change (1 + IndexByteSize + 3 * HashSize)%nat with 152%nat in *.
  rewrite length_firstn, length_skipn in *. lia.
Qed.

(** X1.  [Unmarshal] accepts a record exactly when it has at least 156
    bytes (a shorter one is a panic, never an error), and it reads nothing
    past the first 156 bytes. *)
Theorem Unmarshal_accepts_iff_156 (m0 : TransactionMetadata) (data : bytes) :
  ((exists m, Unmarshal m0 data = Ret m) <-> (TransactionMetadataSize <= length data)%nat) /\
  ((length data < TransactionMetadataSize)%nat -> exists msg, Unmarshal m0 data = Panic msg) /\
  ((TransactionMetadataSize <= length data)%nat ->
   Unmarshal m0 data = Unmarshal m0 (firstn TransactionMetadataSize data)).
Proof.
  change TransactionMetadataSize with 156%nat.
  assert (Hacc : (156 <= length data)%nat -> exists m, Unmarshal m0 data = Ret m).
  { intros H. destruct (record_fields data H) as (md & ci4 & t & b & u & ms4 & rest & -> & L).
    destruct L as (Lci & Lt & Lb & Lu & Lms).
    destruct (Unmarshal_record m0 md ci4 t b u ms4 rest Lci Lt Lb Lu Lms) as (ci & ms & _ & _ & E).
    eexists. exact E. }
  refine (conj _ (conj _ _)).
  - split; [intros [m H]; exact (Unmarshal_ret_length _ _ _ H) | exact Hacc].
  - intros H. destruct (Unmarshal m0 data) as [m|msg] eqn:E.
    + apply Unmarshal_ret_length in E. lia.
    + exists msg. reflexivity.
  - intros H. destruct (record_fields data H) as (md & ci4 & t & b & u & ms4 & rest & -> & L).
    destruct L as (Lci & Lt & Lb & Lu & Lms).
    destruct (Unmarshal_record m0 md ci4 t b u ms4 rest Lci Lt Lb Lu Lms) as (ci & ms & Eci & Ems & E).
    rewrite E.
    replace (firstn 156 ([md] ++ ci4 ++ t ++ b ++ u ++ ms4 ++ rest))
      with ([md] ++ ci4 ++ t ++ b ++ u ++ ms4).
    + symmetry. apply Unmarshal_fields; assumption.
    + replace ([md] ++ ci4 ++ t ++ b ++ u ++ ms4 ++ rest)
        with (([md] ++ ci4 ++ t ++ b ++ u ++ ms4) ++ rest)
        by (rewrite <- !app_assoc; reflexivity).
      symmetry. apply firstn_prefix. rewrite !length_app. cbn [length]. lia.
Qed.

Lemma decode_encode_fields (m0 m : TransactionMetadata) :
  validMetadata m ->
  Unmarshal m0 (Marshal m) =
    Ret (mkTransactionMetadata (txHash m0) (metadata m) (confirmationIndex m)
           (trunkHash m) (branchHash m) (bundleHash m) (milestoneIndex m)).
Proof.
  intros (Hci & Hms & Ht & Hb & Hu).
  rewrite Unmarshal_Marshal, !uint32_small, !fitTo_exact by assumption. reflexivity.
Qed.

(** X2.  Decoding what [Marshal] has written gives back every field of a
    value of the data model, whatever follows the record; the transaction
    hash is not part of the record and stays the receiver's. *)
Theorem Unmarshal_after_Marshal (m0 m : TransactionMetadata) (rest : bytes) :
  validMetadata m ->
  Unmarshal m0 (Marshal m ++ rest) =
    Ret (mkTransactionMetadata (txHash m0) (metadata m) (confirmationIndex m)
           (trunkHash m) (branchHash m) (bundleHash m) (milestoneIndex m)).
Proof.
  intros (Hci & Hms & Ht & Hb & Hu).
  rewrite Marshal_layout, <- !app_assoc.
  rewrite (fitTo_exact 49 (trunkHash m)), (fitTo_exact 49 (branchHash m)),
    (fitTo_exact 49 (bundleHash m)) by assumption.
  apply Unmarshal_fields; try assumption; try reflexivity.
  - rewrite Uint32_PutUint32.
    rewrite !(uint32_small (confirmationIndex m)) by assumption. reflexivity.
  - rewrite Uint32_app by reflexivity.
    rewrite Uint32_PutUint32.
    rewrite !(uint32_small (milestoneIndex m)) by assumption. reflexivity.
Qed.

(** X3.  Encoding what [Unmarshal] has read reproduces the first 156
    bytes of the record, so a record of exactly 156 bytes is reproduced
    byte for byte; what [Unmarshal] returns is always a value of the data
    model. *)
Theorem Marshal_after_Unmarshal (m0 m : TransactionMetadata) (data : bytes) :
  Unmarshal m0 data = Ret m ->
  Marshal m = firstn TransactionMetadataSize data /\
  validMetadata m /\
  (length data = TransactionMetadataSize -> Marshal m = data).
Proof.
  intros H. pose proof (Unmarshal_ret_length _ _ _ H) as Hlen.
  change TransactionMetadataSize with 156%nat.
  destruct (record_fields data Hlen) as (md & ci4 & t & b & u & ms4 & rest & -> & L).
  destruct L as (Lci & Lt & Lb & Lu & Lms).
  destruct (Unmarshal_record m0 md ci4 t b u ms4 rest Lci Lt Lb Lu Lms) as (ci & ms & Eci & Ems & E).
  assert (Hm : m = mkTransactionMetadata (txHash m0) md ci t b u ms) by congruence.
  assert (HM : Marshal m = [md] ++ ci4 ++ t ++ b ++ u ++ ms4).
  { rewrite Marshal_layout, Hm. cbn [metadata confirmationIndex trunkHash branchHash
      bundleHash milestoneIndex].
    rewrite (PutUint32_Uint32_4 ci4 ci), (PutUint32_Uint32_4 ms4 ms) by assumption.
    rewrite !fitTo_exact by assumption. reflexivity. }
  assert (HF : firstn 156 ([md] ++ ci4 ++ t ++ b ++ u ++ ms4 ++ rest)
               = [md] ++ ci4 ++ t ++ b ++ u ++ ms4).
  { replace ([md] ++ ci4 ++ t ++ b ++ u ++ ms4 ++ rest)
      with (([md] ++ ci4 ++ t ++ b ++ u ++ ms4) ++ rest)
      by (rewrite <- !app_assoc; reflexivity).
    apply firstn_prefix. rewrite !length_app. cbn [length]. lia. }
  refine (conj _ (conj _ _)).
  - rewrite HF. exact HM.
  - rewrite Hm. unfold validMetadata. cbn [confirmationIndex milestoneIndex trunkHash
      branchHash bundleHash].
    repeat split; try assumption;
      try (apply (Uint32_range _ _ Eci)); try (apply (Uint32_range _ _ Ems)).
  - intros Hl. rewrite HM, <- HF, <- Hl. apply firstn_all.
Qed.

(** X4.  On values of the data model [Marshal] is injective up to the
    transaction hash, which it does not write: two values have the same
    record exactly when they agree on the bit mask, both indices and the
    three hashes. *)
Theorem Marshal_injective_up_to_txHash (m1 m2 : TransactionMetadata) :
  validMetadata m1 -> validMetadata m2 ->
  (Marshal m1 = Marshal m2 <->
   metadata m1 = metadata m2 /\ confirmationIndex m1 = confirmationIndex m2 /\
   trunkHash m1 = trunkHash m2 /\ branchHash m1 = branchHash m2 /\
   bundleHash m1 = bundleHash m2 /\ milestoneIndex m1 = milestoneIndex m2).
Proof.
  intros H1 H2. split.
  - intros E.
    pose proof (decode_encode_fields m1 m1 H1) as U1.
    pose proof (decode_encode_fields m1 m2 H2) as U2.
    rewrite E in U1. rewrite U1 in U2.
    assert (E' : mkTransactionMetadata (txHash m1) (metadata m1) (confirmationIndex m1)
                   (trunkHash m1) (branchHash m1) (bundleHash m1) (milestoneIndex m1)
                 = mkTransactionMetadata (txHash m1) (metadata m2) (confirmationIndex m2)
                   (trunkHash m2) (branchHash m2) (bundleHash m2) (milestoneIndex m2))
      by congruence.
    refine (conj _ (conj _ (conj _ (conj _ (conj _ _))))).
    + exact (f_equal metadata E').
    + exact (f_equal confirmationIndex E').
    + exact (f_equal trunkHash E').
    + exact (f_equal branchHash E').
    + exact (f_equal bundleHash E').
    + exact (f_equal milestoneIndex E').
  - intros (Em & Eci & Et & Eb & Eu & Ems).
    rewrite !Marshal_layout, Em, Eci, Et, Eb, Eu, Ems. reflexivity.
Qed.

(* ===================================================================== *)
(** ** The legacy record *)
(* ===================================================================== *)

Lemma Uint32_firstn (l : bytes) : Uint32 (firstn 4 l) = Uint32 l.
Proof.
  destruct l as [|b0 [|b1 [|b2 [|b3 r]]]]; reflexivity.
Qed.

Lemma legacy_Unmarshal_short (m0 : Legacy.TransactionMetadata) (data : bytes) :
  (length data < 9)%nat -> exists msg, Legacy.Unmarshal m0 data = Panic msg.
Proof.
  intros H. unfold Legacy.Unmarshal.
  destruct (nth_error data 0); cbn [optExec bindExec]; [|eexists; reflexivity].
  rewrite slice_none by assumption. cbn [optExec bindExec]. eexists; reflexivity.
Qed.

Lemma legacy_Unmarshal_long (m0 : Legacy.TransactionMetadata) (data : bytes) :
  (9 <= length data)%nat ->
  exists mask ci t b u,
    nth_error data 0 = Some mask /\
    Uint32 (firstn 4 (skipn 5 data)) = Some ci /\
    Legacy.Unmarshal m0 data = Ret (Legacy.mkTransactionMetadata (Legacy.txHash m0) mask ci t b u) /\
    ((length data = 168)%nat ->
       t = firstn 49 (skipn 21 data) /\ b = firstn 49 (skipn 70 data) /\
       u = firstn 49 (skipn 119 data)) /\
    ((length data <> 168)%nat ->
       t = Legacy.trunkHash m0 /\ b = Legacy.branchHash m0 /\ u = Legacy.bundleHash m0).
Proof.
  intros H. unfold Legacy.Unmarshal.
  destruct data as [|mask d] eqn:Ed; [cbn [length] in H; lia|]. rewrite <- Ed in *.
  assert (Hn : nth_error data 0 = Some mask) by (rewrite Ed; reflexivity).
  rewrite Hn. cbn [optExec bindExec].
  rewrite slice_some by lia. cbn [optExec bindExec].
  change (9 - 5)%nat with 4%nat.
  destruct (Uint32_length_some (firstn 4 (skipn 5 data))) as [ci Eci].
  { rewrite length_firstn, length_skipn. lia. }
  rewrite Eci. cbn [optExec bindExec].
  cbn [Legacy.txHash Legacy.metadata Legacy.confirmationIndex Legacy.trunkHash
       Legacy.branchHash Legacy.bundleHash].
  destruct (Nat.ltb_spec 17 (length data)) as [H17|H17].
  - destruct (Nat.eqb_spec (length data) (21 + 49 + 49 + 49)) as [H168|H168].
    + rewrite !slice_some by lia. cbn [optExec bindExec].
      eexists mask, ci, _, _, _. refine (conj eq_refl (conj eq_refl (conj eq_refl (conj _ _)))).
      * intros _. repeat split.
      * intros Hne. exfalso. apply Hne. rewrite H168. reflexivity.
    + eexists mask, ci, _, _, _. refine (conj eq_refl (conj eq_refl (conj eq_refl (conj _ _)))).
      * intros He. exfalso. apply H168. rewrite He. reflexivity.
      * intros _. repeat split.
  - eexists mask, ci, _, _, _. refine (conj eq_refl (conj eq_refl (conj eq_refl (conj _ _)))).
    + intros He. lia.
    + intros _. repeat split.
Qed.

(** X5.  The legacy [Unmarshal] accepts a record exactly when it has at
    least 9 bytes; it takes the bit mask from byte 0 and the confirmation
    index from bytes 5..8, and it reads the three hashes only from a
    record of exactly 168 bytes: for every other length, the 156 bytes of
    a version 3 record included, the hashes of the receiver are kept. *)
Theorem legacy_Unmarshal_hashes_only_at_168 (m0 : Legacy.TransactionMetadata) (data : bytes) :
  ((length data < 9)%nat -> exists msg, Legacy.Unmarshal m0 data = Panic msg) /\
  ((9 <= length data)%nat ->
   exists m,
     Legacy.Unmarshal m0 data = Ret m /\
     Legacy.txHash m = Legacy.txHash m0 /\
     nth_error data 0 = Some (Legacy.metadata m) /\
     Uint32 (firstn 4 (skipn 5 data)) = Some (Legacy.confirmationIndex m) /\
     ((length data = 168)%nat ->
        Legacy.trunkHash m = firstn 49 (skipn 21 data) /\
        Legacy.branchHash m = firstn 49 (skipn 70 data) /\
        Legacy.bundleHash m = firstn 49 (skipn 119 data)) /\
     ((length data <> 168)%nat ->
        Legacy.trunkHash m = Legacy.trunkHash m0 /\
        Legacy.branchHash m = Legacy.branchHash m0 /\
        Legacy.bundleHash m = Legacy.bundleHash m0)).
Proof.
  split; [apply legacy_Unmarshal_short|].
  intros H.
  destruct (legacy_Unmarshal_long m0 data H) as (mask & ci & t & b & u & Hn & Hci & E & H168 & Hne).
  eexists. split; [exact E|]. cbn. auto.
Qed.

(** X6.  [SetAdditionalTxInfo] sets the head, tail and value bits to the
    given flags and leaves the solid, confirmed and conflicting bits, the
    confirmation index and the transaction hash as they were. *)
Theorem SetAdditionalTxInfo_keeps_confirmation (m : Legacy.TransactionMetadata)
    (trunk branch bundle : Hash) (isHead isTail isValue : bool) :
  let m' := Legacy.SetAdditionalTxInfo m trunk branch bundle isHead isTail isValue in
  HasBit (Legacy.metadata m') TransactionMetadataIsHead = isHead /\
  Legacy.IsTail m' = isTail /\
  HasBit (Legacy.metadata m') TransactionMetadataIsValue = isValue /\
  HasBit (Legacy.metadata m') TransactionMetadataSolid
    = HasBit (Legacy.metadata m) TransactionMetadataSolid /\
  Legacy.ConfirmedWithIndex m' = Legacy.ConfirmedWithIndex m /\
  Legacy.IsConflicting m' = Legacy.IsConflicting m /\
  Legacy.TxHash m' = Legacy.TxHash m /\
  Legacy.TrunkHash m' = trunk /\ Legacy.BranchHash m' = branch /\ Legacy.BundleHash m' = bundle.
Proof.
  set (P := fun b => forallb (fun h => forallb (fun t => forallb (fun v =>
    let x := ModifyBit (ModifyBit (ModifyBit b TransactionMetadataIsHead h)
               TransactionMetadataIsTail t) TransactionMetadataIsValue v in
    Bool.eqb (HasBit x TransactionMetadataIsHead) h &&
    Bool.eqb (HasBit x TransactionMetadataIsTail) t &&
    Bool.eqb (HasBit x TransactionMetadataIsValue) v &&
    Bool.eqb (HasBit x TransactionMetadataSolid) (HasBit b TransactionMetadataSolid) &&
    Bool.eqb (HasBit x TransactionMetadataConfirmed) (HasBit b TransactionMetadataConfirmed) &&
    Bool.eqb (HasBit x TransactionMetadataConflicting) (HasBit b TransactionMetadataConflicting))
    bools) bools) bools).
  assert (HP : forall b, P b = true) by (apply byte_forall; vm_compute; reflexivity).
  specialize (HP (Legacy.metadata m)). unfold P in HP.
  pose proof (bool_forall _ HP isHead) as H1. cbv beta in H1.
  pose proof (bool_forall _ H1 isTail) as H2. cbv beta in H2.
  pose proof (bool_forall _ H2 isValue) as H3. cbv beta zeta in H3.
  repeat (apply andb_true_iff in H3; destruct H3 as [H3 ?]).
  repeat match goal with H : Bool.eqb _ _ = true |- _ => apply Bool.eqb_prop in H end.
  cbv zeta.
  unfold Legacy.IsTail, Legacy.ConfirmedWithIndex, Legacy.IsConflicting, Legacy.TxHash,
    Legacy.TrunkHash, Legacy.BranchHash, Legacy.BundleHash, Legacy.SetAdditionalTxInfo.
  cbn [Legacy.metadata Legacy.confirmationIndex Legacy.txHash Legacy.trunkHash
       Legacy.branchHash Legacy.bundleHash].
  refine (conj _ (conj _ (conj _ (conj _ (conj _ (conj _ _)))))); try assumption.
  - f_equal. assumption.
  - repeat split.
Qed.

Section LegacyAgreement.
Context {C : Collaborators}.
Variable ctx : Ctx.
Variable db : Database.

(** X7.  Whenever the callback of the pass has written a record, the
    legacy [Unmarshal] accepts the record it read, and the written record
    answers [ConfirmedWithIndex], [IsConflicting] and [IsSolid] as the
    legacy record did: the pass and the legacy decoder read the same bit
    mask and the same confirmation index. *)
Theorem migrated_record_answers_as_legacy (st st' : MigState) (key : Key) (data : Value) :
  migrateConsumer ctx db st key data = (st', Continue) ->
  exists h legacy v m,
    slice key 0 HashSize = Some h /\
    Legacy.Unmarshal (Legacy.NewTransactionMetadata h) data = Ret legacy /\
    lookup key (entries (mig_store st')) = Some v /\
    Unmarshal (NewTransactionMetadata h) v = Ret m /\
    txHash m = Legacy.TxHash legacy /\
    ConfirmedWithIndex m = Legacy.ConfirmedWithIndex legacy /\
    IsConflicting m = Legacy.IsConflicting legacy /\
    IsSolid m = HasBit (Legacy.metadata legacy) TransactionMetadataSolid.
Proof.
  intros H.
  destruct (migrateConsumer_continue _ _ _ _ _ _ H)
    as (h & legacyMask & ciBytes & ci & txData & tx & mck & st1 & ms &
        Hh & Hmask & Hci & Eci & _ & _ & _ & _ & HSet & _).
  assert (Hlen : (9 <= length data)%nat).
  { unfold sliceFrom in Hci. apply slice_inv in Hci. destruct Hci as (_ & _ & ->).
    apply Uint32_some_length in Eci. rewrite length_firstn, length_skipn in Eci.
    change (1 + IndexByteSize)%nat with 5%nat in Eci. lia. }
  destruct (legacy_Unmarshal_long (Legacy.NewTransactionMetadata h) data Hlen)
    as (mask & ci' & t & b & u & Hn & Hci' & E & _).
  assert (mask = legacyMask) as -> by congruence.
  assert (ci' = ci) as ->.
  { unfold sliceFrom in Hci. apply slice_inv in Hci. destruct Hci as (_ & _ & ->).
    change (1 + IndexByteSize)%nat with 5%nat in Eci.
    rewrite Uint32_firstn in Hci'.
    rewrite firstn_all2 in Eci by (rewrite length_skipn; lia). congruence. }
  unfold Set_ in HSet. destruct (setFault (mig_store st) key); [discriminate|].
  assert (He : entries (mig_store st')
               = put key (Marshal (migratedMetadata h legacyMask ci tx ms)) (entries (mig_store st))).
  { assert (E' : mig_store st' = mkKVStore
        (put key (Marshal (migratedMetadata h legacyMask ci tx ms)) (entries (mig_store st)))
        (getFault (mig_store st)) (setFault (mig_store st)) (iterFault (mig_store st)))
      by congruence.
    rewrite E'. reflexivity. }
  pose proof (migrationMask_bits legacyMask (txIsHead tx) (txIsTail tx) (txIsValue tx)
                (negb (ms =? 0))) as HB.
  cbv zeta in HB. destruct HB as (_ & _ & _ & _ & HSolid & HConf & HConfl).
  eexists h, _, _, _.
  refine (conj Hh (conj E (conj _ (conj (Unmarshal_Marshal _ _) _)))).
  - rewrite He. apply lookup_put_same.
  - unfold ConfirmedWithIndex, IsConflicting, IsSolid, Legacy.ConfirmedWithIndex,
      Legacy.IsConflicting, Legacy.TxHash.
    cbn [metadata confirmationIndex txHash Legacy.metadata Legacy.confirmationIndex
         Legacy.txHash migratedMetadata NewTransactionMetadata Legacy.NewTransactionMetadata].
    fold (migrationMask legacyMask (txIsHead tx) (txIsTail tx) (txIsValue tx) (negb (ms =? 0))).
    rewrite HSolid, HConf, HConfl.
    rewrite (uint32_small ci) by (apply (Uint32_range _ _ Eci)).
    repeat split.
Qed.
End LegacyAgreement.

(* ===================================================================== *)
(** ** Milestone keys and records *)
(* ===================================================================== *)

(** X8.  The key of a milestone has four bytes and decodes to the index it
    was built from; two indices have the same key exactly when they are
    the same [uint32]; a key shorter than four bytes cannot be decoded,
    and of a longer one only the first four bytes count. *)
Theorem milestone_key_codec (i j : Index) (key : bytes) :
  length (databaseKeyForMilestoneIndex i) = 4%nat /\
  milestoneIndexFromDatabaseKey (databaseKeyForMilestoneIndex i) = Ret (uint32 i) /\
  (databaseKeyForMilestoneIndex i = databaseKeyForMilestoneIndex j <-> uint32 i = uint32 j) /\
  ((length key < 4)%nat -> exists msg, milestoneIndexFromDatabaseKey key = Panic msg) /\
  ((4 <= length key)%nat ->
   exists v, milestoneIndexFromDatabaseKey key = Ret v /\ isUint32 v /\
             databaseKeyForMilestoneIndex v = firstn 4 key).
Proof.
  assert (HU : forall v, Uint32 (PutUint32 (uint32 v)) = Some (uint32 v)).
  { intros v. rewrite Uint32_PutUint32. unfold uint32. rewrite Z.mod_mod by lia. reflexivity. }
  refine (conj _ (conj _ (conj _ (conj _ _)))).
  - rewrite databaseKeyForMilestoneIndex_eq. reflexivity.
  - rewrite databaseKeyForMilestoneIndex_eq. unfold milestoneIndexFromDatabaseKey.
    rewrite HU. reflexivity.
  - rewrite !databaseKeyForMilestoneIndex_eq. split.
    + intros E. pose proof (HU i) as Hi. rewrite E, HU in Hi. congruence.
    + intros ->. reflexivity.
  - intros H. unfold milestoneIndexFromDatabaseKey.
    destruct (Uint32 key) eqn:E; [apply Uint32_some_length in E; lia|].
    eexists; reflexivity.
  - intros H. unfold milestoneIndexFromDatabaseKey.
    destruct key as [|b0 [|b1 [|b2 [|b3 r]]]]; cbn [length] in H; try lia.
    destruct (Uint32 (b0 :: b1 :: b2 :: b3 :: r)) as [v|] eqn:E; [|discriminate].
    exists v. refine (conj eq_refl (conj (Uint32_range _ _ E) _)).
    rewrite databaseKeyForMilestoneIndex_eq. apply (PutUint32_Uint32 _ _ _ _ _ _ E).
Qed.

(** X9.  When the milestone realm holds a record for the index,
    [MilestoneOrNil] returns the requested index (as a [uint32]) with the
    first 49 bytes of the record as the hash of the milestone tail; a
    record shorter than 49 bytes is a panic. *)
Theorem MilestoneOrNil_found (db : Database) (i : Index) (data : Value) :
  Get (milestoneStore db) (databaseKeyForMilestoneIndex i) = inl data ->
  ((HashSize <= length data)%nat ->
   MilestoneOrNil db i = Ret (Some (mkMilestone (uint32 i) (firstn HashSize data)))) /\
  ((length data < HashSize)%nat -> exists msg, MilestoneOrNil db i = Panic msg).
Proof.
  intros H. unfold MilestoneOrNil. rewrite H. unfold milestoneFactory.
  rewrite milestoneIndexFromDatabaseKey_key. cbn [bindExec]. split; intros Hl.
  - rewrite slice_some by lia. reflexivity.
  - rewrite slice_none by assumption. eexists; reflexivity.
Qed.

(* ===================================================================== *)
(** ** The scans of the bundle-transactions realm *)
(* ===================================================================== *)

Lemma collect_uncapped (l : list (Key * Value)) (i : Z) (acc : Hashes) :
  Forall (fun kv => (99 <= length (fst kv))%nat) l ->
  iterate (fun st key _ => collectBundleTransactionHash [] st key) l (i, acc) =
    ((i + Z.of_nat (length l), acc ++ map (fun kv => txHashOfKey (fst kv)) l), None).
Proof.
  revert i acc. induction l as [|[key v] l IH]; intros i acc Hl.
  - cbn. rewrite Z.add_0_r, app_nil_r. reflexivity.
  - inversion Hl as [|? ? Hkey Hl']; subst. cbn [fst] in Hkey.
    cbn [iterate]. unfold collectBundleTransactionHash at 1.
    cbn [fst snd length Nat.ltb Nat.leb hd andb].
    rewrite slice_txHashOfKey by assumption.
    rewrite IH by assumption.
    cbn [map fst length]. rewrite <- app_assoc. cbn [app].
    f_equal. f_equal. lia.
Qed.

Lemma collect_uncapped_short (pre post : list (Key * Value)) (key : Key) (v : Value)
    (i : Z) (acc : Hashes) :
  Forall (fun kv => (99 <= length (fst kv))%nat) pre ->
  (length key < 99)%nat ->
  exists st,
    iterate (fun st key _ => collectBundleTransactionHash [] st key)
      (pre ++ (key, v) :: post) (i, acc) = (st, Some "slice bounds out of range"%string).
Proof.
  revert i acc. induction pre as [|[k0 v0] pre IH]; intros i acc Hpre Hkey.
  - cbn [app iterate]. unfold collectBundleTransactionHash at 1.
    cbn [fst snd length Nat.ltb Nat.leb hd andb].
    rewrite slice_none by assumption. eexists. reflexivity.
  - inversion Hpre as [|? ? Hk0 Hpre']; subst. cbn [fst] in Hk0.
    cbn [app iterate]. unfold collectBundleTransactionHash at 1.
    cbn [fst snd length Nat.ltb Nat.leb hd andb].
    rewrite slice_txHashOfKey by assumption.
    apply IH; assumption.
Qed.

Lemma first_short_key (l : list (Key * Value)) :
  Exists (fun kv => (length (fst kv) < 99)%nat) l ->
  exists pre key v post,
    l = pre ++ (key, v) :: post /\
    Forall (fun kv => (99 <= length (fst kv))%nat) pre /\ (length key < 99)%nat.
Proof.
  induction l as [|[k v] l IH]; intros H; [inversion H|].
  destruct (Nat.ltb_spec (length k) 99) as [Hs|Hl].
  - exists [], k, v, l. repeat split; [constructor | assumption].
  - inversion H as [? ? Hh|? ? Ht]; subst; [cbn [fst] in Hh; lia|].
    destruct (IH Ht) as (pre & key & v' & post & -> & Hpre & Hkey).
    exists ((k, v) :: pre), key, v', post. repeat split; [constructor; assumption | assumption].
Qed.

Lemma short_or_long (l : list (Key * Value)) :
  Forall (fun kv => (99 <= length (fst kv))%nat) l \/
  Exists (fun kv => (length (fst kv) < 99)%nat) l.
Proof.
  induction l as [|[k v] l [IH|IH]].
  - left. constructor.
  - destruct (Nat.ltb_spec (length k) 99) as [Hs|Hl].
    + right. constructor. assumption.
    + left. constructor; assumption.
  - right. apply Exists_cons_tl. assumption.
Qed.

Section MoreScans.
Variable db : Database.

(** X10.  Without a cap, and when the engine does not refuse the
    iteration, [BundleTransactionHashes] returns the transaction hash of
    every key under the bundle hash, in iteration order, if all those keys
    have at least 99 bytes; if one of them is shorter the call panics. *)
Theorem BundleTransactionHashes_without_cap (bundleHash : Hash) :
  let matches := withPrefix bundleHash (entries (bundleTransactionsStore db)) in
  iterFault (bundleTransactionsStore db) bundleHash = None ->
  (Forall (fun kv => (99 <= length (fst kv))%nat) matches ->
   BundleTransactionHashes db bundleHash []
     = Ret (map (fun kv => txHashOfKey (fst kv)) matches)) /\
  (Exists (fun kv => (length (fst kv) < 99)%nat) matches ->
   BundleTransactionHashes db bundleHash [] = Panic "slice bounds out of range").
Proof.
  intros matches Hf.
  unfold BundleTransactionHashes, scanBundleTransactionHashes, IterateKeys, Iterate,
    databaseKeyPrefixForBundleHash.
  rewrite Hf. fold matches. split; intros H.
  - rw_iterate (collect_uncapped matches 0 [] H). reflexivity.
  - destruct (first_short_key _ H) as (pre & key & v & post & E & Hpre & Hkey).
    destruct (collect_uncapped_short pre post key v 0 [] Hpre Hkey) as [st Hs].
    rewrite <- E in Hs. rw_iterate Hs. destruct st. reflexivity.
Qed.

(** X11.  A capped call returns a prefix of what the call without a cap
    returns: whenever [BundleTransactionHashes] without a cap returns, the
    call with cap [k] returns the first [k] of those hashes (none for a
    negative cap), whatever further values follow the cap in [maxFind]. *)
Theorem capped_hashes_are_prefix_of_uncapped (bundleHash : Hash) (all : Hashes)
    (k : Z) (more : list Z) :
  BundleTransactionHashes db bundleHash [] = Ret all ->
  BundleTransactionHashes db bundleHash (k :: more) = Ret (firstn (Z.to_nat k) all).
Proof.
  unfold BundleTransactionHashes, scanBundleTransactionHashes, IterateKeys, Iterate,
    databaseKeyPrefixForBundleHash.
  destruct (iterFault (bundleTransactionsStore db) bundleHash).
  - intros H. assert (all = []) as -> by congruence. rewrite firstn_nil. reflexivity.
  - set (matches := withPrefix bundleHash (entries (bundleTransactionsStore db))).
    intros H.
    destruct (short_or_long matches) as [Hl|Hs].
    + rw_iterate_in (collect_uncapped matches 0 [] Hl) H.
      rw_iterate (collect_iterate k more matches 0 [] Hl).
      cbn [app] in H |- *. rewrite Z.sub_0_r.
      assert (all = map (fun kv : Key * Value => txHashOfKey (fst kv)) matches) as -> by congruence.
      reflexivity.
    + exfalso.
      destruct (first_short_key _ Hs) as (pre & key & v & post & E & Hpre & Hkey).
      destruct (collect_uncapped_short pre post key v 0 [] Hpre Hkey) as [st Hp].
      rewrite <- E in Hp. rw_iterate_in Hp H. destruct st. discriminate.
Qed.

Section Visit.
Variable S : Type.
Variable consumer : S -> Hash -> S * bool.

Lemma visit_uncapped (l : list (Key * Value)) (i : Z) (s : S) :
  Forall (fun kv => (99 <= length (fst kv))%nat) l ->
  exists i',
    iterate (fun st key _ => visitBundleTailTransactionHash S consumer [] st key) l (i, s) =
      ((i', consumeWhile S consumer (map (fun kv => txHashOfKey (fst kv)) l) s), None).
Proof.
  revert i s. induction l as [|[key v] l IH]; intros i s Hl.
  - exists i. reflexivity.
  - inversion Hl as [|? ? Hkey Hl']; subst. cbn [fst] in Hkey.
    cbn [iterate map fst consumeWhile]. unfold visitBundleTailTransactionHash at 1.
    cbn [fst snd length Nat.ltb Nat.leb hd andb].
    rewrite slice_txHashOfKey by assumption.
    destruct (consumer s (txHashOfKey key)) as [s' more]. destruct more.
    + apply IH. assumption.
    + eexists. reflexivity.
Qed.

Lemma visit_capped (k : Z) (more : list Z) (l : list (Key * Value)) (i : Z) (s : S) :
  Forall (fun kv => (99 <= length (fst kv))%nat) l ->
  exists i',
    iterate (fun st key _ => visitBundleTailTransactionHash S consumer (k :: more) st key) l (i, s) =
      ((i', consumeWhile S consumer
              (firstn (Z.to_nat (k - i)) (map (fun kv => txHashOfKey (fst kv)) l)) s), None).
Proof.
  revert i s. induction l as [|[key v] l IH]; intros i s Hl.
  - exists i. cbn. rewrite firstn_nil. reflexivity.
  - inversion Hl as [|? ? Hkey Hl']; subst. cbn [fst] in Hkey.
    cbn [iterate map fst]. unfold visitBundleTailTransactionHash at 1.
    cbn [fst snd length Nat.ltb Nat.leb hd andb].
    destruct (Z.ltb_spec k (i + 1)) as [Hlt|Hge].
    + replace (Z.to_nat (k - i)) with 0%nat by lia. eexists. reflexivity.
    + rewrite slice_txHashOfKey by assumption.
      replace (Z.to_nat (k - i)) with (Datatypes.S (Z.to_nat (k - (i + 1)))) by lia.
      cbn [firstn consumeWhile].
      destruct (consumer s (txHashOfKey key)) as [s' more']. destruct more'.
      * apply IH. assumption.
      * eexists. reflexivity.
Qed.

Lemma visit_scan (bundleHash : Hash) (maxFind : list Z) (s : S) :
  let matches := withPrefix (bundleHash ++ [BundleTxIsTail]) (entries (bundleTransactionsStore db)) in
  iterFault (bundleTransactionsStore db) (bundleHash ++ [BundleTxIsTail]) = None ->
  Forall (fun kv => (99 <= length (fst kv))%nat) matches ->
  ForEachBundleTailTransactionHash db S consumer bundleHash maxFind s =
    Ret (consumeWhile S consumer (capped maxFind (map (fun kv => txHashOfKey (fst kv)) matches)) s).
Proof.
  intros matches Hf Hl.
  unfold ForEachBundleTailTransactionHash, IterateKeys, Iterate, databaseKeyPrefixForBundleHash.
  rewrite Hf. fold matches.
  destruct maxFind as [|k more].
  - destruct (visit_uncapped matches 0 s Hl) as [i' E]. rw_iterate E. reflexivity.
  - destruct (visit_capped k more matches 0 s Hl) as [i' E]. rw_iterate E.
    cbn [capped]. rewrite Z.sub_0_r. reflexivity.
Qed.

(** X12.  [ForEachBundleTailTransactionHash] hands the caller's callback
    the transaction hashes of the keys under the bundle hash followed by
    the tail marker, in iteration order, up to the cap if there is one and
    until the callback answers [false]; when the engine refuses the
    iteration the callback is never called and nothing is reported. *)
Theorem ForEachBundleTailTransactionHash_visits (bundleHash : Hash) (maxFind : list Z) (s : S) :
  let prefix := bundleHash ++ [BundleTxIsTail] in
  let matches := withPrefix prefix (entries (bundleTransactionsStore db)) in
  (iterFault (bundleTransactionsStore db) prefix = None ->
   Forall (fun kv => (99 <= length (fst kv))%nat) matches ->
   ForEachBundleTailTransactionHash db S consumer bundleHash maxFind s =
     Ret (consumeWhile S consumer
            (capped maxFind (map (fun kv => txHashOfKey (fst kv)) matches)) s)) /\
  (iterFault (bundleTransactionsStore db) prefix <> None ->
   ForEachBundleTailTransactionHash db S consumer bundleHash maxFind s = Ret s).
Proof.
  intros prefix matches. split.
  - apply visit_scan.
  - intros Hf.
    unfold ForEachBundleTailTransactionHash, IterateKeys, Iterate, databaseKeyPrefixForBundleHash.
    fold prefix. destruct (iterFault (bundleTransactionsStore db) prefix); [reflexivity|].
    exfalso. apply Hf. reflexivity.
Qed.
End Visit.

Lemma hasPrefix_snoc (p : bytes) (x : byte) (key : bytes) :
  hasPrefix (p ++ [x]) key =
  (hasPrefix p key &&
   match nth_error key (length p) with
   | Some b => Byte.eqb x b
   | None => false
   end)%bool.
Proof.
  revert key. induction p as [|a p IH]; intros key.
  - cbn [app hasPrefix length]. destruct key as [|b key]; [reflexivity|].
    cbn [nth_error andb]. rewrite andb_true_r. reflexivity.
  - cbn [app hasPrefix length]. destruct key as [|b key]; [reflexivity|].
    cbn [nth_error]. rewrite IH, andb_assoc. reflexivity.
Qed.

Lemma withPrefix_tail (bundleHash : Hash) (l : list (Key * Value)) :
  length bundleHash = 49%nat ->
  withPrefix (bundleHash ++ [BundleTxIsTail]) l =
  filter (fun kv => isTailKey (fst kv)) (withPrefix bundleHash l).
Proof.
  intros H. unfold withPrefix.
  induction l as [|[k v] l IH]; [reflexivity|].
  cbn [filter fst]. rewrite hasPrefix_snoc, H. fold (isTailKey k).
  destruct (hasPrefix bundleHash k); cbn [andb filter fst].
  - destruct (isTailKey k); rewrite IH; reflexivity.
  - exact IH.
Qed.

Lemma consumeWhile_collect (hs acc : Hashes) :
  consumeWhile Hashes collectHash hs acc = acc ++ hs.
Proof.
  revert acc. induction hs as [|h hs IH]; intros acc.
  - cbn. rewrite app_nil_r. reflexivity.
  - cbn [consumeWhile collectHash]. rewrite IH, <- app_assoc. reflexivity.
Qed.

(** X13.  For a 49-byte bundle hash whose keys have at least 99 bytes,
    the tail scan selects, from the keys that
    [BundleTransactionHashes] lists, exactly those whose byte 49 is the
    tail marker, in the same order: the hashes it visits are the tail
    transactions among the hashes of the bundle. *)
Theorem tail_scan_selects_marked_keys (bundleHash : Hash) :
  let store := bundleTransactionsStore db in
  let keys := map fst (withPrefix bundleHash (entries store)) in
  length bundleHash = 49%nat ->
  iterFault store bundleHash = None ->
  iterFault store (bundleHash ++ [BundleTxIsTail]) = None ->
  Forall (fun key => (99 <= length key)%nat) keys ->
  BundleTransactionHashes db bundleHash [] = Ret (map txHashOfKey keys) /\
  ForEachBundleTailTransactionHash db Hashes collectHash bundleHash [] []
    = Ret (map txHashOfKey (filter isTailKey keys)).
Proof.
  intros store keys Hlen Hf Hft Hkeys.
  assert (Hl : Forall (fun kv : Key * Value => (99 <= length (fst kv))%nat)
                 (withPrefix bundleHash (entries store))).
  { unfold keys in Hkeys. rewrite Forall_map in Hkeys. exact Hkeys. }
  split.
  - unfold BundleTransactionHashes, scanBundleTransactionHashes, IterateKeys, Iterate,
      databaseKeyPrefixForBundleHash.
    fold store. rewrite Hf.
    rw_iterate (collect_uncapped _ 0 [] Hl). cbn [app]. unfold keys. rewrite map_map. reflexivity.
  - rewrite visit_scan.
    + rewrite consumeWhile_collect. cbn [app capped]. fold store.
      rewrite withPrefix_tail by assumption. unfold keys.
      f_equal. clear. induction (withPrefix bundleHash (entries store)) as [|[k v] l IH];
        [reflexivity|].
      cbn [filter map fst]. destruct (isTailKey k); cbn [map fst]; rewrite IH; reflexivity.
    + exact Hft.
    + fold store. rewrite withPrefix_tail by assumption.
      rewrite Forall_forall in Hl |- *. intros kv Hin. apply Hl.
      apply filter_In in Hin. apply Hin.
Qed.
End MoreScans.

(* ===================================================================== *)
(** ** Spent addresses *)
(* ===================================================================== *)

Lemma lookup_existsb (k : Key) (l : list (Key * Value)) :
  match lookup k l with Some _ => true | None => false end
  = existsb (fun kv => bytes_eqb k (fst kv)) l.
Proof.
  induction l as [|[k' v] l IH]; [reflexivity|].
  cbn [lookup existsb fst]. destruct (bytes_eqb k k'); [reflexivity | exact IH].
Qed.

(** X14.  [WasAddressSpentFrom] looks at the first 49 bytes of the
    address only: it panics on a shorter address and on a read the engine
    refuses, and otherwise answers whether those 49 bytes are a key of the
    spent-addresses realm. *)
Theorem WasAddressSpentFrom_first_49_bytes (spentAddressesStore : KVStore) (address : Hash) :
  ((length address < HashSize)%nat ->
   exists msg, WasAddressSpentFrom spentAddressesStore address = Panic msg) /\
  ((HashSize <= length address)%nat ->
   let key := firstn HashSize address in
   (getFault spentAddressesStore key = None ->
    WasAddressSpentFrom spentAddressesStore address
      = Ret (existsb (fun kv => bytes_eqb key (fst kv)) (entries spentAddressesStore))) /\
   (getFault spentAddressesStore key <> None ->
    exists msg, WasAddressSpentFrom spentAddressesStore address = Panic msg)).
Proof.
  unfold WasAddressSpentFrom. split.
  - intros H. rewrite slice_none by assumption. eexists; reflexivity.
  - intros H. rewrite slice_some by lia.
    change (firstn (HashSize - 0) (skipn 0 address)) with (firstn HashSize address).
    set (key := firstn HashSize address).
    cbn [optExec bindExec]. unfold Has. split; intros Hf.
    + rewrite Hf. rewrite <- lookup_existsb. destruct (lookup key _); reflexivity.
    + destruct (getFault spentAddressesStore key); [eexists; reflexivity|].
      exfalso. apply Hf. reflexivity.
Qed.

(* ===================================================================== *)
(** ** The memoized ledger index *)
(* ===================================================================== *)

Lemma ledgerIndexCalls_done (key : Key) (fromBytes : bytes -> Exec Index)
    (stores : list KVStore) (memo : LedgerMemo) :
  ledgerMilestoneIndexOnce memo = true ->
  ledgerIndexCalls key fromBytes stores memo
    = repeat (Ret (ledgerMilestoneIndex memo)) (length stores).
Proof.
  intros H. induction stores as [|s stores IH]; [reflexivity|].
  cbn [ledgerIndexCalls length repeat]. unfold LedgerIndex. rewrite H. rewrite IH. reflexivity.
Qed.

(** X15.  In a run of calls of [LedgerIndex] on a fresh [Database] object
    only the first call reads the ledger realm: every later call answers
    with the index the first call has loaded, whatever the realm holds by
    then, and with 0 if the first call panicked. *)
Theorem LedgerIndex_first_call_decides (key : Key) (fromBytes : bytes -> Exec Index)
    (first : KVStore) (later : list KVStore) :
  exists r v,
    ledgerIndexCalls key fromBytes (first :: later) newLedgerMemo
      = r :: repeat (Ret v) (length later) /\
    (r = Ret v \/ (exists msg, r = Panic msg) /\ v = 0).
Proof.
  cbn [ledgerIndexCalls]. unfold LedgerIndex at 1. cbn [newLedgerMemo ledgerMilestoneIndexOnce
    ledgerMilestoneIndex].
  destruct (Get first key) as [value|e].
  - destruct (fromBytes value) as [index|msg].
    + exists (Ret index), index. rewrite ledgerIndexCalls_done by reflexivity.
      split; [reflexivity | left; reflexivity].
    + exists (Panic msg), 0. rewrite ledgerIndexCalls_done by reflexivity.
      split; [reflexivity | right; split; [eexists; reflexivity | reflexivity]].
  - eexists (Panic _), 0. rewrite ledgerIndexCalls_done by reflexivity.
    split; [reflexivity | right; split; [eexists; reflexivity | reflexivity]].
Qed.

(* ===================================================================== *)
(** ** Hashes and trytes *)
(* ===================================================================== *)

Lemma substring_length (s : string) (n : nat) :
  (n <= String.length s)%nat -> String.length (substring 0 n s) = n.
Proof.
  revert n. induction s as [|c s IH]; intros [|n] H; cbn in *; try reflexivity; try lia.
  rewrite IH by lia. reflexivity.
Qed.

Lemma substring_all (s : string) : substring 0 (String.length s) s = s.
Proof.
  induction s as [|c s IH]; cbn; [reflexivity|]. rewrite IH. reflexivity.
Qed.

Section HashProperties.
Context {T : Trinary}.

(** X16.  [HashFromAddressTrytes] accepts trytes of the length of a hash
    or of an address with checksum and panics on every other length; on
    an address with checksum it gives the hash [HashFromHashTrytes] gives
    for the address without it, and on trytes of the length of a hash the
    two functions agree. *)
Theorem HashFromAddressTrytes_drops_checksum (trytes : Trytes) :
  (String.length trytes = addressTrytesSize ->
   HashFromAddressTrytes trytes = HashFromHashTrytes (substring 0 hashTrytesSize trytes)) /\
  (String.length trytes = hashTrytesSize ->
   HashFromAddressTrytes trytes = HashFromHashTrytes trytes) /\
  (String.length trytes <> addressTrytesSize -> String.length trytes <> hashTrytesSize ->
   HashFromAddressTrytes trytes = Panic "invalid address length").
Proof.
  unfold HashFromAddressTrytes, HashFromHashTrytes, trytesTo.
  refine (conj _ (conj _ _)).
  - intros H.
    assert (Hle : (hashTrytesSize <= String.length trytes)%nat)
      by (rewrite H; unfold addressTrytesSize; lia).
    rewrite (proj2 (Nat.leb_le _ _) Hle).
    rewrite H, Nat.eqb_refl, andb_false_r. cbn [optExec bindExec].
    rewrite substring_length by assumption. rewrite Nat.eqb_refl. reflexivity.
  - intros H. rewrite H, Nat.eqb_refl. cbn [negb andb].
    rewrite Nat.leb_refl. cbn [optExec bindExec].
    rewrite <- H, substring_all. reflexivity.
  - intros Ha Hh.
    rewrite (proj2 (Nat.eqb_neq _ _) Ha), (proj2 (Nat.eqb_neq _ _) Hh). reflexivity.
Qed.

(** X26.  The length [HashFromAddressTrytes] accepts besides that of a
    hash is the hash length plus [AddressChecksumTrytesSize] divided by
    [TritsPerTryte]: whenever that constant is positive and a tryte has
    more than one trit, trytes of the hash length plus
    [AddressChecksumTrytesSize] make the function panic. *)
Theorem HashFromAddressTrytes_rejects_full_checksum (trytes : Trytes) :
  (0 < AddressChecksumTrytesSize)%nat -> (1 < TritsPerTryte)%nat ->
  String.length trytes = (hashTrytesSize + AddressChecksumTrytesSize)%nat ->
  HashFromAddressTrytes trytes = Panic "invalid address length".
Proof.
  intros Hc Ht Hlen. unfold HashFromAddressTrytes.
  pose proof (Nat.div_lt AddressChecksumTrytesSize TritsPerTryte Hc Ht) as Hdiv.
  assert (H1 : (String.length trytes =? hashTrytesSize)%nat = false)
    by (apply Nat.eqb_neq; lia).
  assert (H2 : (String.length trytes =? addressTrytesSize)%nat = false)
    by (apply Nat.eqb_neq; unfold addressTrytesSize; lia).
  rewrite H1, H2. reflexivity.
Qed.
End HashProperties.

(* ===================================================================== *)
(** ** The pass over the metadata realm, whatever way it ends *)
(* ===================================================================== *)

Section PassOutcome.
Context {C : Collaborators}.
Variable ctx : Ctx.
Variable db : Database.

Lemma migrateConsumer_store (st st' : MigState) (key : Key) (data : Value) (f : flow) :
  migrateConsumer ctx db st key data = (st', f) ->
  mig_store st' = mig_store st \/
  (f = Continue /\
   exists r, length r = 156%nat /\ Set_ (mig_store st) key r = inl (mig_store st')).
Proof.
  intros H. destruct f.
  - right. split; [reflexivity|].
    destruct (migrateConsumer_continue _ _ _ _ _ _ H)
      as (h & lm & cb & ci & td & tx & mck & st1 & ms & _ & _ & _ & _ & _ & _ & _ & _ & HSet & _).
    eexists. split; [apply Marshal_length | exact HSet].
  - left. revert H. unfold migrateConsumer.
    cbn [mig_store mig_cache mig_counter mig_innerErr]. intros H.
    destruct (slice key 0 HashSize) as [h|]; [|discriminate].
    destruct (abortedAt ctx (mig_counter st + 1)); [injection H as <-; reflexivity|].
    destruct (nth_error data 0) as [legacyMask|]; [|discriminate].
    destruct (sliceFrom data (1 + IndexByteSize)) as [ciBytes|]; [|discriminate].
    destruct (Uint32 ciBytes) as [ci|]; [|discriminate].
    destruct (Get (txStore db) h) as [txData|e];
      [|destruct (negb (IsKeyNotFound e)); injection H as <-; reflexivity].
    destruct (transactionFactory h txData) as [tx|e]; [|injection H as <-; reflexivity].
    destruct (slice (txBundleHash tx) 0 49) as [mck|]; [|discriminate].
    destruct (resolveMilestoneIndex ctx db _ tx mck) as [[st1 ms]|[st1 f]] eqn:ER.
    + pose proof (resolve_store _ _ _ _ _ _ _ ER) as [Hst _]. cbn [mig_store] in Hst.
      destruct (Set_ (mig_store st1) key _) as [store|e] eqn:ES; [discriminate|].
      injection H as <-. exact Hst.
    + apply resolve_early in ER. destruct ER as (Hst & _ & _). cbn [mig_store] in Hst.
      injection H as <- _. exact Hst.
  - left. revert H. unfold migrateConsumer.
    cbn [mig_store mig_cache mig_counter mig_innerErr]. intros H.
    destruct (slice key 0 HashSize) as [h|]; [|injection H as <-; reflexivity].
    destruct (abortedAt ctx (mig_counter st + 1)); [discriminate|].
    destruct (nth_error data 0) as [legacyMask|]; [|injection H as <-; reflexivity].
    destruct (sliceFrom data (1 + IndexByteSize)) as [ciBytes|]; [|injection H as <-; reflexivity].
    destruct (Uint32 ciBytes) as [ci|]; [|injection H as <-; reflexivity].
    destruct (Get (txStore db) h) as [txData|e];
      [|destruct (negb (IsKeyNotFound e)); discriminate].
    destruct (transactionFactory h txData) as [tx|e]; [|discriminate].
    destruct (slice (txBundleHash tx) 0 49) as [mck|]; [|injection H as <-; reflexivity].
    destruct (resolveMilestoneIndex ctx db _ tx mck) as [[st1 ms]|[st1 f]] eqn:ER.
    + destruct (Set_ (mig_store st1) key _) as [store|e] eqn:ES; discriminate.
    + apply resolve_early in ER. destruct ER as (Hst & _ & _). cbn [mig_store] in Hst.
      injection H as <- _. exact Hst.
Qed.

Lemma Forall2_keptOrRewritten_refl (l : list (Key * Value)) :
  Forall2 (fun old new : Key * Value => keptOrRewritten old new) l l.
Proof.
  induction l as [|a l IH]; constructor; [|exact IH].
  split; [reflexivity | left; reflexivity].
Qed.

Lemma migrate_iterate_keys (R D : list (Key * Value)) (st st' : MigState) (o : option string) :
  iterate (migrateConsumer ctx db) R st = (st', o) ->
  entries (mig_store st) = D ++ R ->
  keysSortedb (D ++ R) = true ->
  exists R', entries (mig_store st') = D ++ R' /\
             Forall2 (fun old new : Key * Value => keptOrRewritten old new) R R'.
Proof.
  revert D st. induction R as [|[k d] R IH]; intros D st H He Hsorted; cbn [iterate] in H.
  - assert (st' = st) as -> by congruence. exists []. split; [assumption | constructor].
  - destruct (migrateConsumer ctx db st k d) as [s1 f] eqn:E.
    destruct (migrateConsumer_store _ _ _ _ _ E) as [Hsame|(-> & r & Hr & HSet)].
    + assert (Hend : f <> Continue -> st' = s1) by (destruct f; congruence).
      destruct f.
      * (* the store is as before and the pass goes on *)
        assert (He1 : entries (mig_store s1) = (D ++ [(k, d)]) ++ R)
          by (rewrite Hsame, He, <- app_assoc; reflexivity).
        assert (Hsorted1 : keysSortedb ((D ++ [(k, d)]) ++ R) = true)
          by (rewrite <- app_assoc; assumption).
        destruct (IH _ _ H He1 Hsorted1) as (R' & He' & HF).
        exists ((k, d) :: R'). split.
        -- rewrite He', <- app_assoc. reflexivity.
        -- constructor; [split; [reflexivity | left; reflexivity] | exact HF].
      * rewrite (Hend ltac:(discriminate)). exists ((k, d) :: R).
        split; [rewrite Hsame; exact He | apply Forall2_keptOrRewritten_refl].
      * rewrite (Hend ltac:(discriminate)). exists ((k, d) :: R).
        split; [rewrite Hsame; exact He | apply Forall2_keptOrRewritten_refl].
    + unfold Set_ in HSet. destruct (setFault (mig_store st) k); [discriminate|].
      assert (He1 : entries (mig_store s1) = (D ++ [(k, r)]) ++ R).
      { assert (E' : mig_store s1 = mkKVStore (put k r (entries (mig_store st)))
                       (getFault (mig_store st)) (setFault (mig_store st))
                       (iterFault (mig_store st))) by congruence.
        rewrite E'. cbn [entries]. rewrite He, <- app_assoc. cbn [app].
        apply put_replace. assumption. }
      assert (Hsorted1 : keysSortedb ((D ++ [(k, r)]) ++ R) = true).
      { rewrite <- app_assoc. cbn [app]. rewrite <- (keysSortedb_replace k r d). assumption. }
      destruct (IH _ _ H He1 Hsorted1) as (R' & He' & HF).
      exists ((k, r) :: R'). split.
      * rewrite He', <- app_assoc. reflexivity.
      * constructor; [split; [reflexivity | right; exact Hr] | exact HF].
Qed.

(** X17.  Whatever way the pass ends (completed, failed, cancelled or
    panicking, or refused by the version check) it neither adds nor
    removes a key of the metadata realm, and every record is then either
    the record that was there or a record of 156 bytes. *)
Theorem migration_keeps_the_keys (oldVersion newVersion : Z) :
  keysSortedb (entries (metadataStore db)) = true ->
  let after := fst (migrateTangleDatabaseFunc ctx db oldVersion newVersion) in
  map fst (entries after) = map fst (entries (metadataStore db)) /\
  Forall2 (fun old new : Key * Value => keptOrRewritten old new)
    (entries (metadataStore db)) (entries after).
Proof.
  intros Hsorted after.
  assert (HF : Forall2 (fun old new : Key * Value => keptOrRewritten old new)
                 (entries (metadataStore db)) (entries after)).
  { unfold after, migrateTangleDatabaseFunc.
    destruct (supportedDatabaseVersionUpgradeFunc oldVersion newVersion);
      [apply Forall2_keptOrRewritten_refl|].
    unfold Iterate. rewrite withPrefix_nil.
    destruct (iterFault (metadataStore db) []); [apply Forall2_keptOrRewritten_refl|].
    destruct (iterate _ _ _) as [st' o] eqn:E.
    destruct (migrate_iterate_keys _ [] _ _ _ E eq_refl Hsorted) as (R' & He & HF).
    cbn [app] in He.
    destruct o; cbn [fst]; rewrite He; exact HF. }
  split; [|exact HF].
  clear - HF. induction HF as [|old new l l' [Hk _] _ IH]; [reflexivity|].
  cbn [map]. rewrite Hk, IH. reflexivity.
Qed.

Lemma rewriteOne_inputs (c c1 : Cache) (k : Key) (d r : Value) :
  rewriteOne db c k d = Some (c1, r) ->
  (49 <= length k)%nat /\ (9 <= length d)%nat /\
  exists txData tx,
    Get (txStore db) (firstn 49 k) = inl txData /\
    transactionFactory (firstn 49 k) txData = inl tx /\
    (49 <= length (txBundleHash tx))%nat.
Proof.
  unfold rewriteOne. intros H.
  destruct (slice k 0 HashSize) as [h|] eqn:E1; [|discriminate].
  destruct (nth_error d 0) as [legacyMask|] eqn:E2; [|discriminate].
  destruct (sliceFrom d (1 + IndexByteSize)) as [ciBytes|] eqn:E3; [|discriminate].
  destruct (Uint32 ciBytes) as [ci|] eqn:E4; [|discriminate].
  destruct (Get (txStore db) h) as [txData|e] eqn:E5; [|discriminate].
  destruct (transactionFactory h txData) as [tx|e] eqn:E6; [|discriminate].
  destruct (slice (txBundleHash tx) 0 49) as [mck|] eqn:E7; [|discriminate].
  apply slice_prefix in E1. destruct E1 as [Hk ->].
  apply slice_prefix in E7. destruct E7 as [Hb _].
  unfold sliceFrom in E3. apply slice_inv in E3. destruct E3 as (_ & _ & ->).
  apply Uint32_some_length in E4. rewrite length_firstn, length_skipn in E4.
  change (1 + IndexByteSize)%nat with 5%nat in E4.
  refine (conj Hk (conj _ _)); [lia|].
  exists txData, tx. auto.
Qed.

Lemma rewriteAll_inputs (c : Cache) (l l1 : list (Key * Value)) (k : Key) (d : Value) :
  rewriteAll db c l = Some l1 -> In (k, d) l ->
  exists c0 c1 r, rewriteOne db c0 k d = Some (c1, r).
Proof.
  revert c l1. induction l as [|[k0 d0] l IH]; intros c l1 H Hin; [destruct Hin|].
  cbn [rewriteAll] in H.
  destruct (rewriteOne db c k0 d0) as [[c1 r]|] eqn:E; [|discriminate].
  destruct (rewriteAll db c1 l) as [l'|] eqn:E'; [|discriminate].
  destruct Hin as [Heq|Hin].
  - assert (k0 = k) as -> by congruence. assert (d0 = d) as -> by congruence.
    exists c, c1, r. exact E.
  - exact (IH _ _ E' Hin).
Qed.

(** X18.  A pass can only complete if every record of the metadata realm
    could be rewritten: each key has at least 49 bytes, each record at
    least 9, and the transaction realm holds, under the first 49 bytes of
    the key, a payload that parses and whose bundle hash has at least 49
    bytes.  One missing or malformed payload fails the pass. *)
Theorem completed_pass_had_every_payload (S1 : KVStore) :
  keysSortedb (entries (metadataStore db)) = true ->
  migrateTangleDatabaseFunc ctx db 2 3 = (S1, Ret None) ->
  forall k d, In (k, d) (entries (metadataStore db)) ->
    (49 <= length k)%nat /\ (9 <= length d)%nat /\
    exists txData tx,
      Get (txStore db) (firstn 49 k) = inl txData /\
      transactionFactory (firstn 49 k) txData = inl tx /\
      (49 <= length (txBundleHash tx))%nat.
Proof.
  intros Hsorted H k d Hin.
  pose proof (migrate_success_rewrite _ _ _ Hsorted H) as HR.
  destruct (rewriteAll_inputs _ _ _ _ _ HR Hin) as (c0 & c1 & r & E).
  exact (rewriteOne_inputs _ _ _ _ _ E).
Qed.
End PassOutcome.

(* ===================================================================== *)
(** ** A pass that is not disturbed, and a pass that is cancelled *)
(* ===================================================================== *)

Section Forward.
Context {C : Collaborators}.
Variable ctx : Ctx.
Variable db : Database.

Lemma scan_iterate_noabort (n : Z) (l : list (Key * Value)) (s : ScanState) :
  (forall c, abortedAtTail ctx n c = false) ->
  iterate (fun st k _ => tailConsumer ctx db n st k) l s =
  iterate (fun st k _ => tailConsumer neverAborted db 0 st k) l s.
Proof.
  intros Hc. revert s. induction l as [|[k v] l IH]; intros s; [reflexivity|].
  cbn [iterate]. rewrite (tailConsumer_quiet ctx db n s k (Hc _)).
  destruct (tailConsumer neverAborted db 0 s k) as [s1 [| |m]];
    [apply IH | reflexivity | reflexivity].
Qed.

Lemma scanBundleTails_noabort (n : Z) (e : option error) (bh : Hash) :
  (forall c, abortedAtTail ctx n c = false) ->
  scanBundleTails ctx db n e bh = scanBundleTails neverAborted db 0 e bh.
Proof.
  intros Hc. unfold scanBundleTails, IterateKeys, Iterate.
  destruct (iterFault _ _); [reflexivity|].
  match goal with
  | |- match ?a with _ => _ end = match ?b with _ => _ end =>
      replace a with b by (symmetry; apply (scan_iterate_noabort n _ _ Hc))
  end.
  reflexivity.
Qed.

Lemma resolve_forward (st : MigState) (tx : Transaction) (mck : Key) (c' : Cache) (ms : Index) :
  (forall c, abortedAtTail ctx (mig_counter st) c = false) ->
  mig_innerErr st = None ->
  resolveQuietly db (mig_cache st) tx mck = Some (c', ms) ->
  resolveMilestoneIndex ctx db st tx mck =
    inl (mkMigState (mig_store st) c' (mig_counter st) None, ms).
Proof.
  intros Hc H0 H. unfold resolveMilestoneIndex. unfold resolveQuietly, resolvedIndex in H.
  destruct (lru_Get (mig_cache st) mck) as [[i|] c].
  - assert (c = c') as -> by congruence. assert (i = ms) as -> by congruence.
    rewrite H0. reflexivity.
  - rewrite H0, (scanBundleTails_noabort _ None _ Hc).
    destruct (scanBundleTails neverAborted db 0 None (txBundleHash tx)) as [sc r].
    destruct r as [[e|]|m]; try discriminate.
    destruct (scan_innerErr sc) eqn:Es; [discriminate|].
    assert (c' = lru_Add c mck (scan_milestoneIndex sc)) as -> by congruence.
    assert (ms = scan_milestoneIndex sc) as -> by congruence.
    reflexivity.
Qed.

Lemma consumer_forward (st : MigState) (k : Key) (d : Value) (c' : Cache) (r : Value) :
  rewriteOne db (mig_cache st) k d = Some (c', r) ->
  abortedAt ctx (mig_counter st + 1) = false ->
  (forall c, abortedAtTail ctx (mig_counter st + 1) c = false) ->
  mig_innerErr st = None ->
  setFault (mig_store st) k = None ->
  migrateConsumer ctx db st k d =
    (mkMigState
       (mkKVStore (put k r (entries (mig_store st))) (getFault (mig_store st))
          (setFault (mig_store st)) (iterFault (mig_store st)))
       c' (mig_counter st + 1) None, Continue).
Proof.
  intros H Ha Hc H0 Hs. unfold rewriteOne in H. unfold migrateConsumer.
  cbn [mig_store mig_cache mig_counter mig_innerErr].
  destruct (slice k 0 HashSize) as [h|]; [|discriminate].
  rewrite Ha.
  destruct (nth_error d 0) as [legacyMask|]; [|discriminate].
  destruct (sliceFrom d (1 + IndexByteSize)) as [ciBytes|]; [|discriminate].
  destruct (Uint32 ciBytes) as [ci|]; [|discriminate].
  destruct (Get (txStore db) h) as [txData|e]; [|discriminate].
  destruct (transactionFactory h txData) as [tx|e]; [|discriminate].
  destruct (slice (txBundleHash tx) 0 49) as [mck|]; [|discriminate].
  destruct (resolveQuietly db (mig_cache st) tx mck) as [[c1 ms]|] eqn:ER; [|discriminate].
  assert (c1 = c') as -> by congruence.
  assert (r = Marshal (migratedMetadata h legacyMask ci tx ms)) as -> by congruence.
  pose proof (resolve_forward
                (mkMigState (mig_store st) (mig_cache st) (mig_counter st + 1) (mig_innerErr st))
                tx mck c' ms Hc H0 ER) as HR.
  cbn [mig_store mig_cache mig_counter mig_innerErr] in HR. rewrite HR.
  unfold Set_. cbn [mig_store mig_cache mig_counter mig_innerErr]. rewrite Hs. reflexivity.
Qed.

Lemma migrate_iterate_forward (R T : list (Key * Value)) :
  forall (D R' : list (Key * Value)) (st : MigState),
  rewriteAll db (mig_cache st) R = Some R' ->
  (forall n, mig_counter st < n <= mig_counter st + Z.of_nat (length R) ->
             abortedAt ctx n = false) ->
  (forall n c, abortedAtTail ctx n c = false) ->
  mig_innerErr st = None ->
  entries (mig_store st) = D ++ R ++ T ->
  keysSortedb (D ++ R ++ T) = true ->
  (forall k, In k (map fst R) -> setFault (mig_store st) k = None) ->
  exists cf,
    iterate (migrateConsumer ctx db) (R ++ T) st =
    iterate (migrateConsumer ctx db) T
      (mkMigState
         (mkKVStore (D ++ R' ++ T) (getFault (mig_store st)) (setFault (mig_store st))
            (iterFault (mig_store st)))
         cf (mig_counter st + Z.of_nat (length R)) None).
Proof.
  induction R as [|[k d] R IH]; intros D R' st HR Ha Hc H0 He Hsorted Hset.
  - cbn [rewriteAll] in HR. assert (R' = []) as -> by congruence.
    destruct st as [[e g s i] c n ie]. cbn in *. subst. rewrite Z.add_0_r.
    exists c. reflexivity.
  - cbn [rewriteAll] in HR.
    destruct (rewriteOne db (mig_cache st) k d) as [[c1 r]|] eqn:E1; [|discriminate].
    destruct (rewriteAll db c1 R) as [R1|] eqn:E2; [|discriminate].
    assert (R' = (k, r) :: R1) as -> by congruence.
    assert (Hstep := consumer_forward st k d c1 r E1
                       (Ha (mig_counter st + 1) ltac:(cbn [length]; lia)) (fun c => Hc _ c) H0
                       (Hset k ltac:(left; reflexivity))).
    set (s1 := mkMigState
                 (mkKVStore (put k r (entries (mig_store st))) (getFault (mig_store st))
                    (setFault (mig_store st)) (iterFault (mig_store st)))
                 c1 (mig_counter st + 1) None) in *.
    assert (He1 : entries (mig_store s1) = (D ++ [(k, r)]) ++ R ++ T).
    { cbn [s1 mig_store entries]. rewrite He, <- app_assoc. cbn [app].
      apply put_replace. exact Hsorted. }
    assert (Hsorted1 : keysSortedb ((D ++ [(k, r)]) ++ R ++ T) = true).
    { rewrite <- app_assoc. cbn [app]. rewrite <- (keysSortedb_replace k r d). exact Hsorted. }
    destruct (IH (D ++ [(k, r)]) R1 s1 E2) as [cf Hcf]; try assumption; try reflexivity.
    + intros n Hn. apply Ha. cbn [s1 mig_counter] in Hn. cbn [length]. lia.
    + intros k' Hk'. cbn [s1 mig_store setFault]. apply Hset. right. exact Hk'.
    + exists cf. cbn [app iterate]. rewrite Hstep. rewrite Hcf.
      cbn [s1 mig_store mig_counter getFault setFault iterFault].
      f_equal. f_equal; [|cbn [length]; lia].
      f_equal. rewrite <- app_assoc. reflexivity.
Qed.

(** X19.  When the engine accepts every write and the context is never
    found cancelled, the pass completes exactly when every record can be
    rewritten, and the metadata realm then holds exactly the rewritten
    records: the outcome does not depend on the cache, on the counters or
    on the timing of the status checks. *)
Theorem undisturbed_pass_rewrites_all (R' : list (Key * Value)) :
  let S0 := metadataStore db in
  keysSortedb (entries S0) = true ->
  iterFault S0 [] = None ->
  (forall k, setFault S0 k = None) ->
  (forall n, abortedAt ctx n = false) ->
  (forall n c, abortedAtTail ctx n c = false) ->
  (migrateTangleDatabaseFunc ctx db 2 3
     = (mkKVStore R' (getFault S0) (setFault S0) (iterFault S0), Ret None)
   <-> rewriteAll db (lru_New milestoneCacheSize) (entries S0) = Some R').
Proof.
  intros S0 Hsorted Hit Hset Ha Hc. split.
  - intros H. apply (migrate_success_rewrite _ _ _ Hsorted H).
  - intros HR. unfold migrateTangleDatabaseFunc.
    change (supportedDatabaseVersionUpgradeFunc 2 3) with (@None error).
    unfold Iterate. fold S0. rewrite Hit, withPrefix_nil.
    destruct (migrate_iterate_forward (entries S0) [] [] R'
                (mkMigState S0 (lru_New milestoneCacheSize) 0 None)) as [cf Hcf];
      try assumption; try reflexivity.
    + intros n _. apply Ha.
    + cbn [mig_store app]. rewrite app_nil_r. reflexivity.
    + cbn [app]. rewrite app_nil_r. exact Hsorted.
    + intros k _. apply Hset.
    + rewrite app_nil_r in Hcf. rewrite Hcf. cbn [iterate app mig_store mig_innerErr].
      rewrite app_nil_r. reflexivity.
Qed.

(** X20.  A pass that finds the context cancelled at the record after
    [pre] returns [ErrOperationAborted] and leaves the realm half
    migrated: the records of [pre] rewritten, the record it stopped at and
    all later ones as they were. *)
Theorem cancelled_pass_keeps_progress (pre post pre' : list (Key * Value))
    (k : Key) (d : Value) :
  let S0 := metadataStore db in
  entries S0 = pre ++ (k, d) :: post ->
  keysSortedb (entries S0) = true ->
  iterFault S0 [] = None ->
  (forall k', In k' (map fst pre) -> setFault S0 k' = None) ->
  (forall n, 0 < n <= Z.of_nat (length pre) -> abortedAt ctx n = false) ->
  abortedAt ctx (Z.of_nat (length pre) + 1) = true ->
  (forall n c, abortedAtTail ctx n c = false) ->
  (HashSize <= length k)%nat ->
  rewriteAll db (lru_New milestoneCacheSize) pre = Some pre' ->
  migrateTangleDatabaseFunc ctx db 2 3 =
    (mkKVStore (pre' ++ (k, d) :: post) (getFault S0) (setFault S0) (iterFault S0),
     Ret (Some ErrOperationAborted)).
Proof.
  intros S0 He Hsorted Hit Hset Ha Hab Hc Hk HR. unfold migrateTangleDatabaseFunc.
  change (supportedDatabaseVersionUpgradeFunc 2 3) with (@None error).
  unfold Iterate. fold S0. rewrite Hit, withPrefix_nil, He.
  destruct (migrate_iterate_forward pre ((k, d) :: post) [] pre'
              (mkMigState S0 (lru_New milestoneCacheSize) 0 None)) as [cf Hcf];
    try assumption; try reflexivity.
  - cbn [app]. rewrite <- He. exact Hsorted.
  - rewrite Hcf. cbn [iterate app mig_store mig_counter]. unfold migrateConsumer at 1.
    cbn [mig_store mig_cache mig_counter mig_innerErr].
    rewrite slice_some by lia. rewrite Z.add_0_l, Hab.
    cbn [setInnerErr mig_store mig_innerErr]. reflexivity.
Qed.

Lemma tailConsumer_error_index (n : Z) (s s' : ScanState) (k : Key) (f : flow) :
  tailConsumer ctx db n s k = (s', f) ->
  (f = Continue ->
   scan_innerErr s' = scan_innerErr s /\ scan_milestoneIndex s' = scan_milestoneIndex s) /\
  (scan_innerErr s = None -> scan_innerErr s' <> None ->
   scan_milestoneIndex s' = scan_milestoneIndex s).
Proof.
  unfold tailConsumer. cbn [scan_counter scan_milestoneIndex scan_innerErr]. intros H.
  repeat destruct_match_in H;
    match type of H with
    | (?a, ?b) = (_, _) =>
        assert (s' = a) as -> by congruence; assert (f = b) as -> by congruence
    end;
    cbn [scan_counter scan_milestoneIndex scan_innerErr];
    split; intros; try discriminate; try congruence; auto.
Qed.

Lemma scan_iterate_error_index (n : Z) (l : list (Key * Value)) (s s' : ScanState)
    (o : option string) :
  iterate (fun st k _ => tailConsumer ctx db n st k) l s = (s', o) ->
  scan_innerErr s = None -> scan_innerErr s' <> None ->
  scan_milestoneIndex s' = scan_milestoneIndex s.
Proof.
  revert s. induction l as [|[k v] l IH]; intros s H H0 He; cbn [iterate] in H.
  - assert (s' = s) by congruence. subst. congruence.
  - destruct (tailConsumer ctx db n s k) as [s1 f] eqn:E.
    destruct (tailConsumer_error_index _ _ _ _ _ E) as [Hcont Herr].
    destruct f.
    + destruct (Hcont eq_refl) as [H1 H2].
      rewrite <- H2. apply IH; [assumption | congruence | assumption].
    + assert (s' = s1) by congruence. subst. apply Herr; assumption.
    + assert (s' = s1) by congruence. subst. apply Herr; assumption.
Qed.

(** X21.  An error inside the scan of the tail keys does not stop the
    callback of the pass.  Whenever the callback returns [true] with an
    error recorded that was not recorded before, the error comes from the
    scan started on a cache miss (cancelled, or failed on a bundle), and
    the callback has nevertheless cached milestone index 0 for the bundle
    hash and written the record with milestone index 0; the iteration
    goes on, and whatever records follow an error is still recorded when
    it ends. *)
Theorem inner_scan_error_is_deferred (st st' : MigState) (key : Key) (data : Value) (e : error) :
  migrateConsumer ctx db st key data = (st', Continue) ->
  mig_innerErr st = None ->
  mig_innerErr st' = Some e ->
  exists h legacyMask ci txData tx mck,
    slice key 0 HashSize = Some h /\
    Get (txStore db) h = inl txData /\
    transactionFactory h txData = inl tx /\
    slice (txBundleHash tx) 0 49 = Some mck /\
    cacheFind mck (items (mig_cache st)) = None /\
    mig_cache st' = lru_Add (mig_cache st) mck 0 /\
    lookup key (entries (mig_store st'))
      = Some (Marshal (migratedMetadata h legacyMask ci tx 0)) /\
    forall rest, mig_innerErr (fst (iterate (migrateConsumer ctx db) rest st')) <> None.
Proof.
  intros H H0 He.
  assert (Hrest : forall rest,
             mig_innerErr (fst (iterate (migrateConsumer ctx db) rest st')) <> None).
  { intros rest. destruct (iterate (migrateConsumer ctx db) rest st') as [st2 o] eqn:EI.
    cbn [fst]. eapply migrate_iterate_sticky; [exact EI | congruence]. }
  destruct (migrateConsumer_continue _ _ _ _ _ _ H)
    as (h & legacyMask & ciBytes & ci & txData & tx & mck & st1 & ms &
        Hh & _ & _ & _ & Htx & Hparse & Hmck & ER & HSet & Hcache & Herr & _).
  exists h, legacyMask, ci, txData, tx, mck.
  unfold resolveMilestoneIndex in ER. cbn [mig_store mig_cache mig_counter mig_innerErr] in ER.
  unfold lru_Get in ER.
  destruct (cacheFind mck (items (mig_cache st))) as [i|] eqn:EF; cbv beta iota in ER.
  - exfalso.
    apply (f_equal (fun r : MigState * Index + MigState * flow =>
                      match r with
                      | inl (s, _) => mig_innerErr s
                      | inr _ => None
                      end)) in ER.
    cbn [mig_innerErr] in ER. congruence.
  - destruct (scanBundleTails ctx db (mig_counter st + 1) (mig_innerErr st) (txBundleHash tx))
      as [sc r] eqn:ES.
    destruct r as [[e'|]|m]; try discriminate.
    assert (E1 : st1 = mkMigState (mig_store st)
                         (lru_Add (mig_cache st) mck (scan_milestoneIndex sc))
                         (mig_counter st + 1) (scan_innerErr sc)).
    { apply (f_equal (fun r : MigState * Index + MigState * flow =>
                        match r with
                        | inl (s, _) => s
                        | inr (s, _) => s
                        end)) in ER.
      symmetry. exact ER. }
    assert (Ems : ms = scan_milestoneIndex sc).
    { apply (f_equal (fun r : MigState * Index + MigState * flow =>
                        match r with
                        | inl (_, i) => i
                        | inr _ => 0
                        end)) in ER.
      symmetry. exact ER. }
    assert (Hsc : scan_milestoneIndex sc = 0).
    { unfold scanBundleTails, IterateKeys, Iterate in ES.
      destruct (iterFault _ _); [discriminate|].
      destruct (iterate _ _ _) as [sc' o] eqn:EI.
      assert (sc' = sc) by (destruct o; congruence). subst sc'.
      apply (scan_iterate_error_index _ _ _ _ _ EI).
      - cbn [scan_innerErr]. exact H0.
      - rewrite E1 in Herr. cbn [mig_innerErr] in Herr. congruence. }
    rewrite Ems, Hsc in *.
    refine (conj Hh (conj Htx (conj Hparse (conj Hmck (conj eq_refl (conj _ (conj _ Hrest))))))).
    + rewrite Hcache, E1. reflexivity.
    + unfold Set_ in HSet. destruct (setFault (mig_store st) key); [discriminate|].
      assert (E' : mig_store st' = mkKVStore
                (put key (Marshal (migratedMetadata h legacyMask ci tx 0)) (entries (mig_store st)))
                (getFault (mig_store st)) (setFault (mig_store st)) (iterFault (mig_store st)))
        by congruence.
      rewrite E'. apply lookup_put_same.
Qed.
End Forward.

(* ===================================================================== *)
(** ** The request handlers *)
(* ===================================================================== *)

Section ServerProperties.
Context {C : Collaborators} {T : Trinary}.
Variable db : Database.

Lemma inclusionStates_acc (transactions : list Trytes) (acc out : list bool) :
  inclusionStates db transactions acc = Ret out ->
  exists states, out = acc ++ states /\
    Forall2 (fun tx state => inclusionState db tx state) transactions states.
Proof.
  revert acc. induction transactions as [|tx rest IH]; intros acc H; cbn [inclusionStates] in H.
  - exists []. rewrite app_nil_r. split; [congruence | constructor].
  - destruct (HashFromHashTrytes tx) as [h|] eqn:Eh; cbn [bindExec] in H; [|discriminate].
    destruct (TxMetadataOrNil db h) as [[m|]|] eqn:Em; cbn [bindExec] in H; [| |discriminate].
    + destruct (IH _ H) as (states & -> & HF).
      exists ((IsConfirmed m && negb (IsConflicting m))%bool :: states).
      rewrite <- app_assoc. split; [reflexivity|].
      constructor; [|exact HF]. exists h. split; [exact Eh|].
      right. exists m. split; [exact Em | reflexivity].
    + destruct (IH _ H) as (states & -> & HF).
      exists (false :: states). rewrite <- app_assoc. split; [reflexivity|].
      constructor; [|exact HF]. exists h. split; [exact Eh|].
      left. split; [exact Em | reflexivity].
Qed.

Lemma inclusionStates_returns (transactions : list Trytes) (acc : list bool) :
  Forall (fun tx => exists h o, HashFromHashTrytes tx = Ret h /\ TxMetadataOrNil db h = Ret o)
    transactions ->
  exists out, inclusionStates db transactions acc = Ret out.
Proof.
  revert acc. induction transactions as [|tx rest IH]; intros acc H; cbn [inclusionStates].
  - eexists. reflexivity.
  - inversion H as [|? ? (h & o & Eh & Em) Hrest]; subst.
    rewrite Eh. cbn [bindExec]. rewrite Em. cbn [bindExec].
    destruct o; apply IH; assumption.
Qed.

(** X22.  [rpcGetInclusionStates] rejects the whole request, before any
    lookup, when one of the hashes fails the guard; otherwise, unless a
    lookup panics, it answers with one state per requested hash in the
    order of the request: [true] exactly for a transaction whose metadata
    is stored with the confirmed bit set and the conflicting bit clear,
    [false] for every other stored transaction and for an unknown one. *)
Theorem rpcGetInclusionStates_states (transactions : list Trytes) :
  (Exists (fun tx => IsTransactionHash tx = false) transactions ->
   rpcGetInclusionStates db transactions
     = Ret (inr (Wrapf ErrInvalidParameter "invalid reference hash provided"))) /\
  (forall states,
     rpcGetInclusionStates db transactions = Ret (inl states) ->
     Forall2 (fun tx state => inclusionState db tx state) transactions states) /\
  (Forall (fun tx => IsTransactionHash tx = true) transactions ->
   Forall (fun tx => exists h o, HashFromHashTrytes tx = Ret h /\ TxMetadataOrNil db h = Ret o)
     transactions ->
   exists states, rpcGetInclusionStates db transactions = Ret (inl states)).
Proof.
  unfold rpcGetInclusionStates. refine (conj _ (conj _ _)).
  - intros H.
    assert (E : existsb (fun tx => negb (IsTransactionHash tx)) transactions = true).
    { apply existsb_exists. apply Exists_exists in H. destruct H as (tx & Hin & Htx).
      exists tx. split; [exact Hin | rewrite Htx; reflexivity]. }
    rewrite E. reflexivity.
  - intros states H.
    destruct (existsb _ transactions); [discriminate|].
    destruct (inclusionStates db transactions []) as [out|] eqn:E; cbn [bindExec] in H;
      [|discriminate].
    destruct (inclusionStates_acc _ _ _ E) as (sts & -> & HF).
    cbn [app] in H. assert (states = sts) as -> by congruence. exact HF.
  - intros Hg Hl.
    assert (E : existsb (fun tx => negb (IsTransactionHash tx)) transactions = false).
    { destruct (existsb _ transactions) eqn:E; [|reflexivity]. exfalso.
      apply existsb_exists in E. destruct E as (tx & Hin & Htx).
      rewrite Forall_forall in Hg. rewrite (Hg tx Hin) in Htx. discriminate. }
    rewrite E. destruct (inclusionStates_returns transactions [] Hl) as [out Eo].
    rewrite Eo. eexists. reflexivity.
Qed.

Variable RestAPILimitsMaxResults : Z.

Lemma getTrytes_acc (hashes : list Trytes) (trytes0 : list Trytes) (milestones0 : list Z)
    (resp : GetTrytesResponse) :
  getTrytes db hashes trytes0 milestones0 = Ret (inl resp) ->
  exists trytes milestones,
    resp_Trytes resp = trytes0 ++ trytes /\
    resp_Milestones resp = milestones0 ++ milestones /\
    length trytes = length hashes /\ length milestones = length hashes /\
    Forall2 (fun hash entry => trytesEntry db hash entry) hashes (combine trytes milestones).
Proof.
  revert trytes0 milestones0.
  induction hashes as [|hash rest IH]; intros trytes0 milestones0 H; cbn [getTrytes] in H.
  - exists [], []. rewrite !app_nil_r.
    assert (resp = mkGetTrytesResponse trytes0 milestones0) as -> by congruence.
    cbn. repeat split; constructor.
  - destruct (HashFromHashTrytes hash) as [h|] eqn:Eh; cbn [bindExec] in H; [|discriminate].
    destruct (TransactionOrNil db h) as [[tx|]|] eqn:Etx; cbn [bindExec] in H; [| |discriminate].
    + destruct (TransactionToTrytes tx) as [txTrytes|e] eqn:Et; [|discriminate].
      destruct (TxMetadataOrNil db h) as [[m|]|] eqn:Em; cbn [bindExec] in H; try discriminate.
      destruct (IH _ _ H) as (ts & ms & Ht & Hm & Lt & Lm & HF).
      exists (txTrytes :: ts), (uint32 (snd (ConfirmedWithIndex m)) :: ms).
      rewrite Ht, Hm, <- !app_assoc. cbn [app length combine].
      refine (conj eq_refl (conj eq_refl (conj _ (conj _ _)))); try lia.
      constructor; [|exact HF]. exists h. split; [exact Eh|].
      right. exists tx, m. cbn [fst snd]. auto.
    + destruct (IH _ _ H) as (ts & ms & Ht & Hm & Lt & Lm & HF).
      exists (Repeat (Ascii.ascii_of_byte "9"%byte) 2673 :: ts), (uint32 0 :: ms).
      rewrite Ht, Hm, <- !app_assoc. cbn [app length combine].
      refine (conj eq_refl (conj eq_refl (conj _ (conj _ _)))); try lia.
      constructor; [|exact HF]. exists h. split; [exact Eh|].
      left. cbn [fst snd]. auto.
Qed.

Lemma getTrytes_missing_metadata (pre post : list Trytes) (hash : Trytes) (h : Hash)
    (tx : Transaction) (txTrytes : Trytes) (trytes0 : list Trytes) (milestones0 : list Z) :
  Forall (fun hash' => exists h' entry, HashFromHashTrytes hash' = Ret h' /\
                                        trytesEntryOf db h' entry) pre ->
  HashFromHashTrytes hash = Ret h ->
  TransactionOrNil db h = Ret (Some tx) ->
  TransactionToTrytes tx = inl txTrytes ->
  TxMetadataOrNil db h = Ret None ->
  getTrytes db (pre ++ hash :: post) trytes0 milestones0
    = Ret (inr (Wrapf ErrInternalServerError "metadata not found for hash")).
Proof.
  intros Hpre Eh Etx Et Em. revert trytes0 milestones0.
  induction pre as [|hash' pre IH]; intros trytes0 milestones0; cbn [app getTrytes].
  - rewrite Eh. cbn [bindExec]. rewrite Etx. cbn [bindExec]. rewrite Et.
    rewrite Em. reflexivity.
  - inversion Hpre as [|? ? (h' & entry & Eh' & He) Hrest]; subst.
    rewrite Eh'. cbn [bindExec].
    destruct He as [(Etx' & _)|(tx' & m' & Etx' & Et' & Em' & _)].
    + rewrite Etx'. cbn [bindExec]. apply IH. assumption.
    + rewrite Etx'. cbn [bindExec]. rewrite Et', Em'. cbn [bindExec]. apply IH. assumption.
Qed.

(** X23.  [rpcGetTrytes] rejects a request with more hashes than the
    configured limit before it looks at any of them.  When it answers, the
    two lists of the response have one entry per requested hash, in the
    order of the request: for an unknown transaction 2673 nines and
    milestone 0, for a stored one its trytes and the confirmation index of
    its metadata, whatever the confirmed bit says. *)
Theorem rpcGetTrytes_entries (hashes : list Trytes) :
  (RestAPILimitsMaxResults < Z.of_nat (length hashes) ->
   rpcGetTrytes db RestAPILimitsMaxResults hashes
     = Ret (inr (Wrapf ErrInvalidParameter "too many hashes"))) /\
  (forall resp,
     rpcGetTrytes db RestAPILimitsMaxResults hashes = Ret (inl resp) ->
     Z.of_nat (length hashes) <= RestAPILimitsMaxResults /\
     length (resp_Trytes resp) = length hashes /\
     length (resp_Milestones resp) = length hashes /\
     Forall2 (fun hash entry => trytesEntry db hash entry) hashes
       (combine (resp_Trytes resp) (resp_Milestones resp))).
Proof.
  unfold rpcGetTrytes. split.
  - intros H. rewrite (proj2 (Z.ltb_lt _ _) H). reflexivity.
  - intros resp H.
    destruct (Z.ltb_spec RestAPILimitsMaxResults (Z.of_nat (length hashes))) as [Hlt|Hle];
      [discriminate|].
    destruct (existsb _ hashes); [discriminate|].
    destruct (getTrytes_acc _ _ _ _ H) as (ts & ms & Ht & Hm & Lt & Lm & HF).
    cbn [app] in Ht, Hm. rewrite Ht, Hm. auto.
Qed.

(** X24.  A transaction whose payload is stored but whose metadata is
    missing fails the whole [rpcGetTrytes] request with an internal server
    error, also when every hash before it was answered. *)
Theorem rpcGetTrytes_missing_metadata (pre post : list Trytes) (hash : Trytes) (h : Hash)
    (tx : Transaction) (txTrytes : Trytes) :
  Z.of_nat (length (pre ++ hash :: post)) <= RestAPILimitsMaxResults ->
  Forall (fun hash' => IsTransactionHash hash' = true) (pre ++ hash :: post) ->
  Forall (fun hash' => exists h' entry, HashFromHashTrytes hash' = Ret h' /\
                                        trytesEntryOf db h' entry) pre ->
  HashFromHashTrytes hash = Ret h ->
  TransactionOrNil db h = Ret (Some tx) ->
  TransactionToTrytes tx = inl txTrytes ->
  TxMetadataOrNil db h = Ret None ->
  rpcGetTrytes db RestAPILimitsMaxResults (pre ++ hash :: post)
    = Ret (inr (Wrapf ErrInternalServerError "metadata not found for hash")).
Proof.
  intros Hlim Hg Hpre Eh Etx Et Em. unfold rpcGetTrytes.
  rewrite (proj2 (Z.ltb_ge _ _) Hlim).
  assert (E : existsb (fun hash' => negb (IsTransactionHash hash')) (pre ++ hash :: post) = false).
  { destruct (existsb _ (pre ++ hash :: post)) eqn:E; [|reflexivity]. exfalso.
    apply existsb_exists in E. destruct E as (x & Hin & Hx).
    rewrite Forall_forall in Hg. rewrite (Hg x Hin) in Hx. discriminate. }
  rewrite E. apply (getTrytes_missing_metadata pre post hash h tx txTrytes); assumption.
Qed.

Variable ledgerMilestoneIndexKey : Key.
Variable milestoneIndexFromBytes : bytes -> Exec Index.
Variable ledgerStore : KVStore.

(** X25.  What [transactionMetadata] answers, when it answers: for an
    unknown transaction all four flags are [false] and the three indices
    0; for a stored one the flags are those of its metadata, [Included]
    holds exactly when it is confirmed and not conflicting, the
    referencing milestone index is reported only with the confirmed bit
    and the milestone index only with the milestone bit, and a confirming
    milestone whose timestamp cannot be resolved gives timestamp 0, not an
    error.  The ledger index is the memoized one. *)
Theorem transactionMetadata_response (memo memo' : LedgerMemo) (txHash : Hash)
    (resp : transactionMetadataResponse) :
  transactionMetadata db ledgerMilestoneIndexKey milestoneIndexFromBytes ledgerStore memo txHash
    = (memo', Ret resp) ->
  (TxMetadataOrNil db txHash = Ret None ->
   resp_Solid resp = false /\ resp_Included resp = false /\ resp_Confirmed resp = false /\
   resp_Conflicting resp = false /\ resp_ReferencedByMilestoneIndex resp = 0 /\
   resp_MilestoneTimestampReferenced resp = 0 /\ resp_MilestoneIndex resp = 0) /\
  (forall m, TxMetadataOrNil db txHash = Ret (Some m) ->
   resp_Solid resp = IsSolid m /\ resp_Confirmed resp = IsConfirmed m /\
   resp_Conflicting resp = IsConflicting m /\
   resp_Included resp = (IsConfirmed m && negb (IsConflicting m))%bool /\
   resp_ReferencedByMilestoneIndex resp = (if IsConfirmed m then confirmationIndex m else 0) /\
   resp_MilestoneIndex resp = (if IsMilestone m then milestoneIndex m else 0) /\
   (IsConfirmed m = false -> resp_MilestoneTimestampReferenced resp = 0) /\
   (IsConfirmed m = true ->
    (forall ts, MilestoneTimestamp db (confirmationIndex m) = Ret (inl ts) ->
                resp_MilestoneTimestampReferenced resp = ts) /\
    (forall e, MilestoneTimestamp db (confirmationIndex m) = Ret (inr e) ->
               resp_MilestoneTimestampReferenced resp = 0))) /\
  Hash_Trytes txHash = Ret (resp_TxHash resp) /\
  ledgerMilestoneIndexOnce memo' = true /\
  resp_LedgerIndex resp = ledgerMilestoneIndex memo'.
Proof.
  intros H. unfold transactionMetadata in H.
  assert (HL : forall m1 i,
             LedgerIndex ledgerMilestoneIndexKey milestoneIndexFromBytes ledgerStore memo
               = (m1, Ret i) ->
             ledgerMilestoneIndexOnce m1 = true /\ i = ledgerMilestoneIndex m1).
  { intros m1 i HLI. unfold LedgerIndex in HLI.
    destruct (ledgerMilestoneIndexOnce memo) eqn:Eo.
    - assert (m1 = memo) as -> by congruence. split; [assumption | congruence].
    - destruct (Get ledgerStore ledgerMilestoneIndexKey); [|discriminate].
      destruct (milestoneIndexFromBytes v) as [index|]; [|discriminate].
      assert (m1 = mkLedgerMemo true index) as -> by congruence.
      cbn. split; [reflexivity | congruence]. }
  destruct (TxMetadataOrNil db txHash) as [[m|]|msg] eqn:Em.
  - unfold ConfirmedWithIndex in H. fold (IsConfirmed m) in H.
    destruct (IsConfirmed m) eqn:Ec.
    + destruct (MilestoneTimestamp db (confirmationIndex m)) as [r|] eqn:Ets;
        cbn [bindExec] in H; [|discriminate].
      set (ts := match r with inl timestamp => timestamp | inr _ => 0 end).
      assert (Ht : match r with inl timestamp => Ret timestamp | inr _ => Ret 0 end = Ret ts)
        by (destruct r; reflexivity).
      rewrite Ht in H.
      destruct (Hash_Trytes txHash) as [trytes|] eqn:Etr; [|discriminate].
      destruct (LedgerIndex _ _ _ memo) as [m1 [li|]] eqn:ELI; [|discriminate].
      destruct (HL _ _ eq_refl) as [Hdone Hli].
      assert (memo' = m1) by congruence. subst m1.
      assert (Hr : resp = mkTransactionMetadataResponse trytes (IsSolid m)
                            (true && negb (IsConflicting m)) true (IsConflicting m)
                            (confirmationIndex m) ts
                            (if IsMilestone m then MilestoneIndex m else 0) li)
        by congruence.
      rewrite Hr. cbn.
      refine (conj _ (conj _ (conj eq_refl (conj Hdone Hli)))); [discriminate|].
      intros m0 Hm0. assert (m0 = m) as -> by congruence. rewrite Ec.
      refine (conj eq_refl (conj eq_refl (conj eq_refl (conj eq_refl
                (conj eq_refl (conj eq_refl (conj _ _))))))); [discriminate|].
      intros _. split.
      * intros ts' Hts. unfold ts. assert (r = inl ts') as -> by congruence. reflexivity.
      * intros e Hts. unfold ts. assert (r = inr e) as -> by congruence. reflexivity.
    + destruct (Hash_Trytes txHash) as [trytes|] eqn:Etr; [|discriminate].
      destruct (LedgerIndex _ _ _ memo) as [m1 [li|]] eqn:ELI; [|discriminate].
      destruct (HL _ _ eq_refl) as [Hdone Hli].
      assert (memo' = m1) by congruence. subst m1.
      assert (Hr : resp = mkTransactionMetadataResponse trytes (IsSolid m)
                            (false && negb (IsConflicting m)) false (IsConflicting m)
                            0 0 (if IsMilestone m then MilestoneIndex m else 0) li)
        by congruence.
      rewrite Hr. cbn.
      refine (conj _ (conj _ (conj eq_refl (conj Hdone Hli)))); [discriminate|].
      intros m0 Hm0. assert (m0 = m) as -> by congruence. rewrite Ec.
      refine (conj eq_refl (conj eq_refl (conj eq_refl (conj eq_refl
                (conj eq_refl (conj eq_refl (conj _ _))))))); [reflexivity | discriminate].
  - destruct (Hash_Trytes txHash) as [trytes|] eqn:Etr; [|discriminate].
    destruct (LedgerIndex _ _ _ memo) as [m1 [li|]] eqn:ELI; [|discriminate].
    destruct (HL _ _ eq_refl) as [Hdone Hli].
    assert (memo' = m1) by congruence. subst m1.
    assert (Hr : resp = mkTransactionMetadataResponse trytes false false false false 0 0 0 li)
      by congruence.
    rewrite Hr. cbn.
    refine (conj _ (conj _ (conj eq_refl (conj Hdone Hli)))); [repeat split|].
    intros m0 Hm0. discriminate.
  - discriminate.
Qed.
End ServerProperties.

(* ===================================================================== *)
(** * Further runs on the sample data *)
(* ===================================================================== *)

Import Scenarios.

Lemma sampleMetadata_valid : validMetadata sampleMetadata.
Proof.
  unfold validMetadata, isUint32. cbn. repeat split; try lia; reflexivity.
Qed.

Lemma Unmarshal_accepts_witness :
  (exists m, Unmarshal (NewTransactionMetadata hashT2) (Marshal sampleMetadata) = Ret m) /\
  (exists msg, Unmarshal (NewTransactionMetadata hashT2) (legacyRecord x03 5) = Panic msg).
Proof.
  split.
  - apply (proj1 (Unmarshal_accepts_iff_156 _ _)). apply Nat.leb_le. reflexivity.
  - apply (proj1 (proj2 (Unmarshal_accepts_iff_156 _ _))). apply Nat.ltb_lt. reflexivity.
Defined.

Lemma Unmarshal_after_Marshal_witness :
  validMetadata sampleMetadata /\
  Unmarshal (NewTransactionMetadata hashT1) (Marshal sampleMetadata ++ [x00; x01])
    = Ret (mkTransactionMetadata hashT1 x53 7 hashTrunk hashBranch hashB 7).
Proof.
  split; [exact sampleMetadata_valid|].
  exact (Unmarshal_after_Marshal (NewTransactionMetadata hashT1) sampleMetadata [x00; x01]
           sampleMetadata_valid).
Defined.

Lemma Marshal_after_Unmarshal_witness :
  Unmarshal (NewTransactionMetadata hashT2) (Marshal sampleMetadata ++ [xff]) = Ret sampleMetadata /\
  Marshal sampleMetadata = firstn TransactionMetadataSize (Marshal sampleMetadata ++ [xff]) /\
  validMetadata sampleMetadata.
Proof.
  assert (H : Unmarshal (NewTransactionMetadata hashT2) (Marshal sampleMetadata ++ [xff])
              = Ret sampleMetadata) by (vm_compute; reflexivity).
  split; [exact H|].
  destruct (Marshal_after_Unmarshal _ _ _ H) as (H1 & H2 & _).
  split; [exact H1 | exact H2].
Defined.

Lemma Marshal_injective_witness :
  validMetadata sampleMetadata /\
  validMetadata (mkTransactionMetadata hashT1 x53 7 hashTrunk hashBranch hashB 7) /\
  Marshal sampleMetadata = Marshal (mkTransactionMetadata hashT1 x53 7 hashTrunk hashBranch hashB 7).
Proof.
  assert (Hv : validMetadata (mkTransactionMetadata hashT1 x53 7 hashTrunk hashBranch hashB 7))
    by exact sampleMetadata_valid.
  refine (conj sampleMetadata_valid (conj Hv _)).
  apply (proj2 (Marshal_injective_up_to_txHash _ _ sampleMetadata_valid Hv)).
  repeat split.
Defined.

Lemma legacy_Unmarshal_witness :
  exists m,
    Legacy.Unmarshal (Legacy.NewTransactionMetadata hashT1) (legacyRecord x03 5) = Ret m /\
    Legacy.confirmationIndex m = 5 /\ Legacy.trunkHash m = [].
Proof.
  destruct (proj2 (legacy_Unmarshal_hashes_only_at_168 (Legacy.NewTransactionMetadata hashT1)
                     (legacyRecord x03 5)))
    as (m & E & _ & _ & Hci & _ & Hkeep).
  - apply Nat.leb_le. reflexivity.
  - exists m. split; [exact E|]. split.
    + assert (Hc : Uint32 (firstn 4 (skipn 5 (legacyRecord x03 5))) = Some 5)
        by (vm_compute; reflexivity).
      rewrite Hc in Hci. injection Hci as Hci. symmetry. exact Hci.
    + apply Hkeep. apply Nat.eqb_neq. reflexivity.
Defined.

Lemma migrated_record_answers_as_legacy_witness :
  migrateConsumer neverAborted database freshState hashT1 (legacyRecord x03 5)
    = (fst (migrateConsumer neverAborted database freshState hashT1 (legacyRecord x03 5)), Continue) /\
  exists legacy v m,
    Legacy.Unmarshal (Legacy.NewTransactionMetadata hashT1) (legacyRecord x03 5) = Ret legacy /\
    lookup hashT1 (entries (mig_store (fst (migrateConsumer neverAborted database freshState
                                               hashT1 (legacyRecord x03 5))))) = Some v /\
    Unmarshal (NewTransactionMetadata hashT1) v = Ret m /\
    ConfirmedWithIndex m = Legacy.ConfirmedWithIndex legacy.
Proof.
  assert (H : migrateConsumer neverAborted database freshState hashT1 (legacyRecord x03 5)
    = (fst (migrateConsumer neverAborted database freshState hashT1 (legacyRecord x03 5)), Continue))
    by (vm_compute; reflexivity).
  split; [exact H|].
  destruct (migrated_record_answers_as_legacy neverAborted database freshState _ hashT1 _ H)
    as (h & legacy & v & m & Hh & HL & Hv & Hm & _ & Hc & _).
  assert (Eh : Some h = Some hashT1) by (rewrite <- Hh; vm_compute; reflexivity).
  injection Eh as ->. exists legacy, v, m. auto.
Defined.

Lemma milestone_key_codec_witness :
  milestoneIndexFromDatabaseKey (databaseKeyForMilestoneIndex 7) = Ret 7 /\
  exists v, milestoneIndexFromDatabaseKey (PutUint32 7 ++ [xff]) = Ret v /\ isUint32 v.
Proof.
  destruct (milestone_key_codec 7 7 (PutUint32 7 ++ [xff])) as (_ & H1 & _ & _ & H2).
  split; [exact H1|].
  destruct H2 as (v & Hv & Hu & _); [apply Nat.leb_le; reflexivity|].
  exists v. split; [exact Hv | exact Hu].
Defined.

Lemma MilestoneOrNil_found_witness :
  Get (milestoneStore database) (databaseKeyForMilestoneIndex 7) = inl hashT2 /\
  MilestoneOrNil database 7 = Ret (Some (mkMilestone (uint32 7) (firstn HashSize hashT2))).
Proof.
  assert (H : Get (milestoneStore database) (databaseKeyForMilestoneIndex 7) = inl hashT2)
    by (vm_compute; reflexivity).
  split; [exact H|].
  apply (proj1 (MilestoneOrNil_found database 7 hashT2 H)). apply Nat.leb_le. reflexivity.
Defined.

Lemma BundleTransactionHashes_without_cap_witness :
  BundleTransactionHashes database hashB []
    = Ret (map (fun kv => txHashOfKey (fst kv))
             (withPrefix hashB (entries (bundleTransactionsStore database)))).
Proof.
  apply (proj1 (BundleTransactionHashes_without_cap database hashB eq_refl)).
  vm_compute. repeat constructor.
Defined.

Lemma capped_hashes_witness :
  BundleTransactionHashes database hashB [] = Ret [hashT3; hashT1; hashT2] /\
  BundleTransactionHashes database hashB [2; 5]
    = Ret (firstn (Z.to_nat 2) [hashT3; hashT1; hashT2]).
Proof.
  assert (H : BundleTransactionHashes database hashB [] = Ret [hashT3; hashT1; hashT2])
    by (vm_compute; reflexivity).
  split; [exact H|].
  exact (capped_hashes_are_prefix_of_uncapped database hashB _ 2 [5] H).
Defined.

Lemma ForEachBundleTailTransactionHash_witness :
  ForEachBundleTailTransactionHash database Hashes collectHash hashB [1] []
    = Ret (consumeWhile Hashes collectHash
             (capped [1] (map (fun kv => txHashOfKey (fst kv))
                            (withPrefix (hashB ++ [BundleTxIsTail])
                               (entries (bundleTransactionsStore database))))) []).
Proof.
  apply (proj1 (ForEachBundleTailTransactionHash_visits database Hashes collectHash
                  hashB [1] [])).
  - reflexivity.
  - vm_compute. repeat constructor.
Defined.

Lemma tail_scan_witness :
  BundleTransactionHashes database hashB [] = Ret [hashT3; hashT1; hashT2] /\
  ForEachBundleTailTransactionHash database Hashes collectHash hashB [] []
    = Ret [hashT1; hashT2].
Proof.
  destruct (tail_scan_selects_marked_keys database hashB) as [H1 H2].
  - reflexivity.
  - reflexivity.
  - reflexivity.
  - vm_compute. repeat constructor.
  - split.
    + rewrite H1. vm_compute. reflexivity.
    + rewrite H2. vm_compute. reflexivity.
Defined.

Lemma WasAddressSpentFrom_witness :
  WasAddressSpentFrom spentAddresses (hashT1 ++ [xff]) = Ret true /\
  exists msg, WasAddressSpentFrom spentAddresses [x11] = Panic msg.
Proof.
  destruct (WasAddressSpentFrom_first_49_bytes spentAddresses (hashT1 ++ [xff])) as [_ H].
  destruct (H ltac:(apply Nat.leb_le; reflexivity)) as [Hok _].
  split.
  - rewrite (Hok eq_refl). vm_compute. reflexivity.
  - apply (proj1 (WasAddressSpentFrom_first_49_bytes spentAddresses [x11])).
    apply Nat.ltb_lt. reflexivity.
Defined.

Lemma HashFromAddressTrytes_witness :
  String.length addressA = addressTrytesSize /\
  HashFromAddressTrytes addressA = HashFromHashTrytes trytesA.
Proof.
  assert (H : String.length addressA = addressTrytesSize) by (vm_compute; reflexivity).
  split; [exact H|].
  rewrite (proj1 (HashFromAddressTrytes_drops_checksum addressA) H).
  vm_compute. reflexivity.
Defined.

Lemma HashFromAddressTrytes_rejects_witness :
  String.length addressA90 = (hashTrytesSize + AddressChecksumTrytesSize)%nat /\
  HashFromAddressTrytes addressA90 = Panic "invalid address length".
Proof.
  assert (H : String.length addressA90 = (hashTrytesSize + AddressChecksumTrytesSize)%nat)
    by (vm_compute; reflexivity).
  split; [exact H|].
  apply (HashFromAddressTrytes_rejects_full_checksum addressA90).
  - apply Nat.ltb_lt. reflexivity.
  - apply Nat.ltb_lt. reflexivity.
  - exact H.
Defined.

Lemma migration_keeps_the_keys_witness :
  keysSortedb (entries (metadataStore database)) = true /\
  map fst (entries (fst cancelledPass)) = map fst (entries (metadataStore database)).
Proof.
  assert (H : keysSortedb (entries (metadataStore database)) = true) by (vm_compute; reflexivity).
  split; [exact H|].
  exact (proj1 (migration_keeps_the_keys cancelledAtThird database 2 3 H)).
Defined.

Lemma completed_pass_witness :
  migrateTangleDatabaseFunc neverAborted database 2 3 = (fst firstPass, Ret None) /\
  exists txData tx,
    Get (txStore database) (firstn 49 hashT1) = inl txData /\
    transactionFactory (firstn 49 hashT1) txData = inl tx.
Proof.
  assert (H1 : migrateTangleDatabaseFunc neverAborted database 2 3 = (fst firstPass, Ret None))
    by (vm_compute; reflexivity).
  split; [exact H1|].
  destruct (completed_pass_had_every_payload neverAborted database (fst firstPass)
              ltac:(vm_compute; reflexivity) H1 hashT1 (legacyRecord x03 5))
    as (_ & _ & txData & tx & HG & HF & _).
  - vm_compute. left. reflexivity.
  - exists txData, tx. split; assumption.
Defined.

Lemma undisturbed_pass_witness :
  rewriteAll database (lru_New milestoneCacheSize) (entries (metadataStore database))
    = Some (entries (fst firstPass)) /\
  migrateTangleDatabaseFunc neverAborted database 2 3
    = (mkKVStore (entries (fst firstPass)) noFault noFault noFault, Ret None).
Proof.
  assert (H : rewriteAll database (lru_New milestoneCacheSize) (entries (metadataStore database))
              = Some (entries (fst firstPass))) by (vm_compute; reflexivity).
  split; [exact H|].
  apply (proj2 (undisturbed_pass_rewrites_all neverAborted database (entries (fst firstPass))
                  ltac:(vm_compute; reflexivity) eq_refl (fun _ => eq_refl)
                  (fun _ => eq_refl) (fun _ _ => eq_refl))).
  exact H.
Defined.

Lemma cancelled_pass_witness :
  migrateTangleDatabaseFunc cancelledAtThird database 2 3 =
    (mkKVStore (firstn 2 (entries (fst firstPass)) ++ [(hashT3, legacyRecord x01 0)])
       noFault noFault noFault,
     Ret (Some ErrOperationAborted)).
Proof.
  apply (cancelled_pass_keeps_progress cancelledAtThird database
           [(hashT1, legacyRecord x03 5); (hashT2, legacyRecord x03 7)] []
           (firstn 2 (entries (fst firstPass))) hashT3 (legacyRecord x01 0)).
  - reflexivity.
  - vm_compute. reflexivity.
  - reflexivity.
  - intros k' _. reflexivity.
  - intros n Hn. cbn [cancelledAtThird abortedAt length] in *. apply Z.eqb_neq. lia.
  - reflexivity.
  - intros n c. reflexivity.
  - apply Nat.leb_le. reflexivity.
  - vm_compute. reflexivity.
Defined.

Lemma inner_scan_error_witness :
  migrateConsumer cancelledInScan database freshState hashT1 (legacyRecord x03 5)
    = (fst (migrateConsumer cancelledInScan database freshState hashT1 (legacyRecord x03 5)),
       Continue) /\
  mig_innerErr (fst (migrateConsumer cancelledInScan database freshState hashT1
                       (legacyRecord x03 5))) = Some ErrOperationAborted /\
  exists legacyMask ci tx,
    lookup hashT1 (entries (mig_store (fst (migrateConsumer cancelledInScan database freshState
                                              hashT1 (legacyRecord x03 5)))))
      = Some (Marshal (migratedMetadata hashT1 legacyMask ci tx 0)).
Proof.
  assert (H : migrateConsumer cancelledInScan database freshState hashT1 (legacyRecord x03 5)
    = (fst (migrateConsumer cancelledInScan database freshState hashT1 (legacyRecord x03 5)),
       Continue)) by (vm_compute; reflexivity).
  assert (He : mig_innerErr (fst (migrateConsumer cancelledInScan database freshState hashT1
                                    (legacyRecord x03 5))) = Some ErrOperationAborted)
    by (vm_compute; reflexivity).
  refine (conj H (conj He _)).
  destruct (inner_scan_error_is_deferred cancelledInScan database freshState _ hashT1 _ _
              H eq_refl He)
    as (h & legacyMask & ci & txData & tx & mck & Hh & _ & _ & _ & _ & _ & Hv & _).
  assert (Eh : Some h = Some hashT1) by (rewrite <- Hh; vm_compute; reflexivity).
  injection Eh as ->. exists legacyMask, ci, tx. exact Hv.
Defined.

Lemma rpcGetInclusionStates_witness :
  rpcGetInclusionStates requestDatabase [trytesA; trytesB; trytesD] = Ret (inl [true; false; false]) /\
  Forall2 (fun tx state => inclusionState requestDatabase tx state)
    [trytesA; trytesB; trytesD] [true; false; false] /\
  rpcGetInclusionStates requestDatabase [trytesA; "SHORT"%string]
    = Ret (inr (Wrapf ErrInvalidParameter "invalid reference hash provided")).
Proof.
  assert (H : rpcGetInclusionStates requestDatabase [trytesA; trytesB; trytesD]
              = Ret (inl [true; false; false])) by (vm_compute; reflexivity).
  refine (conj H (conj _ _)).
  - exact (proj1 (proj2 (rpcGetInclusionStates_states requestDatabase
                           [trytesA; trytesB; trytesD])) _ H).
  - apply (proj1 (rpcGetInclusionStates_states requestDatabase [trytesA; "SHORT"%string])).
    apply Exists_cons_tl. apply Exists_cons_hd. reflexivity.
Defined.

Lemma rpcGetTrytes_witness :
  rpcGetTrytes requestDatabase 1 [trytesA; trytesD]
    = Ret (inr (Wrapf ErrInvalidParameter "too many hashes")) /\
  exists resp,
    rpcGetTrytes requestDatabase 2 [trytesA; trytesD] = Ret (inl resp) /\
    resp_Milestones resp = [7; 0] /\
    length (resp_Trytes resp) = 2%nat.
Proof.
  split.
  - apply (proj1 (rpcGetTrytes_entries requestDatabase 1 [trytesA; trytesD])).
    reflexivity.
  - assert (H : exists resp, rpcGetTrytes requestDatabase 2 [trytesA; trytesD] = Ret (inl resp)
                             /\ resp_Milestones resp = [7; 0]).
    { eexists. split; vm_compute; reflexivity. }
    destruct H as (resp & H & Hm). exists resp. refine (conj H (conj Hm _)).
    exact (proj1 (proj2 (proj2 (rpcGetTrytes_entries requestDatabase 2 [trytesA; trytesD]) _ H))).
Defined.

Lemma rpcGetTrytes_missing_metadata_witness :
  rpcGetTrytes requestDatabase 10 [trytesA; trytesC; trytesD]
    = Ret (inr (Wrapf ErrInternalServerError "metadata not found for hash")).
Proof.
  apply (rpcGetTrytes_missing_metadata requestDatabase 10 [trytesA] [trytesD] trytesC keyC
           (mkTransaction "C"%string 900 hashTrunk hashBranch hashB false false false)
           "C"%string).
  - vm_compute. discriminate.
  - repeat constructor.
  - constructor; [|constructor].
    exists keyA, ("A"%string, 7). split; [vm_compute; reflexivity|].
    right.
    exists (mkTransaction "A"%string 900 hashTrunk hashBranch hashB false false false),
      (mkTransactionMetadata (firstn 49 keyA) x03 7 hashTrunk hashBranch hashB 0).
    repeat split; vm_compute; reflexivity.
  - vm_compute. reflexivity.
  - vm_compute. reflexivity.
  - reflexivity.
  - vm_compute. reflexivity.
Defined.

Lemma transactionMetadata_witness :
  exists memo' resp,
    transactionMetadata requestDatabase ledgerKey indexFromBytes ledger newLedgerMemo keyA
      = (memo', Ret resp) /\
    resp_Included resp = true /\
    resp_ReferencedByMilestoneIndex resp = 7 /\
    resp_MilestoneTimestampReferenced resp = 1000 /\
    resp_LedgerIndex resp = 9 /\
    ledgerMilestoneIndexOnce memo' = true.
Proof.
  assert (H : exists memo' resp,
             transactionMetadata requestDatabase ledgerKey indexFromBytes ledger newLedgerMemo keyA
               = (memo', Ret resp) /\ resp_LedgerIndex resp = 9).
  { eexists _, _. split; vm_compute; reflexivity. }
  destruct H as (memo' & resp & H & Hli). exists memo', resp.
  destruct (transactionMetadata_response requestDatabase ledgerKey indexFromBytes ledger
              newLedgerMemo memo' keyA resp H) as (_ & Hm & _ & Hdone & _).
  assert (HM : TxMetadataOrNil requestDatabase keyA
               = Ret (Some (mkTransactionMetadata (firstn 49 keyA) x03 7 hashTrunk hashBranch
                              hashB 0))) by (vm_compute; reflexivity).
  destruct (Hm _ HM) as (_ & _ & _ & Hinc & Href & _ & _ & Hts).
  refine (conj H (conj _ (conj _ (conj _ (conj Hli Hdone))))).
  - rewrite Hinc. reflexivity.
  - rewrite Href. reflexivity.
  - apply (proj1 (Hts eq_refl)). vm_compute. reflexivity.
Defined.
